(** * Fraud_Detection_Exercise.ipynb: the three data-preparation and scoring
    functions of the notebook, embedded and verified.

    - [fraudulent_percentage] (cell 5),
    - [train_test_split] (cell 42),
    - [evaluate] (evaluation helper cell),

    together with the notebook's manual test cell for the split.

    Numbers.  Python and NumPy integers are [Z].  The arithmetic on
    [test_size], whose rounding decides where the table is cut, is IEEE 754
    binary64 as the Standard Library specifies it ([SpecFloat]).  The cells
    of a table and the ratios returned by [fraudulent_percentage] and
    [evaluate] are the exact rationals ([Q]) that the doubles stand for: a
    quotient is kept exact, the double Python returns is the one nearest to
    it.

    Storage.  NumPy arrays are descriptors (views) over buffers held in a
    heap, so that [DataFrame.values], the in-place [np.random.shuffle] and
    the slices returned by [train_test_split] share storage exactly where
    pandas and NumPy share it.

    The library calls the notebook makes are modelled as the notebook's
    environment behaves (Python 3.6, the pandas and NumPy of that time:
    [DataFrame.values] without copy-on-write, the legacy [np.random]
    generator). *)

From Stdlib Require Import QArith Qabs Qround Lqa SpecFloat.
From stdpp Require Import gmap strings list fin_maps.

Local Open Scope Z_scope.
(* ===================================================================== *)
(** ** NumPy's legacy generator: the Mersenne Twister behind
       [np.random.seed] and [np.random.shuffle] *)
(* ===================================================================== *)

(** The generator is NumPy's, not the notebook's.  It is written out here
    (after randomkit's [rk_seed], [rk_random] and [rk_interval]) so that the
    examples below run on the permutations NumPy really produces; the
    theorems hold for any generator (class [RandomState] below). *)

Module MT19937.

Definition RK_STATE_LEN : nat := 624.
Definition M : nat := 397.
Definition MATRIX_A : Z := 0x9908b0df.
Definition UPPER_MASK : Z := 0x80000000.
Definition LOWER_MASK : Z := 0x7fffffff.
Definition mask32 : Z := 0xffffffff.

Record rk_state := { key : list Z; pos : nat }.

(** [rk_seed]: key[0] = seed; key[p] = 1812433253 * (k ^ (k >> 30)) + p. *)
Fixpoint seed_keys (n : nat) (p : Z) (s : Z) : list Z :=
  match n with
  | O => []
  | S n' =>
      s :: seed_keys n' (p + 1)
             (Z.land (1812433253 * Z.lxor s (Z.shiftr s 30) + p + 1) mask32)
  end.

Definition rk_seed (seed : Z) : rk_state :=
  {| key := seed_keys RK_STATE_LEN 0 (Z.land seed mask32);
     pos := RK_STATE_LEN |}.

Definition key_at (k : list Z) (i : nat) : Z := default 0 (k !! i).

(** One step of the regeneration loop, writing key[i] in place. *)
Definition twist_at (k : list Z) (i i1 im : nat) : list Z :=
  let y := Z.lor (Z.land (key_at k i) UPPER_MASK)
                 (Z.land (key_at k i1) LOWER_MASK) in
  let mag := if Z.testbit y 0 then MATRIX_A else 0 in
  <[i := Z.lxor (Z.lxor (key_at k im) (Z.shiftr y 1)) mag]> k.

Definition twist_index (i : nat) : nat * nat :=
  let N := RK_STATE_LEN in
  if (i <? N - M)%nat then (i + 1, i + M)%nat
  else if (i <? N - 1)%nat then (i + 1, i + M - N)%nat
  else (0, M - 1)%nat.

Definition regenerate (k : list Z) : list Z :=
  foldl (fun k i => let '(i1, im) := twist_index i in twist_at k i i1 im)
        k (seq 0 RK_STATE_LEN).

Definition temper (y : Z) : Z :=
  let y := Z.lxor y (Z.shiftr y 11) in
  let y := Z.lxor y (Z.land (Z.shiftl y 7) 0x9d2c5680) in
  let y := Z.lxor y (Z.land (Z.shiftl y 15) 0xefc60000) in
  Z.lxor y (Z.shiftr y 18).

Definition rk_random (st : rk_state) : Z * rk_state :=
  let st := if (pos st =? RK_STATE_LEN)%nat
            then {| key := regenerate (key st); pos := 0 |} else st in
  (temper (key_at (key st) (pos st)),
   {| key := key st; pos := S (pos st) |}).

(** The smallest all-ones mask covering [max]. *)
Definition smear (max : Z) : Z :=
  let m := max in
  let m := Z.lor m (Z.shiftr m 1) in
  let m := Z.lor m (Z.shiftr m 2) in
  let m := Z.lor m (Z.shiftr m 4) in
  let m := Z.lor m (Z.shiftr m 8) in
  let m := Z.lor m (Z.shiftr m 16) in
  Z.lor m (Z.shiftr m 32).

(** The rejection loop [while ((value = rk_random(state) & mask) > max)],
    bounded by [fuel] draws. *)
Fixpoint reject (fuel : nat) (mask max : Z) (st : rk_state) : option (Z * rk_state) :=
  match fuel with
  | O => None
  | S f =>
      let '(r, st') := rk_random st in
      let value := Z.land r mask in
      if value >? max then reject f mask max st' else Some (value, st')
  end.

End MT19937.

(* ===================================================================== *)
(** ** The generator interface used by the embedding *)
(* ===================================================================== *)

(** What [np.random] needs from its bit generator: seeding from an integer,
    and [rk_interval max state], a draw in [0, max] that advances the
    state. *)
Class RandomState := {
  rk_state : Type;
  rk_seed : Z → rk_state;
  rk_interval : nat → rk_state → nat * rk_state;
  rk_interval_le : ∀ max st, ((rk_interval max st).1 ≤ max)%nat
}.

Module MT19937_interval.
Import MT19937.

(** [rk_ulong]: two 32-bit draws glued together. *)
Definition rk_ulong (st : MT19937.rk_state) : Z * MT19937.rk_state :=
  let '(hi, st1) := rk_random st in
  let '(lo, st2) := rk_random st1 in
  (Z.lor (Z.shiftl hi 32) lo, st2).

Fixpoint reject64 (fuel : nat) (mask max : Z) (st : MT19937.rk_state)
  : option (Z * MT19937.rk_state) :=
  match fuel with
  | O => None
  | S f =>
      let '(r, st') := rk_ulong st in
      let value := Z.land r mask in
      if value >? max then reject64 f mask max st' else Some (value, st')
  end.

(** Draws allowed to one call of the rejection loop.  The C loop has no
    bound; a draw is accepted with probability above one half, and the
    examples of this file never come near the bound. *)
Definition interval_fuel : nat := 4096.

Definition rk_interval (max : nat) (st : MT19937.rk_state) : nat * MT19937.rk_state :=
  let mx := Z.of_nat max in
  if (max =? 0)%nat then (0%nat, st)
  else
    let loop := if mx <=? 0xffffffff then reject else reject64 in
    match loop interval_fuel (smear mx) mx st with
    | Some (value, st') => (Z.to_nat value, st')
    | None => (0%nat, st)
    end.

End MT19937_interval.

(** NumPy's [RandomState] over the Mersenne Twister. *)
#[export, refine] Instance mt19937 : RandomState := {|
  rk_state := MT19937.rk_state;
  rk_seed := MT19937.rk_seed;
  rk_interval := MT19937_interval.rk_interval
|}.
Proof.
  abstract (
    assert (Hr : ∀ fuel mask max st v st',
               MT19937.reject fuel mask max st = Some (v, st') → v ≤ max)
      by (induction fuel as [|f IH]; intros mask max st v st';
          cbn [MT19937.reject]; [done|];
          destruct (MT19937.rk_random st) as [r st1];
          destruct (Z.land r mask >? max) eqn:E; [by apply IH|];
          intros [= <- <-]; rewrite Z.gtb_ltb in E; apply Z.ltb_ge in E; lia);
    assert (Hr64 : ∀ fuel mask max st v st',
               MT19937_interval.reject64 fuel mask max st = Some (v, st') → v ≤ max)
      by (induction fuel as [|f IH]; intros mask max st v st';
          cbn [MT19937_interval.reject64]; [done|];
          destruct (MT19937_interval.rk_ulong st) as [r st1];
          destruct (Z.land r mask >? max) eqn:E; [by apply IH|];
          intros [= <- <-]; rewrite Z.gtb_ltb in E; apply Z.ltb_ge in E; lia);
    intros max st; unfold MT19937_interval.rk_interval;
    destruct (max =? 0)%nat; [simpl; lia|];
    destruct (Z.of_nat max <=? 0xffffffff);
    [ destruct (MT19937.reject _ _ _ _) as [[v st']|] eqn:E; simpl; [|lia];
      apply Hr in E; lia
    | destruct (MT19937_interval.reject64 _ _ _ _) as [[v st']|] eqn:E; simpl; [|lia];
      apply Hr64 in E; lia ]).
Defined.
(* ===================================================================== *)
(** ** Python values, exceptions and numbers *)
(* ===================================================================== *)

Inductive exn :=
  ZeroDivisionError | KeyError | IndexError | ValueError | OverflowError.

Inductive pyresult (A : Type) :=
| Ok (a : A)
| Raise (e : exn).
Arguments Ok {A} a.
Arguments Raise {A} e.

#[export] Instance pyresult_ret : MRet pyresult := λ A a, Ok a.
#[export] Instance pyresult_bind : MBind pyresult := λ A B k m,
  match m with
  | Ok a => k a
  | Raise e => Raise e
  end.
#[export] Instance pyresult_fmap : FMap pyresult := λ A B f m,
  match m with
  | Ok a => Ok (f a)
  | Raise e => Raise e
  end.

(** *** Floats and ints *)

(** Python's [float] is IEEE 754 binary64: 53 bits of precision, exponent
    of the infinities 1024.  The operations are those of [SpecFloat]
    (round to nearest, ties to even). *)
Definition prec : Z := 53.
Definition emax : Z := 1024.
Definition float : Type := spec_float.

(** The double nearest to an integer. *)
Definition float_of_Z (z : Z) : float := binary_normalize prec emax z 0 false.

(** A decimal literal such as [0.3], given as [3/10] with both parts
    exactly representable: the double nearest to the quotient. *)
Definition decimal (num den : Z) : float :=
  SFdiv prec emax (float_of_Z num) (float_of_Z den).

(** The value of a double as a rational (0 for the infinities and NaN). *)
Definition SF2Q (x : float) : Q :=
  match x with
  | S754_finite s m e =>
      if 0 <=? e then inject_Z (cond_Zopp s (Zpos m) * 2 ^ e)
      else Qmake (cond_Zopp s (Zpos m)) (Z.to_pos (2 ^ (- e)))
  | _ => 0%Q
  end.

(** A Python number: an [int] of any size, or a [float]. *)
Inductive number := PyInt (z : Z) | PyFloat (x : float).

(** The conversion of an int operand that meets a float: OverflowError
    when the int is beyond the doubles. *)
Definition int_to_float (z : Z) : pyresult float :=
  match float_of_Z z with
  | S754_infinity _ => Raise OverflowError
  | x => Ok x
  end.

Definition to_float (a : number) : pyresult float :=
  match a with
  | PyInt z => int_to_float z
  | PyFloat x => Ok x
  end.

(** [a - b] and [a * b]: exact on two ints, in doubles otherwise. *)
Definition py_sub (a b : number) : pyresult number :=
  match a, b with
  | PyInt x, PyInt y => Ok (PyInt (x - y))
  | _, _ => x ← to_float a; y ← to_float b; Ok (PyFloat (SFsub prec emax x y))
  end.

Definition py_mul (a b : number) : pyresult number :=
  match a, b with
  | PyInt x, PyInt y => Ok (PyInt (x * y))
  | _, _ => x ← to_float a; y ← to_float b; Ok (PyFloat (SFmul prec emax x y))
  end.

(** [int(a)]: a float is truncated towards zero; an infinity raises
    OverflowError and NaN raises ValueError. *)
Definition py_int (a : number) : pyresult Z :=
  match a with
  | PyInt z => Ok z
  | PyFloat S754_nan => Raise ValueError
  | PyFloat (S754_infinity _) => Raise OverflowError
  | PyFloat (S754_zero _) => Ok 0
  | PyFloat (S754_finite s m e) =>
      Ok (cond_Zopp s (if 0 <=? e then Zpos m * 2 ^ e else Zpos m / 2 ^ (- e)))
  end.

(** [a > x] for an int and a float, decided exactly as Python does. *)
Definition int_gt_float (a : Z) (x : float) : bool :=
  match x with
  | S754_nan => false
  | S754_infinity s => s
  | S754_zero _ => a >? 0
  | S754_finite s m e =>
      if 0 <=? e then a >? cond_Zopp s (Zpos m) * 2 ^ e
      else a * 2 ^ (- e) >? cond_Zopp s (Zpos m)
  end.

(** [train_size = int(len(matrix_df) * (1 - test_size))], for an array of
    [n] rows. *)
Definition train_size (n : nat) (test_size : number) : pyresult Z :=
  d ← py_sub (PyInt 1) test_size;
  p ← py_mul (PyInt (Z.of_nat n)) d;
  py_int p.

(** *** Tables *)

Definition row := list Q.
Definition loc := nat.

Inductive dtype := float64 | int64.
#[export] Instance dtype_eq_dec : EqDecision dtype.
Proof. solve_decision. Defined.

(** The float64 cell an int64 cell is cast to: the double nearest to the
    integer, as a rational in lowest terms. *)
Definition float64_of_int (z : Z) : Q := Qred (SF2Q (float_of_Z z)).

(** A row cast to float64: the cells of the int64 columns are converted
    (an int64 cell holds an integer), the float64 cells are kept. *)
Definition astype_float64 (columns : list (string * dtype)) (r : row) : row :=
  imap (λ i x, match columns !! i with
               | Some (_, int64) => float64_of_int (Qfloor x)
               | _ => x
               end) r.

(** What an array shows: the rows of a 2-D array or the cells of a 1-D
    array. *)
Inductive contents :=
| matrix (rows : list row)
| vector (cells : list Q).

(** [r[-1]] and [r[:-1]] *)
Definition label_of (r : row) : Q := default 0%Q (last r).
Definition features_row (r : row) : row := take (length r - 1) r.

Section Embedding.
Context `{RS : RandomState}.

(** The heap of array buffers (a buffer is the rows of a 2-D block) and
    the global generator of [np.random]. *)
Record world := World { heap : gmap loc (list row); rng : rk_state }.

Definition py (A : Type) : Type := world → pyresult A * world.

Definition py_raise {A} (e : exn) : py A := λ w, (Raise e, w).

(** A computation that touches neither the heap nor the generator. *)
Definition py_lift {A} (r : pyresult A) : py A := λ w, (r, w).

(** A raised exception skips the rest of the body; what was written to
    the heap or drawn from the generator before it stays. *)
#[export] Instance py_ret : MRet py := λ A a w, (Ok a, w).
#[export] Instance py_bind : MBind py := λ A B k m w,
  match m w with
  | (Ok a, w') => k a w'
  | (Raise e, w') => (Raise e, w')
  end.

(** *** The Fisher-Yates loop of [np.random.shuffle] *)

(** [buf = x[j]; x[j] = x[i]; x[i] = buf] *)
Definition swap_rows {A} (x : list A) (i j : nat) : list A :=
  match x !! i, x !! j with
  | Some xi, Some xj => <[i := xj]> (<[j := xi]> x)
  | _, _ => x
  end.

(** [for i in reversed(range(1, n)): j = rk_interval(i, state); swap] *)
Fixpoint shuffle_loop {A} (i : nat) (st : rk_state) (x : list A) : list A * rk_state :=
  match i with
  | O => (x, st)
  | S i' =>
      let '(j, st') := rk_interval i st in
      shuffle_loop i' st' (if decide (i = j) then x else swap_rows x i j)
  end.

Definition shuffle {A} (st : rk_state) (x : list A) : list A * rk_state :=
  shuffle_loop (length x - 1) st x.

(** *** pandas: a DataFrame over one 2-D buffer *)

(** Column names with their dtypes, and the buffer holding the rows.  The
    column labels of the frames considered are distinct, as [pd.read_csv]
    makes them. *)
Record DataFrame := { columns : list (string * dtype); data : loc }.

(** pandas stores the columns of one dtype together in one block.  A frame
    whose columns all share a dtype is a single block. *)
Definition is_single_block (cols : list (string * dtype)) : bool :=
  match cols with
  | [] => false
  | (_, d) :: rest => forallb (λ c, bool_decide (c.2 = d)) rest
  end.

(** *** NumPy: arrays are views on a buffer *)

(** Which columns of the buffer the view shows: all of them, [:-1], or the
    single column [-1] (a 1-D array). *)
Inductive colsel := all_columns | but_last | last_column.

(** Rows [start, stop) of the buffer at [base]; [width] is the number of
    columns of the underlying 2-D array. *)
Record ndarray := {
  base : loc; start : nat; stop : nat; width : nat; cols : colsel
}.

Definition buffer (h : gmap loc (list row)) (l : loc) : list row :=
  default [] (h !! l).

(** [len(a)] *)
Definition len (a : ndarray) : nat := stop a - start a.

(** The rows of the buffer a view covers, each in full. *)
Definition nd_rows (h : gmap loc (list row)) (a : ndarray) : list row :=
  take (len a) (drop (start a) (buffer h (base a))).

(** Reading an array: its rows through its column selection. *)
Definition nd_read (h : gmap loc (list row)) (a : ndarray) : contents :=
  match cols a with
  | all_columns => matrix (nd_rows h a)
  | but_last => matrix (features_row <$> nd_rows h a)
  | last_column => vector (label_of <$> nd_rows h a)
  end.

(** [DataFrame.values]: for a single block, the block's own array (no
    copy); otherwise the columns are interleaved into a new float64
    array. *)
Definition values (df : DataFrame) : py ndarray := λ w,
  let buf := buffer (heap w) (data df) in
  let shape1 := length (columns df) in
  if is_single_block (columns df) then
    (Ok {| base := data df; start := 0; stop := length buf;
           width := shape1; cols := all_columns |}, w)
  else
    let l := fresh (dom (heap w)) in
    (Ok {| base := l; start := 0; stop := length buf;
           width := shape1; cols := all_columns |},
     {| heap := <[l := astype_float64 (columns df) <$> buf]> (heap w);
        rng := rng w |}).

(** [np.random.seed(seed)]: an integer seed outside [0, 2**32 - 1] is
    refused with ValueError. *)
Definition np_random_seed (seed : Z) : py () := λ w,
  if bool_decide (0 ≤ seed ≤ 0xffffffff) then
    (Ok (), {| heap := heap w; rng := rk_seed seed |})
  else (Raise ValueError, w).

(** [np.random.shuffle(x)]: permutes the rows of [x] in place, in the
    buffer [x] is a view of. *)
Definition np_random_shuffle (x : ndarray) : py () := λ w,
  let buf := buffer (heap w) (base x) in
  let '(rows, st) := shuffle (rng w) (nd_rows (heap w) x) in
  (Ok (),
   {| heap := <[base x := take (start x) buf ++ rows ++ drop (stop x) buf]> (heap w);
      rng := st |}).

(** Python's slice bound against a sequence of length [n]: negative
    bounds count from the end, everything is clamped to [0, n]. *)
Definition clamp_index (k : Z) (n : nat) : nat :=
  if k <? 0 then Z.to_nat (Z.max 0 (k + Z.of_nat n))
  else Z.to_nat (Z.min k (Z.of_nat n)).

(** The column index of [matrix[rows, cols]] in [train_test_split]. *)
Inductive colindex := slice_to_minus1 | index_minus1.

(** [a[lo:hi, c]]: a view on the same buffer, showing the selected
    columns. *)
Definition getitem (a : ndarray) (lo hi : option Z) (c : colindex) : py ndarray :=
  let n := len a in
  let i := from_option (λ k, clamp_index k n) 0%nat lo in
  let j := from_option (λ k, clamp_index k n) n hi in
  let view sel := {| base := base a; start := start a + i;
                     stop := start a + max i j; width := width a; cols := sel |} in
  match c with
  | slice_to_minus1 => mret (view but_last)
  | index_minus1 =>
      if (width a =? 0)%nat then py_raise IndexError else mret (view last_column)
  end.

(** *** The notebook's [train_test_split]

    [test_size] defaults to [0.3] and [seed] to [1]. *)

Definition train_test_split (transaction_df : DataFrame) (test_size : number) (seed : Z)
  : py ((ndarray * ndarray) * (ndarray * ndarray)) :=
  matrix_df ← values transaction_df;
  np_random_seed seed;;
  np_random_shuffle matrix_df;;
  train_size ← py_lift (train_size (len matrix_df) test_size);
  train_features ← getitem matrix_df None (Some train_size) slice_to_minus1;
  train_labels ← getitem matrix_df None (Some train_size) index_minus1;
  test_features ← getitem matrix_df (Some train_size) None slice_to_minus1;
  test_labels ← getitem matrix_df (Some train_size) None index_minus1;
  mret ((train_features, train_labels), (test_features, test_labels)).

(** *** The notebook's [fraudulent_percentage] *)

(** Position of a column name in the frame. *)
Fixpoint column_index (name : string) (cs : list (string * dtype)) : option nat :=
  match cs with
  | [] => None
  | (c, _) :: rest =>
      if String.eqb c name then Some 0%nat else S <$> column_index name rest
  end.

(** [df[name]] for a label that names one column: the column as a
    sequence; KeyError when there is none. *)
Definition getitem_column (df : DataFrame) (name : string) : py (list Q) := λ w,
  match column_index name (columns df) with
  | Some c => (Ok ((λ r : row, default 0%Q (r !! c)) <$> buffer (heap w) (data df)), w)
  | None => (Raise KeyError, w)
  end.

(** [df[mask].shape[0]]: the rows the boolean mask keeps. *)
Definition count_true (mask : list bool) : Z :=
  Z.of_nat (length (filter (λ b, b = true) mask)).

(** [df.shape[0]] *)
Definition shape0 (df : DataFrame) : py Z := λ w,
  (Ok (Z.of_nat (length (buffer (heap w) (data df)))), w).

(** Python's [/] on two ints; the quotient is kept exact. *)
Definition py_truediv (a b : Z) : py Q :=
  if b =? 0 then py_raise ZeroDivisionError
  else mret (inject_Z a / inject_Z b)%Q.

Definition fraudulent_percentage (transaction_df : DataFrame) : py Q :=
  class ← getitem_column transaction_df "Class";
  let mask := (λ v, Qeq_bool v 1) <$> class in
  total ← shape0 transaction_df;
  py_truediv (count_true mask) total.

End Embedding.

(* ===================================================================== *)
(** ** The notebook's [evaluate] *)
(* ===================================================================== *)

(** A NumPy float64 that came out of a division: a number, or one of the
    IEEE specials a zero divisor gives. *)
Inductive npfloat :=
| finite (q : Q)
| nan
| inf (negative : bool).

(** [a / b] on two NumPy integers: true division, no exception. *)
Definition np_true_divide (a b : Z) : npfloat :=
  if b =? 0 then
    if a =? 0 then nan else inf (a <? 0)
  else finite (inject_Z a / inject_Z b)%Q.

(** Truth value of a number: anything but zero. *)
Definition truthy (x : Q) : bool := negb (Qeq_bool x 0).

(** [np.logical_and(a, b)] on 1-D arrays: elementwise, a length-1 operand
    is broadcast, other length mismatches raise ValueError. *)
Definition np_logical_and (a b : list Q) : pyresult (list bool) :=
  if (length a =? length b)%nat then
    Ok (zip_with (λ x y, truthy x && truthy y) a b)
  else
    match a, b with
    | [x], _ => Ok ((λ y, truthy x && truthy y) <$> b)
    | _, [y] => Ok ((λ x, truthy x && truthy y) <$> a)
    | _, _ => Raise ValueError
    end.

(** [(a).sum()] on a boolean array. *)
Definition np_sum (a : list bool) : Z :=
  Z.of_nat (length (filter (λ b, b = true) a)).

(** [1 - a] *)
Definition one_minus (a : list Q) : list Q := (λ x, 1 - x)%Q <$> a.

(** [np.array_split(ary, sections)]: the first [n mod sections] parts have
    one row more than the others. *)
Definition section_sizes (n sections : nat) : list nat :=
  replicate (n mod sections) (n / sections + 1)%nat
  ++ replicate (sections - n mod sections) (n / sections)%nat.

Fixpoint split_sizes {A} (sizes : list nat) (ary : list A) : list (list A) :=
  match sizes with
  | [] => []
  | k :: rest => take k ary :: split_sizes rest (drop k ary)
  end.

Definition np_array_split {A} (ary : list A) (sections : nat) : list (list A) :=
  split_sizes (section_sizes (length ary) sections) ary.

(** One record of the endpoint's answer. *)
Record prediction := { predicted_label : Q; score : Q }.

(** The returned dictionary. *)
Record metrics := {
  TP : Z; FP : Z; FN : Z; TN : Z;
  Precision : npfloat; Recall : npfloat; Accuracy : npfloat
}.

(** The predicted label of every test point, batch after batch. *)
Definition test_preds_of (predict : list row → list prediction)
    (test_features : list row) : list Q :=
  let prediction_batches := predict <$> np_array_split test_features 100 in
  concat ((λ batch, predicted_label <$> batch) <$> prediction_batches).

(** [pd.crosstab(index, columns)] on two arrays: the table is only
    printed; arrays of different lengths are refused with ValueError. *)
Definition pd_crosstab (index columns : list Q) : pyresult () :=
  if (length index =? length columns)%nat then Ok () else Raise ValueError.

(** [evaluate(predictor, test_features, test_labels, verbose=True)].
    Under [verbose] the cross table and the three ratios are printed after
    the metrics are computed and before the dictionary is returned; the
    printed text is output only. *)
Definition evaluate (predict : list row → list prediction)
    (test_features : list row) (test_labels : list Q) (verbose : bool)
  : pyresult metrics :=
  let test_preds := test_preds_of predict test_features in
  tp ← np_sum <$> np_logical_and test_labels test_preds;
  fp ← np_sum <$> np_logical_and (one_minus test_labels) test_preds;
  tn ← np_sum <$> np_logical_and (one_minus test_labels) (one_minus test_preds);
  fn ← np_sum <$> np_logical_and test_labels (one_minus test_preds);
  let recall := np_true_divide tp (tp + fn) in
  let precision := np_true_divide tp (tp + fp) in
  let accuracy := np_true_divide (tp + tn) (tp + fp + tn + fn) in
  (if verbose then pd_crosstab test_labels test_preds else Ok ());;
  mret {| TP := tp; FP := fp; FN := fn; TN := tn;
          Precision := precision; Recall := recall; Accuracy := accuracy |}.

(* ===================================================================== *)
(** ** Vocabulary for the statements *)
(* ===================================================================== *)

(** A [test_size] within the documented range: a double strictly between
    0 and 1. *)
Definition fraction (test_size : number) : Prop :=
  match test_size with
  | PyInt _ => False
  | PyFloat x =>
      valid_binary prec emax x = true
      ∧ SFltb (float_of_Z 0) x = true ∧ SFltb x (float_of_Z 1) = true
  end.

(** A [test_size] of ordinary size: any int, or a double (not NaN, not
    infinite) of magnitude below 2**53. *)
Definition moderate (test_size : number) : Prop :=
  match test_size with
  | PyInt _ => True
  | PyFloat x =>
      valid_binary prec emax x = true
      ∧ SFltb (SFabs x) (float_of_Z (2 ^ 53)) = true
  end.

(** [test_size == 0] and [test_size == 1], for an int or a float. *)
Definition is_zero (test_size : number) : Prop :=
  match test_size with
  | PyInt z => z = 0
  | PyFloat x => SFeqb x (float_of_Z 0) = true
  end.

Definition is_one (test_size : number) : Prop :=
  match test_size with
  | PyInt z => z = 1
  | PyFloat x => SFeqb x (float_of_Z 1) = true
  end.

(** A double that is zero or finite with a small exponent, and one that is
    not negative. *)
Definition small (r : float) : Prop :=
  match r with
  | S754_nan | S754_infinity _ => False
  | S754_zero _ => True
  | S754_finite _ m e => e ≤ 3 ∧ Zdigits2 (Zpos m) + e ≤ 56
  end.

Definition nonneg (r : float) : Prop :=
  match r with
  | S754_zero _ | S754_finite false _ _ => True
  | _ => False
  end.

Section Vocabulary.
Context `{RS : RandomState}.

(** The rows of the caller's table, read through the heap. *)
Definition table (w : world) (df : DataFrame) : list row :=
  buffer (heap w) (data df).

(** The rows of [transaction_df.values]: the table itself for a single
    block, the table cast to float64 otherwise. *)
Definition as_matrix (w : world) (df : DataFrame) : list row :=
  if is_single_block (columns df) then table w df
  else astype_float64 (columns df) <$> table w df.

(** What the four returned arrays show in a given world:
    ((train features, train labels), (test features, test labels)). *)
Definition split_contents (w : world)
    (r : (ndarray * ndarray) * (ndarray * ndarray))
  : (contents * contents) * (contents * contents) :=
  let '((train_features, train_labels), (test_features, test_labels)) := r in
  ((nd_read (heap w) train_features, nd_read (heap w) train_labels),
   (nd_read (heap w) test_features, nd_read (heap w) test_labels)).

(** What a call returned, read when it returns: the contents of the four
    arrays, or the exception. *)
Definition split_result
    (o : pyresult ((ndarray * ndarray) * (ndarray * ndarray)) * world)
  : pyresult ((contents * contents) * (contents * contents)) :=
  match o with
  | (Ok r, w') => Ok (split_contents w' r)
  | (Raise e, _) => Raise e
  end.

(** The table as [np.random.seed(seed); np.random.shuffle] leaves it. *)
Definition shuffled (seed : Z) (rows : list row) : list row :=
  (shuffle (rk_seed seed) rows).1.

(** The original position of every row of the shuffled table. *)
Definition shuffle_order (seed : Z) (n : nat) : list nat :=
  (shuffle (rk_seed seed) (seq 0 n)).1.

End Vocabulary.

(** A row sequence cut at [k], features and labels taken apart:
    ((features before, labels before), (features after, labels after)). *)
Definition cut_rows (k : nat) (s : list row)
  : (contents * contents) * (contents * contents) :=
  ((matrix (features_row <$> take k s), vector (label_of <$> take k s)),
   (matrix (features_row <$> drop k s), vector (label_of <$> drop k s))).

(** Feature rows and labels put back together, each label behind its
    feature row. *)
Definition with_labels (features : list row) (labels : list Q) : list row :=
  zip_with (λ f l, f ++ [l]) features labels.

(** A binary label. *)
Definition binary (x : Q) : Prop := (x == 0 ∨ x == 1)%Q.

(** Every cell of an int64 column holds an integer below 2**53 in
    magnitude, which float64 represents exactly. *)
Definition exact_ints (columns : list (string * dtype)) (r : row) : Prop :=
  ∀ i x name, r !! i = Some x → columns !! i = Some (name, int64) →
    ∃ z, x = inject_Z z ∧ Z.abs z < 2 ^ 53.

(** Number of columns with a given name. *)
Definition count_named (name : string) (cs : list (string * dtype)) : nat :=
  length (filter (λ c, c.1 = name) cs).

(** Number of rows whose cell in column [c] equals 1. *)
Fixpoint count_fraud (c : nat) (rows : list row) : nat :=
  match rows with
  | [] => 0
  | r :: rest =>
      (if Qeq_bool (default 0%Q (r !! c)) 1 then 1 else 0) + count_fraud c rest
  end%nat.

(** Rounding to the nearest integer, ties to even (Python's [round]). *)
Definition round_half_even (x : Q) : Z :=
  let f := Qfloor x in
  match (x - inject_Z f ?= 1 # 2)%Q with
  | Lt => f
  | Gt => f + 1
  | Eq => if Z.even f then f else f + 1
  end.

(** Number of positions at which actual label and prediction are the given
    pair of values. *)
Fixpoint count_pairs (actual predicted : Q) (labels preds : list Q) : Z :=
  match labels, preds with
  | a :: labels', p :: preds' =>
      (if Qeq_bool a actual && Qeq_bool p predicted then 1 else 0)
      + count_pairs actual predicted labels' preds'
  | _, _ => 0
  end.

(** Two NumPy floats holding the same value. *)
Definition same_float (x y : npfloat) : Prop :=
  match x, y with
  | finite a, finite b => (a == b)%Q
  | nan, nan => True
  | inf s, inf t => s = t
  | _, _ => False
  end.

(** *** Sample data *)

(** The notebook's default [test_size = 0.3]. *)
Definition default_test_size : number := PyFloat (decimal 3 10).

Definition Qrow (r : list Z) : row := inject_Z <$> r.

(** Five transactions, columns Amount and Class. *)
Definition sample_rows : list row :=
  Qrow <$> [[10; 0]; [20; 1]; [30; 0]; [40; 0]; [50; 1]].

(** The same table held as float columns only (one block), and with an
    integer Class column as [pd.read_csv] loads it (two blocks). *)
Definition float_frame : DataFrame :=
  {| columns := [("Amount"%string, float64); ("Class"%string, float64)];
     data := 7%nat |}.
Definition mixed_frame : DataFrame :=
  {| columns := [("Amount"%string, float64); ("Class"%string, int64)];
     data := 7%nat |}.

Definition sample_world : world :=
  {| heap := {[ 7%nat := sample_rows ]}; rng := rk_seed 99 |}.

(** Another interpreter state holding the same table: a different
    generator state and one more buffer. *)
Definition busy_world : world :=
  {| heap := {[ 7%nat := sample_rows; 3%nat := [Qrow [1; 2]] ]};
     rng := rk_seed 2020 |}.

(** Ten transactions, the fourth one fraudulent. *)
Definition ten_rows : list row :=
  (λ i, Qrow [Z.of_nat i; if (i =? 3)%nat then 1 else 0]) <$> seq 0 10.
Definition ten_world : world :=
  {| heap := {[ 7%nat := ten_rows ]}; rng := rk_seed 99 |}.

(** An endpoint that answers with the first feature of each row, and one
    that never predicts fraud. *)
Definition echo_predictor (batch : list row) : list prediction :=
  (λ r : row, {| predicted_label := default 0%Q (head r); score := 0 |}) <$> batch.
Definition never_predictor (batch : list row) : list prediction :=
  (λ _ : row, {| predicted_label := 0; score := 0 |}) <$> batch.

(** One hundred and ninety transactions, one in twenty-five fraudulent. *)
Definition numbered_rows (n : nat) : list row :=
  (λ i, Qrow [Z.of_nat i; if (i mod 25 =? 0)%nat then 1 else 0]) <$> seq 0 n.
Definition hundred_world : world :=
  {| heap := {[ 7%nat := numbered_rows 100 ]}; rng := rk_seed 99 |}.
Definition ninety_world : world :=
  {| heap := {[ 7%nat := numbered_rows 90 ]}; rng := rk_seed 99 |}.

(** A table whose integer column holds a value float64 cannot represent. *)
Definition wide_world : world :=
  {| heap := {[ 7%nat := [Qrow [1; 2 ^ 53 + 1]] ]}; rng := rk_seed 99 |}.

(* ===================================================================== *)
(** ** The notebook's manual test cell *)
(* ===================================================================== *)

(** What can stop the cell: a failed [assert] with its message, or the
    IndexError of [train_features[0]] / [train_labels[0]] on an empty
    training partition. *)
Inductive cell_exn :=
| AssertionError (msg : string)
| CellIndexError.

Inductive cell_result :=
| tests_passed
| cell_raised (e : cell_exn).

(** [np.all(a)]: every element is truthy. *)
Definition np_all (a : list Q) : bool := forallb truthy a.

(** [b == k] for a NumPy boolean and a Python int: True is 1, False is 0. *)
Definition bool_eq_int (b : bool) (k : Z) : bool := Z.b2z b =? k.

(** [len(a) > 2.333 * len(b)]: the product is a double, the comparison of
    the int with it is exact. *)
Definition more_than_2333 (a b : nat) : bool :=
  int_gt_float (Z.of_nat a)
    (SFmul prec emax (decimal 2333 1000) (float_of_Z (Z.of_nat b))).

(** The cell run on the four arrays [train_test_split] returned (what it
    prints is left out). *)
Definition manual_test (train_features : list row) (train_labels : list Q)
    (test_features : list row) (test_labels : list Q) : cell_result :=
  match train_features, train_labels with
  | [], _ => cell_raised CellIndexError
  | _, [] => cell_raised CellIndexError
  | _ :: _, _ :: _ =>
      if negb (more_than_2333 (length train_features) (length test_features)) then
        cell_raised (AssertionError
          "Unexpected number of train/test points for a train_frac=0.7")
      else if negb (bool_eq_int (np_all train_labels) 0
                    || bool_eq_int (np_all train_labels) 1) then
        cell_raised (AssertionError "Train labels should be 0s or 1s.")
      else if negb (bool_eq_int (np_all test_labels) 0
                    || bool_eq_int (np_all test_labels) 1) then
        cell_raised (AssertionError "Test labels should be 0s or 1s.")
      else tests_passed
  end.

(* ===================================================================== *)
(** ** More vocabulary *)
(* ===================================================================== *)

(** How many elements of a label sequence equal [v]. *)
Fixpoint count_label (v : Q) (labels : list Q) : nat :=
  match labels with
  | [] => 0
  | x :: rest => (if Qeq_bool x v then 1 else 0) + count_label v rest
  end%nat.

(** At how many positions label and prediction differ. *)
Fixpoint count_differ (labels preds : list Q) : Z :=
  match labels, preds with
  | a :: labels', p :: preds' =>
      (if Qeq_bool a p then 0 else 1) + count_differ labels' preds'
  | _, _ => 0
  end.

(** A metric that is a number within [0, 1], or NaN. *)
Definition ratio_or_nan (x : npfloat) : Prop :=
  match x with
  | finite q => (0 <= q <= 1)%Q
  | nan => True
  | inf _ => False
  end.

(** *** More sample data *)

(** Three transactions: too few for the manual test's size check. *)
Definition three_world : world :=
  {| heap := {[ 7%nat := take 3 sample_rows ]}; rng := rk_seed 99 |}.

(** A frame without a Class column. *)
Definition unlabeled_frame : DataFrame :=
  {| columns := [("Amount"%string, float64); ("Time"%string, float64)];
     data := 7%nat |}.

(** An endpoint that flags a row when its first feature is above 25. *)
Definition threshold_predictor (batch : list row) : list prediction :=
  (λ r : row,
     {| predicted_label :=
          if Qle_bool (default 0%Q (head r)) 25 then 0 else 1;
        score := 0 |}) <$> batch.

(** An endpoint that answers every row with the size of the batch the row
    came in. *)
Definition batch_size_predictor (batch : list row) : list prediction :=
  (λ _ : row, {| predicted_label := inject_Z (Z.of_nat (length batch));
                 score := 0 |}) <$> batch.
(* ===================================================================== *)
(** ** The generator and the shuffle *)
(* ===================================================================== *)

(** The reference implementation's first output for its default seed. *)
Example mt_first_5489 :
  (MT19937.rk_random (MT19937.rk_seed 5489)).1 = 3499211612.
Proof. vm_compute. reflexivity. Qed.

(** [np.random.seed(0); np.random.permutation(10)] and the same for seed 42,
    as NumPy prints them. *)
Example numpy_permutation_seed0 :
  shuffle_order 0 10 = [2; 8; 4; 9; 1; 6; 7; 3; 0; 5]%nat.
Proof. vm_compute. reflexivity. Qed.

Example numpy_permutation_seed42 :
  shuffle_order 42 10 = [8; 1; 5; 0; 7; 2; 9; 4; 3; 6]%nat.
Proof. vm_compute. reflexivity. Qed.

Section Shuffle.
Context `{RS : RandomState}.

Lemma swap_rows_perm {A} (x : list A) i j : swap_rows x i j ≡ₚ x.
Proof.
  unfold swap_rows.
  destruct (x !! i) as [xi|] eqn:Hi; [|done].
  destruct (x !! j) as [xj|] eqn:Hj; [|done].
  by apply Permutation_insert_swap.
Qed.

Lemma swap_rows_length {A} (x : list A) i j : length (swap_rows x i j) = length x.
Proof. apply Permutation_length, swap_rows_perm. Qed.

Lemma swap_rows_fmap {A B} (f : A → B) (x : list A) i j :
  swap_rows (f <$> x) i j = f <$> swap_rows x i j.
Proof.
  unfold swap_rows. rewrite !list_lookup_fmap.
  destruct (x !! i) as [xi|]; [|done].
  destruct (x !! j) as [xj|]; [|done].
  simpl. by rewrite !list_fmap_insert.
Qed.

Lemma shuffle_loop_perm {A} i st (x : list A) : (shuffle_loop i st x).1 ≡ₚ x.
Proof.
  revert st x. induction i as [|i IH]; intros st x; simpl; [done|].
  destruct (rk_interval (S i) st) as [j st'].
  rewrite IH. case_decide; [done|apply swap_rows_perm].
Qed.

Lemma shuffle_loop_fmap {A B} (f : A → B) i st (x : list A) :
  shuffle_loop i st (f <$> x)
  = (f <$> (shuffle_loop i st x).1, (shuffle_loop i st x).2).
Proof.
  revert st x. induction i as [|i IH]; intros st x; simpl; [done|].
  destruct (rk_interval (S i) st) as [j st'].
  case_decide; [apply IH|]. rewrite swap_rows_fmap. apply IH.
Qed.

(** Every swap of the loop stays inside the array: the draw [j] is at most
    [i], and [i] is below the length. *)
Lemma shuffle_loop_in_range {A} i st (x : list A) :
  (i < length x)%nat →
  let j := (rk_interval i st).1 in
  is_Some (x !! i) ∧ is_Some (x !! j).
Proof.
  intros Hi j. pose proof (rk_interval_le i st).
  split; apply lookup_lt_is_Some; subst j; lia.
Qed.

Lemma shuffle_perm {A} st (x : list A) : (shuffle st x).1 ≡ₚ x.
Proof. apply shuffle_loop_perm. Qed.

Lemma shuffle_length {A} st (x : list A) : length (shuffle st x).1 = length x.
Proof. apply Permutation_length, shuffle_perm. Qed.

Lemma shuffle_fmap {A B} (f : A → B) st (x : list A) :
  shuffle st (f <$> x) = (f <$> (shuffle st x).1, (shuffle st x).2).
Proof. unfold shuffle. rewrite length_fmap. apply shuffle_loop_fmap. Qed.

Lemma list_by_index {A} (d : A) (x : list A) :
  x = (λ i, default d (x !! i)) <$> seq 0 (length x).
Proof.
  apply list_eq. intros i. rewrite list_lookup_fmap.
  destruct (decide (i < length x)%nat) as [Hi|Hi].
  - rewrite lookup_seq_lt by done. simpl.
    destruct (lookup_lt_is_Some_2 x i Hi) as [a ->]. done.
  - rewrite lookup_seq_ge by lia. rewrite lookup_ge_None_2 by lia. done.
Qed.

(** The shuffle moves whole rows and looks at nothing but their number:
    the shuffled table is the original one read in [shuffle_order]. *)
Lemma shuffled_by_order seed (rows : list row) :
  shuffled seed rows
  = (λ i, default [] (rows !! i)) <$> shuffle_order seed (length rows).
Proof.
  unfold shuffled, shuffle_order.
  rewrite (list_by_index [] rows) at 1. by rewrite shuffle_fmap.
Qed.

Lemma shuffled_perm seed (rows : list row) : shuffled seed rows ≡ₚ rows.
Proof. apply shuffle_perm. Qed.

Lemma shuffled_length seed (rows : list row) :
  length (shuffled seed rows) = length rows.
Proof. apply shuffle_length. Qed.

Lemma shuffle_order_perm seed n : shuffle_order seed n ≡ₚ seq 0 n.
Proof. apply shuffle_perm. Qed.

Lemma shuffle_order_NoDup seed n : NoDup (shuffle_order seed n).
Proof. rewrite shuffle_order_perm. apply NoDup_seq. Qed.

End Shuffle.

(* ===================================================================== *)
(** ** Rounding in binary64 *)
(* ===================================================================== *)

(** The literal [0.3] and the products the notebook's default split
    computes, as Python prints them: [90 * (1 - 0.3)] is
    [62.99999999999999], [100 * (1 - 0.3)] is [70.0]. *)
Example decimal_03 : decimal 3 10 = S754_finite false 5404319552844595 (-54).
Proof. vm_compute. reflexivity. Qed.

Example train_size_90 : train_size 90 default_test_size = Ok 62.
Proof. vm_compute. reflexivity. Qed.

Example train_size_100 : train_size 100 default_test_size = Ok 70.
Proof. vm_compute. reflexivity. Qed.

(** [int(100 * (1 - 1.7))] is [-70], [int(90 * (1 - 1.7))] is [-62], and
    [int(100 * (1 - 1e-30))] is [100]. *)
Example train_size_above_one :
  train_size 100 (PyFloat (decimal 17 10)) = Ok (-70)
  ∧ train_size 90 (PyFloat (decimal 17 10)) = Ok (-62).
Proof. split; vm_compute; reflexivity. Qed.

Example train_size_tiny :
  train_size 100 (PyFloat (decimal 1 (10 ^ 30))) = Ok 100.
Proof. vm_compute. reflexivity. Qed.

(** [int(100 * (1 - 1e308))] raises OverflowError, and ValueError when
    [test_size] is NaN. *)
Example train_size_overflow :
  train_size 100 (PyFloat (float_of_Z (10 ^ 308))) = Raise OverflowError
  ∧ train_size 100 (PyFloat (float_of_Z (- 10 ^ 308))) = Raise OverflowError
  ∧ train_size 100 (PyFloat S754_nan) = Raise ValueError.
Proof. repeat split; vm_compute; reflexivity. Qed.

(** [1 / 49 * 49] is not [1] in doubles. *)
Example one_49th :
  SFmul prec emax (decimal 1 49) (float_of_Z 49) ≠ float_of_Z 1.
Proof. vm_compute. discriminate. Qed.

(** An int64 cell above 2**53 does not survive the cast to float64. *)
Example float64_of_int_rounds : float64_of_int (2 ^ 53 + 1) = inject_Z (2 ^ 53).
Proof. vm_compute. reflexivity. Qed.

(** *** Digits *)

Lemma pow2_pos k : 0 ≤ k → 0 < 2 ^ k.
Proof. intros. apply Z.pow_pos_nonneg; lia. Qed.

Lemma digits2_pos_size p : digits2_pos p = Pos.size p.
Proof. induction p as [p IH|p IH|]; simpl; by rewrite ?IH. Qed.

Lemma Zdigits2_log2 p : Zdigits2 (Zpos p) = Z.log2 (Zpos p) + 1.
Proof.
  simpl. rewrite digits2_pos_size. destruct p as [p|p|]; simpl; lia.
Qed.

Lemma Zdigits2_bounds p : 2 ^ (Zdigits2 (Zpos p) - 1) ≤ Zpos p < 2 ^ Zdigits2 (Zpos p).
Proof.
  rewrite Zdigits2_log2. replace (Z.log2 (Z.pos p) + 1 - 1) with (Z.log2 (Z.pos p)) by lia.
  apply Z.log2_spec. lia.
Qed.

Lemma Zdigits2_nonneg m : 0 ≤ Zdigits2 m.
Proof. destruct m; simpl; lia. Qed.

Lemma Zdigits2_le_iff m k : 0 ≤ m → 0 ≤ k → Zdigits2 m ≤ k ↔ m < 2 ^ k.
Proof.
  intros Hm Hk. destruct m as [|p|p]; [|clear Hm|lia].
  - simpl. split; [intros _; by apply pow2_pos|lia].
  - pose proof (Zdigits2_bounds p) as [Hlo Hhi]. split.
    + intros Hd. eapply Z.lt_le_trans; [exact Hhi|]. apply Z.pow_le_mono_r; lia.
    + intros Hlt. destruct (decide (Zdigits2 (Z.pos p) ≤ k)) as [|Hn]; [done|].
      assert (2 ^ k ≤ 2 ^ (Zdigits2 (Z.pos p) - 1)) by (apply Z.pow_le_mono_r; lia).
      lia.
Qed.

Lemma Zdigits2_lt m : 0 ≤ m → m < 2 ^ Zdigits2 m.
Proof. intros Hm. apply Zdigits2_le_iff; [done|apply Zdigits2_nonneg|lia]. Qed.

Lemma Zdigits2_mono a b : 0 ≤ a ≤ b → Zdigits2 a ≤ Zdigits2 b.
Proof.
  intros [Ha Hab]. apply Zdigits2_le_iff; [done|apply Zdigits2_nonneg|].
  pose proof (Zdigits2_lt b). lia.
Qed.

Lemma Zdigits2_succ m : 0 ≤ m → Zdigits2 (m + 1) ≤ Zdigits2 m + 1.
Proof.
  intros Hm. pose proof (Zdigits2_nonneg m).
  apply Zdigits2_le_iff; [lia|lia|].
  pose proof (Zdigits2_lt m Hm). pose proof (pow2_pos (Zdigits2 m) H).
  rewrite Z.pow_add_r by lia. lia.
Qed.

Lemma Zdigits2_mul_pow2 m k : 0 < m → 0 ≤ k → Zdigits2 (m * 2 ^ k) = Zdigits2 m + k.
Proof.
  intros Hm Hk. pose proof (pow2_pos k Hk).
  destruct m as [|p|p]; try lia.
  destruct (Z.pos p * 2 ^ k) as [|q|q] eqn:E; try lia.
  rewrite !Zdigits2_log2, <- E, Z.log2_mul_pow2 by lia. lia.
Qed.

Lemma Zdigits2_mul a b : 0 ≤ a → 0 ≤ b → Zdigits2 (a * b) ≤ Zdigits2 a + Zdigits2 b.
Proof.
  intros Ha Hb. pose proof (Zdigits2_nonneg a). pose proof (Zdigits2_nonneg b).
  apply Zdigits2_le_iff; [lia|lia|].
  rewrite Z.pow_add_r by lia.
  pose proof (Zdigits2_lt a Ha). pose proof (Zdigits2_lt b Hb). nia.
Qed.

Lemma Zdigits2_div m k : 0 ≤ m → 0 ≤ k → Zdigits2 (m / 2 ^ k) + k ≤ Z.max (Zdigits2 m) k.
Proof.
  intros Hm Hk. pose proof (pow2_pos k Hk). pose proof (Zdigits2_nonneg m).
  assert (Hq : 0 ≤ m / 2 ^ k) by (apply Z.div_pos; lia).
  assert (Zdigits2 (m / 2 ^ k) ≤ Z.max (Zdigits2 m) k - k); [|lia].
  apply Zdigits2_le_iff; [done|lia|].
  pose proof (Zdigits2_lt m Hm).
  destruct (decide (Zdigits2 m ≤ k)) as [Hle|Hgt].
  - replace (Z.max (Zdigits2 m) k - k) with 0 by lia.
    assert (2 ^ Zdigits2 m ≤ 2 ^ k) by (apply Z.pow_le_mono_r; lia).
    rewrite Z.div_small by lia. done.
  - replace (Z.max (Zdigits2 m) k - k) with (Zdigits2 m - k) by lia.
    apply Z.div_lt_upper_bound; [lia|].
    rewrite <- Z.pow_add_r by lia. replace (k + (Zdigits2 m - k)) with (Zdigits2 m) by lia. done.
Qed.

Lemma shr_1_m mrs : 0 ≤ shr_m mrs → shr_m (shr_1 mrs) = shr_m mrs / 2.
Proof.
  destruct mrs as [m r s]. simpl. intros Hm.
  rewrite <- Z.div2_div.
  destruct m as [|[p|p|]|]; try done.
Qed.

Lemma iter_shr_m p mrs :
  0 ≤ shr_m mrs → shr_m (SpecFloat.iter_pos shr_1 p mrs) = shr_m mrs / 2 ^ Zpos p.
Proof.
  revert mrs. induction p as [p IH|p IH|]; intros mrs Hm; cbn [SpecFloat.iter_pos].
  - assert (H1 : 0 ≤ shr_m (shr_1 mrs)) by (rewrite shr_1_m by done; apply Z.div_pos; lia).
    pose proof (pow2_pos (Z.pos p) ltac:(lia)).
    assert (H2 : 0 ≤ shr_m (SpecFloat.iter_pos shr_1 p (shr_1 mrs))) by (rewrite IH by done; apply Z.div_pos; lia).
    rewrite IH, IH, shr_1_m by done.
    rewrite !Z.div_div by lia. f_equal.
    rewrite Pos2Z.inj_xI.
    replace (2 * Z.pos p + 1) with (1 + Z.pos p + Z.pos p) by lia.
    rewrite !Z.pow_add_r by lia. lia.
  - pose proof (pow2_pos (Z.pos p) ltac:(lia)).
    assert (H2 : 0 ≤ shr_m (SpecFloat.iter_pos shr_1 p mrs)) by (rewrite IH by done; apply Z.div_pos; lia).
    rewrite IH, IH by done.
    rewrite !Z.div_div by lia. f_equal.
    rewrite Pos2Z.inj_xO. rewrite <- Z.pow_add_r by lia. f_equal. lia.
  - rewrite shr_1_m by done. done.
Qed.

Lemma shr_1_exact m :
  0 ≤ m →
  shr_1 {| shr_m := 2 * m; shr_r := false; shr_s := false |}
  = {| shr_m := m; shr_r := false; shr_s := false |}.
Proof. intros Hm. destruct m as [|p|p]; try done. Qed.

Lemma iter_shr_exact p m :
  0 ≤ m →
  SpecFloat.iter_pos shr_1 p {| shr_m := m * 2 ^ Zpos p; shr_r := false; shr_s := false |}
  = {| shr_m := m; shr_r := false; shr_s := false |}.
Proof.
  revert m. induction p as [p IH|p IH|]; intros m Hm; cbn [SpecFloat.iter_pos].
  - pose proof (pow2_pos (Z.pos p) ltac:(lia)).
    replace (m * 2 ^ Z.pos p~1) with (2 * ((m * 2 ^ Z.pos p) * 2 ^ Z.pos p)).
    + rewrite shr_1_exact by nia. rewrite IH by nia. by rewrite IH.
    + rewrite Pos2Z.inj_xI.
      replace (2 * Z.pos p + 1) with (1 + Z.pos p + Z.pos p) by lia.
      rewrite !Z.pow_add_r by lia. change (2 ^ 1) with 2. lia.
  - pose proof (pow2_pos (Z.pos p) ltac:(lia)).
    replace (m * 2 ^ Z.pos p~0) with ((m * 2 ^ Z.pos p) * 2 ^ Z.pos p).
    + rewrite IH by nia. by rewrite IH.
    + rewrite Pos2Z.inj_xO. rewrite <- Z.mul_assoc, <- Z.pow_add_r by lia. do 2 f_equal. lia.
  - change (2 ^ 1) with 2. rewrite Z.mul_comm. by apply shr_1_exact.
Qed.

Lemma shr_record_of_loc_m m l : shr_m (shr_record_of_loc m l) = m.
Proof. destruct l as [|[]]; done. Qed.

Lemma shr_fexp_spec m e l :
  0 ≤ m →
  ∃ mrs e', shr_fexp prec emax m e l = (mrs, e')
    ∧ e' = Z.max e (fexp prec emax (Zdigits2 m + e))
    ∧ shr_m mrs = m / 2 ^ (e' - e).
Proof.
  intros Hm. unfold shr_fexp, shr.
  destruct (fexp prec emax (Zdigits2 m + e) - e) as [|p|p] eqn:E.
  - do 2 eexists. split; [done|]. split; [lia|].
    rewrite shr_record_of_loc_m, Z.sub_diag. simpl. by rewrite Z.div_1_r.
  - do 2 eexists. split; [done|]. split; [lia|].
    rewrite iter_shr_m by (by rewrite shr_record_of_loc_m).
    rewrite shr_record_of_loc_m. do 2 f_equal. lia.
  - do 2 eexists. split; [done|]. split; [lia|].
    rewrite shr_record_of_loc_m, Z.sub_diag. simpl. by rewrite Z.div_1_r.
Qed.

Lemma round_nearest_even_bounds m l :
  m ≤ round_nearest_even m l ≤ m + 1.
Proof. destruct l as [|[]]; simpl; try lia. destruct (Z.even m); lia. Qed.

Lemma binary_round_aux_bounds s mx ex lx :
  0 ≤ mx →
  let D := Zdigits2 mx + ex in
  match binary_round_aux prec emax s mx ex lx with
  | S754_nan => False
  | S754_zero s' => s' = s
  | S754_infinity s' => s' = s ∧ emax - prec < Z.max ex (fexp prec emax (D + 1))
  | S754_finite s' m' e' =>
      s' = s ∧ e' ≤ emax - prec
      ∧ e' ≤ Z.max ex (fexp prec emax (D + 1))
      ∧ Zdigits2 (Zpos m') + e' ≤ Z.max (D + 1) (Z.max ex (emin prec emax) + 1)
  end.
Proof.
  intros Hm D. unfold binary_round_aux.
  destruct (shr_fexp_spec mx ex lx Hm) as (mrs1 & E1 & -> & HE1 & Hm1).
  set (m1 := shr_m mrs1) in *.
  assert (HE1ex : 0 ≤ E1 - ex) by lia.
  assert (Hm1nn : 0 ≤ m1).
  { rewrite Hm1. apply Z.div_pos; [done|by apply pow2_pos]. }
  pose proof (Zdigits2_div mx (E1 - ex) Hm HE1ex) as Hd1. rewrite <- Hm1 in Hd1.
  set (m2 := round_nearest_even m1 (loc_of_shr_record mrs1)).
  pose proof (round_nearest_even_bounds m1 (loc_of_shr_record mrs1)) as Hr. fold m2 in Hr.
  assert (Hm2nn : 0 ≤ m2) by lia.
  assert (Hd2 : Zdigits2 m2 ≤ Zdigits2 m1 + 1).
  { etrans; [apply (Zdigits2_mono m2 (m1 + 1)); lia|by apply Zdigits2_succ]. }
  destruct (shr_fexp_spec m2 E1 loc_Exact Hm2nn) as (mrs2 & E2 & -> & HE2 & Hm3).
  set (m3 := shr_m mrs2) in *.
  assert (HE2E1 : 0 ≤ E2 - E1) by lia.
  assert (Hm3nn : 0 ≤ m3).
  { rewrite Hm3. apply Z.div_pos; [done|by apply pow2_pos]. }
  pose proof (Zdigits2_div m2 (E2 - E1) Hm2nn HE2E1) as Hd3. rewrite <- Hm3 in Hd3.
  unfold fexp, emin, prec, emax in *.
  destruct m3 as [|p|p] eqn:E3; [done| |lia].
  destruct (E2 <=? 1024 - 53) eqn:Ele.
  - apply Z.leb_le in Ele. subst D. repeat split; try lia.
  - apply Z.leb_gt in Ele. subst D. split; [done|]. lia.
Qed.

Lemma binary_round_aux_exact s m e k :
  0 ≤ k → bounded prec emax m e = true →
  binary_round_aux prec emax s (Zpos m * 2 ^ k) (e - k) loc_Exact = S754_finite s m e.
Proof.
  intros Hk Hb. unfold bounded, canonical_mantissa in Hb.
  apply andb_true_iff in Hb as [Hc He].
  apply Z.eqb_eq in Hc. apply Z.leb_le in He.
  unfold binary_round_aux.
  assert (H1 : shr_fexp prec emax (Z.pos m * 2 ^ k) (e - k) loc_Exact
               = ({| shr_m := Zpos m; shr_r := false; shr_s := false |}, e)).
  { unfold shr_fexp. rewrite Zdigits2_mul_pow2 by lia.
    replace (Zdigits2 (Z.pos m) + k + (e - k)) with (Z.pos (digits2_pos m) + e) by (simpl; lia).
    rewrite Hc. replace (e - (e - k)) with k by lia.
    unfold shr. destruct k as [|p|p]; [|clear Hk|lia].
    - simpl. rewrite Z.mul_1_r. f_equal. lia.
    - simpl shr_record_of_loc. rewrite iter_shr_exact by lia. f_equal. lia. }
  rewrite H1. simpl loc_of_shr_record. simpl round_nearest_even.
  assert (H2 : shr_fexp prec emax (Z.pos m) e loc_Exact
               = ({| shr_m := Zpos m; shr_r := false; shr_s := false |}, e)).
  { unfold shr_fexp. simpl Zdigits2. rewrite Hc, Z.sub_diag. done. }
  rewrite H2. simpl shr_m. apply Z.leb_le in He. by rewrite He.
Qed.

Lemma Zdigits2_abs m : Zdigits2 m = Zdigits2 (Z.abs m).
Proof. by destruct m. Qed.

Lemma Zdigits2_add a b :
  0 ≤ a → 0 ≤ b → Zdigits2 (a + b) ≤ Z.max (Zdigits2 a) (Zdigits2 b) + 1.
Proof.
  intros Ha Hb. pose proof (Zdigits2_nonneg a). pose proof (Zdigits2_nonneg b).
  apply Zdigits2_le_iff; [lia|lia|].
  rewrite Z.pow_add_r by lia. change (2 ^ 1) with 2.
  pose proof (Zdigits2_lt a Ha). pose proof (Zdigits2_lt b Hb).
  assert (2 ^ Zdigits2 a ≤ 2 ^ Z.max (Zdigits2 a) (Zdigits2 b)) by (apply Z.pow_le_mono_r; lia).
  assert (2 ^ Zdigits2 b ≤ 2 ^ Z.max (Zdigits2 a) (Zdigits2 b)) by (apply Z.pow_le_mono_r; lia).
  lia.
Qed.

Lemma iter_xO m d : Zpos (Pos.iter xO m d) = Zpos m * 2 ^ Zpos d.
Proof.
  induction d as [|d IH] using Pos.peano_ind.
  - simpl. lia.
  - rewrite Pos.iter_succ, Pos2Z.inj_xO, IH, Pos2Z.inj_succ, Z.pow_succ_r by lia. lia.
Qed.

Lemma shl_align_spec mx ex ex' :
  ∃ m' e', shl_align mx ex ex' = (m', e')
    ∧ e' = Z.min ex ex' ∧ Zpos m' = Zpos mx * 2 ^ (ex - e').
Proof.
  unfold shl_align. destruct (ex' - ex) as [|p|p] eqn:E.
  - do 2 eexists. split; [done|]. split; [lia|]. rewrite Z.sub_diag. simpl. lia.
  - do 2 eexists. split; [done|]. split; [lia|]. rewrite Z.sub_diag. simpl. lia.
  - do 2 eexists. split; [done|]. split; [lia|]. rewrite iter_xO. do 2 f_equal. lia.
Qed.

Lemma binary_round_bounds s p e :
  let D := Zdigits2 (Zpos p) + e in
  match binary_round prec emax s p e with
  | S754_nan => False
  | S754_zero s' => s' = s
  | S754_infinity s' => s' = s ∧ emax - prec < Z.max e (fexp prec emax (D + 1))
  | S754_finite s' m' e' =>
      s' = s ∧ e' ≤ emax - prec
      ∧ e' ≤ Z.max e (fexp prec emax (D + 1))
      ∧ Zdigits2 (Zpos m') + e' ≤ Z.max (D + 1) (Z.max e (emin prec emax) + 1)
  end.
Proof.
  intros D. unfold binary_round.
  destruct (shl_align_spec p e (fexp prec emax (Z.pos (digits2_pos p) + e)))
    as (mz & ez & -> & Hez & Hmz).
  pose proof (binary_round_aux_bounds s (Zpos mz) ez loc_Exact ltac:(lia)) as H.
  cbv zeta in H.
  assert (HD : Zdigits2 (Z.pos mz) + ez = D).
  { rewrite Hmz, Zdigits2_mul_pow2 by lia. unfold D. lia. }
  rewrite HD in H.
  unfold fexp, emin, prec, emax in *.
  destruct (binary_round_aux 53 1024 s (Z.pos mz) ez loc_Exact); try done.
  - destruct H as [-> H]. split; [done|lia].
  - destruct H as (-> & ? & ? & ?). repeat split; try done; lia.
Qed.

Lemma binary_round_exact s p :
  Zpos p < 2 ^ 53 →
  ∃ m e, binary_round prec emax s p 0 = S754_finite s m e
    ∧ bounded prec emax m e = true
    ∧ Zpos m = Zpos p * 2 ^ (- e) ∧ -52 ≤ e ≤ 0.
Proof.
  intros Hp. unfold binary_round.
  assert (Hd : 1 ≤ Zdigits2 (Zpos p) ≤ 53).
  { split; [simpl; lia|]. apply Zdigits2_le_iff; lia. }
  destruct (shl_align_spec p 0 (fexp prec emax (Z.pos (digits2_pos p) + 0)))
    as (mz & ez & -> & Hez & Hmz).
  assert (Hez' : ez = Zdigits2 (Zpos p) - 53).
  { rewrite Hez. unfold fexp, emin, prec, emax. simpl Zdigits2 in *. lia. }
  assert (Hb : bounded prec emax mz ez = true).
  { unfold bounded, canonical_mantissa. apply andb_true_iff. split.
    - apply Z.eqb_eq.
      change (Z.pos (digits2_pos mz)) with (Zdigits2 (Zpos mz)).
      rewrite Hmz, Zdigits2_mul_pow2 by lia.
      unfold fexp, emin, prec, emax. lia.
    - apply Z.leb_le. unfold prec, emax. lia. }
  exists mz, ez. split.
  - pose proof (binary_round_aux_exact s mz ez 0 ltac:(lia) Hb) as H.
    rewrite Z.mul_1_r, Z.sub_0_r in H. exact H.
  - split; [done|]. split; [|lia]. by rewrite Hmz, Z.sub_0_l.
Qed.

Lemma float_1 : float_of_Z 1 = S754_finite false 4503599627370496 (-52).
Proof. vm_compute. reflexivity. Qed.

Lemma float_0 : float_of_Z 0 = S754_zero false.
Proof. reflexivity. Qed.

Lemma float_2_53 : float_of_Z (2 ^ 53) = S754_finite false 4503599627370496 1.
Proof. vm_compute. reflexivity. Qed.

Lemma binary_normalize_bounds M e :
  let D := Zdigits2 M + e in
  match binary_normalize prec emax M e false with
  | S754_nan => False
  | S754_zero _ => True
  | S754_infinity _ => emax - prec < Z.max e (fexp prec emax (D + 1))
  | S754_finite s' m' e' =>
      s' = (M <? 0) ∧ e' ≤ Z.max e (fexp prec emax (D + 1))
      ∧ Zdigits2 (Zpos m') + e' ≤ Z.max (D + 1) (Z.max e (emin prec emax) + 1)
  end.
Proof.
  intros D. destruct M as [|p|p]; simpl binary_normalize; [done| |].
  - pose proof (binary_round_bounds false p e) as H. cbv zeta in H.
    destruct (binary_round prec emax false p e); try done.
    + by destruct H.
    + destruct H as (-> & _ & ? & ?). done.
  - pose proof (binary_round_bounds true p e) as H. cbv zeta in H.
    destruct (binary_round prec emax true p e); try done.
    + by destruct H.
    + destruct H as (-> & _ & ? & ?). done.
Qed.

Lemma valid_finite_digits s m e :
  valid_binary prec emax (S754_finite s m e) = true →
  Zdigits2 (Zpos m) ≤ 53 ∧ e ≤ 971.
Proof.
  simpl. unfold bounded, canonical_mantissa. intros Hb.
  apply andb_true_iff in Hb as [Hc He].
  apply Z.eqb_eq in Hc. apply Z.leb_le in He.
  unfold fexp, emin, prec, emax in *. simpl Zdigits2. lia.
Qed.

Lemma sub_one_finite s m e :
  let ez := Z.min (-52) e in
  SFsub prec emax (float_of_Z 1) (S754_finite s m e)
  = binary_normalize prec emax
      (2 ^ (- ez) - cond_Zopp s (Zpos m * 2 ^ (e - ez))) ez false.
Proof.
  intros ez. rewrite float_1. unfold SFsub. fold ez.
  destruct (shl_align_spec 4503599627370496 (-52) ez) as (m1 & e1 & -> & He1 & Hm1).
  destruct (shl_align_spec m e ez) as (m2 & e2 & -> & He2 & Hm2).
  simpl fst. assert (e1 = ez) as -> by lia. assert (e2 = ez) as -> by lia.
  do 2 f_equal.
  - simpl cond_Zopp. rewrite Hm1. change 4503599627370496 with (2 ^ 52).
    rewrite <- Z.pow_add_r by lia. f_equal. lia.
  - by rewrite Hm2.
Qed.

Lemma sub_one_small x :
  valid_binary prec emax x = true →
  SFltb (SFabs x) (float_of_Z (2 ^ 53)) = true →
  small (SFsub prec emax (float_of_Z 1) x).
Proof.
  intros Hv Hlt. rewrite float_2_53 in Hlt.
  destruct x as [s|s| |s m e]; try done.
  destruct (valid_finite_digits s m e Hv) as [Hd He].
    assert (He1 : e ≤ 1).
    { unfold SFltb, SFabs, SFcompare in Hlt.
      destruct (Z.compare_spec e 1); [lia|lia|done]. }
    clear Hlt.
    rewrite sub_one_finite.
    set (ez := Z.min (-52) e).
    set (M := 2 ^ (- ez) - cond_Zopp s (Z.pos m * 2 ^ (e - ez))).
    pose proof (binary_normalize_bounds M ez) as H. cbv zeta in H.
    assert (HD : Zdigits2 M + ez ≤ 55).
    { rewrite Zdigits2_abs.
      assert (H1 : 0 < 2 ^ (- ez)) by (apply pow2_pos; lia).
      assert (H2 : 0 < 2 ^ (e - ez)) by (apply pow2_pos; lia).
      assert (Habs : Z.abs M ≤ 2 ^ (- ez) + Z.pos m * 2 ^ (e - ez)).
      { unfold M. assert (0 ≤ Z.pos m * 2 ^ (e - ez)) by nia.
        destruct s; simpl cond_Zopp; lia. }
      assert (Hm : Zdigits2 (Z.abs M) ≤ Zdigits2 (2 ^ (- ez) + Z.pos m * 2 ^ (e - ez))).
      { apply Zdigits2_mono. lia. }
      pose proof (Zdigits2_add (2 ^ (- ez)) (Z.pos m * 2 ^ (e - ez)) ltac:(lia) ltac:(nia)) as Ha.
      rewrite Zdigits2_mul_pow2 in Ha by lia.
      assert (Hp : Zdigits2 (2 ^ (- ez)) = 1 - ez).
      { rewrite <- (Z.mul_1_l (2 ^ (- ez))), Zdigits2_mul_pow2 by lia. simpl. lia. }
      lia. }
    unfold small.
    destruct (binary_normalize prec emax M ez false); try done;
      unfold fexp, emin, prec, emax in *; lia.
Qed.

Lemma float_of_Z_pos n :
  0 < n < 2 ^ 53 →
  ∃ m e, float_of_Z n = S754_finite false m e
    ∧ bounded prec emax m e = true
    ∧ Zpos m = n * 2 ^ (- e) ∧ -52 ≤ e ≤ 0.
Proof.
  intros [Hn Hlt]. destruct n as [|p|p]; try lia.
  apply (binary_round_exact false p Hlt).
Qed.

Lemma int_to_float_small n :
  0 ≤ n < 2 ^ 53 → int_to_float n = Ok (float_of_Z n).
Proof.
  intros [Hn Hlt]. unfold int_to_float.
  destruct (decide (n = 0)) as [->|Hne]; [done|].
  destruct (float_of_Z_pos n ltac:(lia)) as (m & e & -> & _). done.
Qed.

Lemma py_int_finite (p : float) :
  match p with S754_nan | S754_infinity _ => False | _ => True end →
  ∃ z, py_int (PyFloat p) = Ok z
       ∧ (nonneg p → 0 ≤ z ∧ z = Qfloor (SF2Q p)).
Proof.
  destruct p as [s|s| |s m e]; try done; intros _; simpl.
  - eexists. split; [done|]. intros _. done.
  - eexists. split; [done|]. destruct s; [done|]. intros _. simpl cond_Zopp.
    destruct (0 <=? e) eqn:E.
    + apply Z.leb_le in E. pose proof (pow2_pos e E).
      rewrite Qfloor_Z. split; [nia|done].
    + apply Z.leb_gt in E. pose proof (pow2_pos (- e) ltac:(lia)).
      split; [apply Z.div_pos; lia|].
      simpl. by rewrite Z2Pos.id.
Qed.

Lemma mul_small n r :
  0 ≤ n < 2 ^ 53 → small r →
  match SFmul prec emax (float_of_Z n) r with
  | S754_nan | S754_infinity _ => False
  | _ => True
  end
  ∧ (nonneg r → nonneg (SFmul prec emax (float_of_Z n) r)).
Proof.
  intros [Hn Hlt] Hr.
  destruct (decide (n = 0)) as [->|Hne].
  - rewrite float_0. destruct r as [s|s| |s m e]; try done.
  - destruct (float_of_Z_pos n ltac:(lia)) as (mn & en & -> & Hb & Hmn & Hen).
    destruct r as [sr|sr| |sr mr er]; try done.
    destruct Hr as [Her Hdr].
    unfold SFmul.
    pose proof (binary_round_aux_bounds (xorb false sr) (Z.pos (mn * mr)) (en + er)
                  loc_Exact ltac:(lia)) as H.
    cbv zeta in H.
    assert (Hdn : Zdigits2 (Zpos mn) + en ≤ 53).
    { rewrite Hmn, Zdigits2_mul_pow2 by lia.
      assert (Zdigits2 n ≤ 53) by (apply Zdigits2_le_iff; lia). lia. }
    assert (HD : Zdigits2 (Z.pos (mn * mr)) + (en + er) ≤ 109).
    { rewrite Pos2Z.inj_mul.
      pose proof (Zdigits2_mul (Zpos mn) (Zpos mr) ltac:(lia) ltac:(lia)). lia. }
    unfold fexp, emin, prec, emax in *.
    destruct (binary_round_aux 53 1024 (xorb false sr) (Z.pos (mn * mr)) (en + er) loc_Exact)
      as [s'|s'| |s' m' e']; try done.
    + lia.
    + split; [done|]. destruct H as (-> & _). by destruct sr.
Qed.

Lemma train_size_float (n : nat) (x : float) :
  Z.of_nat n < 2 ^ 53 →
  train_size n (PyFloat x)
  = py_int (PyFloat (SFmul prec emax (float_of_Z (Z.of_nat n))
                       (SFsub prec emax (float_of_Z 1) x))).
Proof.
  intros Hn. unfold train_size, py_sub, py_mul, to_float.
  rewrite (int_to_float_small 1) by lia.
  rewrite (int_to_float_small (Z.of_nat n)) by lia. done.
Qed.

Lemma train_size_int (n : nat) (z : Z) :
  train_size n (PyInt z) = Ok (Z.of_nat n * (1 - z)).
Proof. done. Qed.

Lemma fraction_moderate t : fraction t → moderate t.
Proof.
  destruct t as [z|x]; [done|]. intros (Hv & H0 & H1). split; [done|].
  rewrite float_0 in H0. rewrite float_1 in H1. rewrite float_2_53.
  destruct x as [s|s| |s m e].
  { exfalso. destruct s; discriminate H0. }
  { exfalso. destruct s; [discriminate H0|discriminate H1]. }
  { discriminate H0. }
  destruct s; [discriminate H0|].
  assert (He : e ≤ -52).
  { unfold SFltb, SFcompare in H1.
    destruct (Z.compare_spec e (-52)); [lia|lia|discriminate H1]. }
  unfold SFltb, SFabs, SFcompare.
  destruct (Z.compare_spec e 1); [lia|reflexivity|lia].
Qed.

Lemma sub_one_fraction x :
  fraction (PyFloat x) → nonneg (SFsub prec emax (float_of_Z 1) x).
Proof.
  intros (Hv & H0 & H1).
  rewrite float_0 in H0. rewrite float_1 in H1.
  destruct x as [s|s| |s m e].
  { exfalso. destruct s; discriminate H0. }
  { exfalso. destruct s; [discriminate H0|discriminate H1]. }
  { discriminate H0. }
  destruct s; [discriminate H0|].
  destruct (valid_finite_digits false m e Hv) as [Hd He].
  assert (Hm : e ≤ -52 ∧ Zpos m < 2 ^ (- e)).
  { unfold SFltb, SFcompare in H1.
    destruct (Z.compare_spec e (-52)) as [Heq|Hlt|Hgt]; [| |discriminate H1].
    - split; [clear H1; lia|].
      destruct (Pos.compare_cont Eq m 4503599627370496) eqn:Ec;
        [discriminate H1| |discriminate H1].
      rewrite Pos.compare_cont_spec in Ec.
      destruct (Pos.compare_spec m 4503599627370496) as [Hc|Hc|Hc];
        [discriminate Ec| |discriminate Ec].
      apply Pos2Z.pos_lt_pos in Hc. rewrite Heq. exact Hc.
    - clear H1. split; [lia|].
      pose proof (Zdigits2_lt (Zpos m) ltac:(lia)).
      assert (2 ^ Zdigits2 (Z.pos m) ≤ 2 ^ (- e)) by (apply Z.pow_le_mono_r; lia).
      lia. }
  clear H1.
  destruct Hm as [He52 Hmlt].
  rewrite sub_one_finite. cbv zeta.
  replace (Z.min (-52) e) with e by lia.
  rewrite Z.sub_diag, Z.mul_1_r. simpl cond_Zopp.
  pose proof (binary_normalize_bounds (2 ^ (- e) - Z.pos m) e) as H.
  cbv zeta in H.
  destruct (binary_normalize prec emax (2 ^ (- e) - Z.pos m) e false)
    as [s'|s'| |s' m' e'].
  - exact I.
  - exfalso. unfold fexp, emin, prec, emax in H.
    assert (Hdm : Zdigits2 (2 ^ (- e) - Z.pos m) ≤ - e).
    { apply Zdigits2_le_iff; lia. }
    lia.
  - exact H.
  - destruct H as (-> & _). destruct (2 ^ (- e) - Z.pos m <? 0) eqn:E; [|exact I].
    apply Z.ltb_lt in E. lia.
Qed.

Lemma train_size_moderate (n : nat) t :
  Z.of_nat n < 2 ^ 53 → moderate t → ∃ z, train_size n t = Ok z.
Proof.
  intros Hn Ht. destruct t as [z|x]; [by eexists|].
  destruct Ht as [Hv Hlt].
  rewrite train_size_float by done.
  pose proof (sub_one_small x Hv Hlt) as Hs.
  destruct (mul_small (Z.of_nat n) _ ltac:(lia) Hs) as [Hp _].
  destruct (py_int_finite _ Hp) as (z & Hz & _). eauto.
Qed.

Lemma train_size_fraction (n : nat) x :
  Z.of_nat n < 2 ^ 53 → fraction (PyFloat x) →
  let p := SFmul prec emax (float_of_Z (Z.of_nat n))
             (SFsub prec emax (float_of_Z 1) x) in
  ∃ z, train_size n (PyFloat x) = Ok z ∧ 0 ≤ z ∧ z = Qfloor (SF2Q p).
Proof.
  intros Hn Ht p.
  destruct (fraction_moderate _ Ht) as [Hv Hlt].
  rewrite train_size_float by done. fold p.
  pose proof (sub_one_small x Hv Hlt) as Hs.
  pose proof (sub_one_fraction x Ht) as Hnn.
  destruct (mul_small (Z.of_nat n) _ ltac:(lia) Hs) as [Hp Hpn].
  destruct (py_int_finite _ Hp) as (z & Hz & Hz').
  exists z. split; [exact Hz|]. apply Hz', Hpn, Hnn.
Qed.

Lemma float_trunc_of_Z n :
  0 ≤ n < 2 ^ 53 →
  py_int (PyFloat (SFmul prec emax (float_of_Z n) (float_of_Z 1))) = Ok n.
Proof.
  intros [Hn Hlt]. destruct (decide (n = 0)) as [->|Hne]; [done|].
  destruct (float_of_Z_pos n ltac:(lia)) as (m & e & -> & Hb & Hm & He).
  rewrite float_1. unfold SFmul.
  pose proof (binary_round_aux_exact (xorb false false) m e 52 ltac:(lia) Hb) as H.
  rewrite Pos2Z.inj_mul. change (Z.pos 4503599627370496) with (2 ^ 52).
  replace (e + -52) with (e - 52) by lia. rewrite H.
  simpl. f_equal. destruct (0 <=? e) eqn:E.
  - apply Z.leb_le in E. assert (e = 0) as -> by lia. rewrite Hm. simpl. lia.
  - rewrite Hm. apply Z.div_mul. pose proof (pow2_pos (- e) ltac:(lia)). lia.
Qed.

Lemma train_size_zero (n : nat) t :
  Z.of_nat n < 2 ^ 53 → is_zero t → train_size n t = Ok (Z.of_nat n).
Proof.
  intros Hn Ht. destruct t as [z|x].
  - simpl in Ht. subst z. rewrite train_size_int. f_equal. lia.
  - rewrite train_size_float by done.
    assert (Hx : ∃ s, x = S754_zero s).
    { unfold is_zero in Ht. rewrite float_0 in Ht.
      destruct x as [s|s| |s m e]; [by eexists| | |].
      - destruct s; discriminate Ht.
      - discriminate Ht.
      - destruct s; discriminate Ht. }
    destruct Hx as [s ->].
    assert (Hs : SFsub prec emax (float_of_Z 1) (S754_zero s) = float_of_Z 1)
      by (by rewrite float_1).
    rewrite Hs. apply float_trunc_of_Z. lia.
Qed.

Lemma train_size_raises (n : nat) t e :
  train_size n t = Raise e → e = OverflowError ∨ e = ValueError.
Proof.
  destruct t as [z|x]; [done|].
  unfold train_size, py_sub, py_mul, to_float.
  rewrite (int_to_float_small 1) by lia. cbn [mbind pyresult_bind].
  unfold int_to_float.
  destruct (float_of_Z (Z.of_nat n)) as [s|s| |s m e'];
    cbn [mbind pyresult_bind];
    try (destruct (SFmul _ _ _ _) as [s'|s'| |s' m' e'']; cbn; intros [= <-]; auto).
  intros [= <-]. auto.
Qed.

(** *** The cast of an int64 cell *)

Lemma Qred_inject_Z z : Qred (inject_Z z) = inject_Z z.
Proof.
  unfold Qred, inject_Z.
  pose proof (Z.ggcd_gcd z 1) as Hg. pose proof (Z.ggcd_correct_divisors z 1) as Hd.
  destruct (Z.ggcd z 1) as [g [aa bb]]. simpl in *.
  rewrite Z.gcd_1_r in Hg. subst g. destruct Hd as [-> Hb].
  assert (bb = 1) as -> by lia. f_equal. lia.
Qed.

Lemma SF2Q_exact s m e z :
  e ≤ 0 → Zpos m = z * 2 ^ (- e) →
  (SF2Q (S754_finite s m e) == inject_Z (cond_Zopp s z))%Q.
Proof.
  intros He Hm. unfold SF2Q. pose proof (pow2_pos (- e) ltac:(lia)) as Hp.
  destruct (0 <=? e) eqn:E.
  - apply Z.leb_le in E. assert (e = 0) as -> by lia.
    simpl in Hm. rewrite Z.mul_1_r in Hm. subst z. simpl (2 ^ 0). by rewrite Z.mul_1_r.
  - unfold Qeq. simpl Qnum. simpl Qden. rewrite Z2Pos.id by done.
    destruct s; simpl cond_Zopp; lia.
Qed.

(** Integers below 2**53 in magnitude are doubles. *)
Lemma float64_of_int_exact z : Z.abs z < 2 ^ 53 → float64_of_int z = inject_Z z.
Proof.
  intros Hz. unfold float64_of_int.
  rewrite <- (Qred_inject_Z z). apply Qred_complete.
  destruct z as [|p|p].
  - done.
  - destruct (binary_round_exact false p ltac:(lia)) as (m & e & H & _ & Hm & He).
    unfold float_of_Z. simpl binary_normalize. rewrite H.
    apply (SF2Q_exact false m e (Zpos p)); [lia|done].
  - destruct (binary_round_exact true p ltac:(lia)) as (m & e & H & _ & Hm & He).
    unfold float_of_Z. simpl binary_normalize. rewrite H.
    apply (SF2Q_exact true m e (Zpos p)); [lia|done].
Qed.

(* ===================================================================== *)
(** ** [train_test_split]: what a call does *)
(* ===================================================================== *)

Arguments train_size : simpl never.

Section Split.
Context `{RS : RandomState}.

Lemma clamp_index_le k n : (clamp_index k n ≤ n)%nat.
Proof. unfold clamp_index. destruct (k <? 0) eqn:E; lia. Qed.

Lemma buffer_insert_eq h l b : buffer (<[l := b]> h) l = b.
Proof. unfold buffer. by rewrite lookup_insert_eq. Qed.

Lemma buffer_insert_ne h l l' b : l ≠ l' → buffer (<[l := b]> h) l' = buffer h l'.
Proof. intros. unfold buffer. by rewrite lookup_insert_ne. Qed.

Lemma fresh_loc_ne (h : gmap loc (list row)) l :
  is_Some (h !! l) → fresh (dom h) ≠ l.
Proof.
  intros Hl E. apply (is_fresh (dom h)). rewrite E. by apply elem_of_dom.
Qed.

Lemma take_rest_drop {A} (l : list A) k :
  take (k `max` length l - k) (drop k l) = drop k l.
Proof. apply take_ge. rewrite length_drop. lia. Qed.

Lemma whole_buffer {A} (b : list A) : take (length b - 0) (drop 0 b) = b.
Proof. rewrite Nat.sub_0_r, drop_0. by apply take_ge. Qed.

Lemma drop_all_fmap {A B} (f : A → B) (b : list A) :
  drop (length b) (f <$> b) = [].
Proof. apply drop_ge. by rewrite length_fmap. Qed.

Lemma whole_buffer_fmap {A B} (f : A → B) (b : list A) :
  take (length b - 0) (drop 0 (f <$> b)) = f <$> b.
Proof. rewrite Nat.sub_0_r, drop_0. apply take_ge. by rewrite length_fmap. Qed.

(** A buffer allocated for a copy of the table leaves the table where it
    is. *)
Lemma buffer_alloc (h : gmap loc (list row)) d (f : row → row) :
  buffer (<[fresh (dom h) := f <$> buffer h d]> h) d = buffer h d.
Proof.
  destruct (h !! d) as [b|] eqn:Hd.
  - rewrite buffer_insert_ne by (apply fresh_loc_ne; eauto). done.
  - destruct (decide (fresh (dom h) = d)) as [->|Hne].
    + rewrite buffer_insert_eq. unfold buffer. by rewrite Hd.
    + by rewrite buffer_insert_ne.
Qed.

Lemma buffer_alloc2 (h : gmap loc (list row)) d (f : row → row) (b : list row) :
  length b = length (buffer h d) →
  buffer (<[fresh (dom h) := b]> (<[fresh (dom h) := f <$> buffer h d]> h)) d
  = buffer h d.
Proof.
  intros Hlen. destruct (h !! d) as [b'|] eqn:Hd.
  - rewrite !buffer_insert_ne by (apply fresh_loc_ne; eauto). done.
  - assert (HB : buffer h d = []) by (unfold buffer; by rewrite Hd).
    rewrite HB in Hlen |- *. apply nil_length_inv in Hlen as ->.
    destruct (decide (fresh (dom h) = d)) as [->|Hne].
    + by rewrite buffer_insert_eq.
    + rewrite !buffer_insert_ne by done. exact HB.
Qed.

Lemma astype_float64_length cs (r : row) : length (astype_float64 cs r) = length r.
Proof. apply length_imap. Qed.

Lemma as_matrix_length w df : length (as_matrix w df) = length (table w df).
Proof.
  unfold as_matrix. destruct (is_single_block (columns df)); [done|].
  apply length_fmap.
Qed.

(** The interpreter state a call leaves, whether it returns or raises:
    a refused seed stops the call before the shuffle, every other failure
    comes after it. *)
Lemma train_test_split_final w df test_size seed :
  let M := as_matrix w df in
  let l := fresh (dom (heap w)) in
  (train_test_split df test_size seed w).2
  = if bool_decide (0 ≤ seed ≤ 0xffffffff) then
      {| heap := if is_single_block (columns df)
                 then <[data df := shuffled seed M]> (heap w)
                 else <[l := shuffled seed M]> (<[l := M]> (heap w));
         rng := (shuffle (rk_seed seed) M).2 |}
    else
      {| heap := if is_single_block (columns df) then heap w
                 else <[l := M]> (heap w);
         rng := rng w |}.
Proof.
  intros M l. subst M l. destruct w as [h r].
  unfold train_test_split, mbind, py_bind, values, np_random_seed, as_matrix, table.
  cbn [heap rng].
  set (B := buffer h (data df)). set (l := fresh (dom h)).
  destruct (decide (0 ≤ seed ≤ 0xffffffff)) as [Hseed|Hseed].
  - rewrite !bool_decide_true by done.
    unfold np_random_shuffle, py_lift, getitem, nd_rows, len, shuffled; simpl.
    destruct (is_single_block (columns df)) eqn:Hsb; simpl.
    + fold B. rewrite whole_buffer.
      destruct (shuffle (rk_seed seed) B) as [rows st] eqn:Hs.
      rewrite drop_all, app_nil_r.
      destruct (train_size _ _) as [z|e]; [|reflexivity].
      destruct (length (columns df) =? 0)%nat; reflexivity.
    + rewrite buffer_insert_eq, whole_buffer_fmap.
      destruct (shuffle (rk_seed seed) _) as [rows st] eqn:Hs.
      rewrite drop_all_fmap, app_nil_r.
      destruct (train_size _ _) as [z|e]; [|reflexivity].
      destruct (length (columns df) =? 0)%nat; reflexivity.
  - rewrite !bool_decide_false by done.
    destruct (is_single_block (columns df)); reflexivity.
Qed.
Lemma train_test_split_result w df test_size seed :
  let M := as_matrix w df in
  split_result (train_test_split df test_size seed w)
  = if bool_decide (0 ≤ seed ≤ 0xffffffff) then
      match train_size (length M) test_size with
      | Raise e => Raise e
      | Ok z =>
          if bool_decide (columns df = []) then Raise IndexError
          else Ok (cut_rows (clamp_index z (length M)) (shuffled seed M))
      end
    else Raise ValueError.
Proof.
  intros M. subst M.
  unfold train_test_split, mbind, py_bind, values, np_random_seed, as_matrix, table.
  set (B := buffer (heap w) (data df)).
  destruct (decide (0 ≤ seed ≤ 0xffffffff)) as [Hseed|Hseed];
    [|rewrite !bool_decide_false by done;
      destruct (is_single_block (columns df)); reflexivity].
  rewrite !bool_decide_true by done.
  assert (Hw : (length (columns df) =? 0)%nat = bool_decide (columns df = [])).
  { destruct (columns df); reflexivity. }
  unfold np_random_shuffle, py_lift, getitem, nd_rows, len, shuffled; simpl.
  destruct (is_single_block (columns df)) eqn:Hsb; simpl.
  - fold B. rewrite whole_buffer, Nat.sub_0_r.
    destruct (shuffle (rk_seed seed) B) as [rows st] eqn:Hs. simpl.
    destruct (train_size (length B) test_size) as [z|e]; [|reflexivity].
    rewrite Hw. destruct (bool_decide (columns df = [])); [reflexivity|].
    simpl. unfold cut_rows, nd_read, nd_rows, len. simpl.
    rewrite drop_all, app_nil_r, buffer_insert_eq, !Nat.sub_0_r, drop_0.
    assert (Hlen : length rows = length B).
    { change rows with (rows, st).1. rewrite <- Hs. apply shuffle_length. }
    rewrite <- Hlen, !take_rest_drop. done.
  - rewrite buffer_insert_eq, whole_buffer_fmap, Nat.sub_0_r, length_fmap.
    set (M := astype_float64 (columns df) <$> B).
    destruct (shuffle (rk_seed seed) M) as [rows st] eqn:Hs. simpl.
    destruct (train_size (length B) test_size) as [z|e]; [|reflexivity].
    rewrite Hw. destruct (bool_decide (columns df = [])); [reflexivity|].
    simpl. unfold cut_rows, nd_read, nd_rows, len. simpl.
    assert (HdM : drop (length B) M = []) by apply drop_all_fmap.
    rewrite !HdM, !app_nil_r, !buffer_insert_eq, ?Nat.sub_0_r, !drop_0.
    assert (Hlen : length rows = length B).
    { change rows with (rows, st).1. rewrite <- Hs, shuffle_length. apply length_fmap. }
    rewrite <- Hlen, !take_rest_drop. done.
Qed.

(** The caller's table after a call, whatever the outcome. *)
Lemma train_test_split_table w df test_size seed :
  table (train_test_split df test_size seed w).2 df
  = if is_single_block (columns df) && bool_decide (0 ≤ seed ≤ 0xffffffff)
    then shuffled seed (table w df) else table w df.
Proof.
  rewrite train_test_split_final. unfold as_matrix, table.
  destruct (bool_decide (0 ≤ seed ≤ 0xffffffff)),
           (is_single_block (columns df)); cbn [heap andb].
  - apply buffer_insert_eq.
  - apply buffer_alloc2. by rewrite shuffled_length, length_fmap.
  - done.
  - apply buffer_alloc.
Qed.

(** The outcome of a call is a function of the rows of the table, the
    frame's columns, [test_size] and [seed]: neither the generator's earlier
    state nor the rest of the heap matters. *)
Lemma train_test_split_outcome w1 w2 df test_size seed :
  table w1 df = table w2 df →
  split_result (train_test_split df test_size seed w1)
  = split_result (train_test_split df test_size seed w2).
Proof.
  intros Htab. rewrite !train_test_split_result. unfold as_matrix.
  by rewrite Htab.
Qed.

(** On a frame that is not a single block, a second call in the state the
    first one left returns what the first returned. *)
Lemma train_test_split_repeat w df test_size seed :
  is_single_block (columns df) = false →
  split_result
    (train_test_split df test_size seed (train_test_split df test_size seed w).2)
  = split_result (train_test_split df test_size seed w).
Proof.
  intros Hsb. apply train_test_split_outcome.
  by rewrite train_test_split_table, Hsb.
Qed.

(** A successful call, for a [test_size] whose index is defined. *)
Lemma train_test_split_returns w df test_size seed z :
  train_size (length (table w df)) test_size = Ok z →
  0 ≤ seed ≤ 0xffffffff →
  columns df ≠ [] →
  split_result (train_test_split df test_size seed w)
  = Ok (cut_rows (clamp_index z (length (table w df)))
                 (shuffled seed (as_matrix w df))).
Proof.
  intros Hz Hseed Hcols.
  rewrite train_test_split_result, bool_decide_true, as_matrix_length, Hz by done.
  by rewrite bool_decide_false.
Qed.

(** What a call that returned has returned, whatever [test_size] is. *)
Lemma train_test_split_ok_inv w df test_size seed result :
  split_result (train_test_split df test_size seed w) = Ok result →
  ∃ z, train_size (length (table w df)) test_size = Ok z
     ∧ 0 ≤ seed ≤ 0xffffffff
     ∧ columns df ≠ []
     ∧ result = cut_rows (clamp_index z (length (table w df)))
                         (shuffled seed (as_matrix w df)).
Proof.
  rewrite train_test_split_result, as_matrix_length.
  destruct (decide (0 ≤ seed ≤ 0xffffffff)) as [Hseed|Hseed];
    [rewrite bool_decide_true by done|by rewrite bool_decide_false].
  destruct (train_size _ _) as [z|e]; [|done].
  destruct (decide (columns df = [])) as [Hcols|Hcols];
    [by rewrite bool_decide_true|rewrite bool_decide_false by done].
  intros [= <-]. by exists z.
Qed.

Lemma fraction_float t : fraction t → ∃ x, t = PyFloat x.
Proof. destruct t as [z|x]; [done|]. eauto. Qed.

(** *** The labels under the cast to float64 *)

Lemma last_imap {A B} (f : nat → A → B) (l : list A) :
  last (imap f l) = f (pred (length l)) <$> last l.
Proof. by rewrite !last_lookup, length_imap, list_lookup_imap. Qed.

Lemma float64_of_int_01 : float64_of_int 0 = 0%Q ∧ float64_of_int 1 = 1%Q.
Proof. split; vm_compute; reflexivity. Qed.

Lemma binary_Qeq (x y : Q) : (x == y)%Q → binary y → binary x.
Proof. unfold binary. intros -> H. exact H. Qed.

Lemma astype_label cs (r : row) :
  binary (label_of r) → (label_of (astype_float64 cs r) == label_of r)%Q.
Proof.
  unfold label_of, astype_float64. rewrite last_imap.
  destruct (last r) as [x|]; simpl; [|done].
  intros Hx. destruct (cs !! pred (length r)) as [[name []]|]; try done.
  destruct float64_of_int_01 as [H0 H1].
  destruct Hx as [Hx|Hx]; rewrite (Qfloor_comp _ _ Hx), Hx.
  - change (Qfloor 0) with 0. by rewrite H0.
  - change (Qfloor 1) with 1. by rewrite H1.
Qed.

Lemma as_matrix_labels w df :
  Forall (λ r, binary (label_of r)) (table w df) →
  Forall2 Qeq (label_of <$> as_matrix w df) (label_of <$> table w df).
Proof.
  intros Hbin. unfold as_matrix.
  destruct (is_single_block (columns df)).
  - apply Forall2_fmap, Forall_Forall2_diag, Forall_true. done.
  - rewrite <- list_fmap_compose. apply Forall2_fmap, Forall_Forall2_diag.
    eapply Forall_impl; [exact Hbin|]. intros r Hr. by apply astype_label.
Qed.

Lemma as_matrix_binary w df :
  Forall (λ r, binary (label_of r)) (table w df) →
  Forall (λ r, binary (label_of r)) (as_matrix w df).
Proof.
  intros Hbin. unfold as_matrix.
  destruct (is_single_block (columns df)); [done|].
  apply Forall_fmap. eapply Forall_impl; [exact Hbin|].
  intros r Hr. simpl. eapply binary_Qeq; [by apply astype_label|done].
Qed.

(** *** Features and labels put back together *)

Lemma row_recombine (r : row) : r ≠ [] → features_row r ++ [label_of r] = r.
Proof.
  intros Hr. unfold features_row, label_of.
  destruct (exists_last Hr) as (r' & x & ->).
  rewrite last_snoc, length_app. simpl.
  replace (length r' + 1 - 1)%nat with (length r') by lia.
  by rewrite take_app_length.
Qed.

Lemma rows_recombine (rows : list row) :
  Forall (λ r, r ≠ []) rows →
  with_labels (features_row <$> rows) (label_of <$> rows) = rows.
Proof.
  unfold with_labels.
  induction 1 as [|r rows Hr _ IH]; [done|].
  rewrite !fmap_cons. cbn [zip_with]. by rewrite IH, row_recombine.
Qed.

Lemma as_matrix_nonempty w df :
  columns df ≠ [] →
  Forall (λ r, length r = length (columns df)) (table w df) →
  Forall (λ r, r ≠ []) (as_matrix w df).
Proof.
  intros Hcols Hrect.
  assert (Hn : Forall (λ r : row, r ≠ []) (table w df)).
  { eapply Forall_impl; [exact Hrect|]. intros r Hr ->.
    destruct (columns df); [done|discriminate Hr]. }
  unfold as_matrix. destruct (is_single_block (columns df)); [done|].
  apply Forall_fmap. eapply Forall_impl; [exact Hn|].
  intros r Hr. simpl. intros E. apply Hr.
  apply (f_equal length) in E. rewrite astype_float64_length in E.
  by apply nil_length_inv.
Qed.

(** *** Claims about [train_test_split] *)

(** C1, as amended.  Two calls with the same seed and [test_size] on a
    table holding the same rows in the same order return the same
    train/test assignment (the same features and labels in the same order),
    or fail alike, whatever the state of the generator and of the rest of
    the heap at each call.  A call repeated on the same frame does so when
    the frame's columns are not all of one dtype: then the first call left
    the table as it was. *)
Theorem train_test_split_deterministic (w w1 w2 : world) df test_size seed :
  (table w1 df = table w2 df →
   split_result (train_test_split df test_size seed w1)
   = split_result (train_test_split df test_size seed w2))
  ∧ (is_single_block (columns df) = false →
     split_result
       (train_test_split df test_size seed (train_test_split df test_size seed w).2)
     = split_result (train_test_split df test_size seed w)).
Proof.
  split; [apply train_test_split_outcome|apply train_test_split_repeat].
Qed.

(** C2, as amended. After a call the caller's table holds the rows it held
    before, in the same order, unless the frame is a single block (all
    columns of one dtype) and the seed is accepted: then [.values] was the
    table's own storage and the table holds its rows in the shuffled
    order.  In both cases it holds the same rows up to order. *)
Theorem train_test_split_table_after (w : world) df test_size seed :
  let w' := (train_test_split df test_size seed w).2 in
  table w' df
  = (if is_single_block (columns df) && bool_decide (0 ≤ seed ≤ 0xffffffff)
     then shuffled seed (table w df) else table w df)
  ∧ table w' df ≡ₚ table w df.
Proof.
  intros w'. subst w'. rewrite train_test_split_table. split; [done|].
  destruct (_ && _); [apply shuffled_perm|done].
Qed.

(** C5. For a [test_size] in (0,1) the two partitions are disjoint and
    exhaustive: the train and test row counts add up to the table's; in
    terms of the original row positions, the train rows are the rows at the
    first [k] entries of the shuffle order and the test rows those at the
    remaining entries ([k] being the returned index [train_size], clamped
    to the table), the shuffle order lists every position once, and no
    position is in both parts.  The rows are those of
    [transaction_df.values]. *)
Theorem train_test_split_partition (w : world) df test_size seed :
  fraction test_size →
  Z.of_nat (length (table w df)) < 2 ^ 53 →
  0 ≤ seed ≤ 0xffffffff →
  columns df ≠ [] →
  let rows := as_matrix w df in
  let n := length (table w df) in
  let order := shuffle_order seed n in
  let row_at := λ i, default [] (rows !! i) in
  ∃ z train_features train_labels test_features test_labels,
    train_size n test_size = Ok z
    ∧ let k := clamp_index z n in
      split_result (train_test_split df test_size seed w)
      = Ok ((matrix train_features, vector train_labels),
            (matrix test_features, vector test_labels))
      ∧ (length train_features + length test_features = n)%nat
      ∧ (length train_labels + length test_labels = n)%nat
      ∧ train_features = (features_row ∘ row_at) <$> take k order
      ∧ train_labels = (label_of ∘ row_at) <$> take k order
      ∧ test_features = (features_row ∘ row_at) <$> drop k order
      ∧ test_labels = (label_of ∘ row_at) <$> drop k order
      ∧ order ≡ₚ seq 0 n
      ∧ (∀ i, i ∈ take k order → i ∉ drop k order).
Proof.
  intros Hts Hn Hseed Hcols rows n order row_at.
  destruct (train_size_moderate n test_size Hn (fraction_moderate _ Hts)) as [z Hz].
  exists z. do 4 eexists. split; [exact Hz|]. intros k.
  split; [by apply train_test_split_returns|].
  fold rows n k. rewrite (shuffled_by_order seed rows).
  replace (length rows) with n by (symmetry; apply as_matrix_length).
  fold order row_at.
  rewrite <- !fmap_take, <- !fmap_drop, <- !list_fmap_compose.
  rewrite !length_fmap, !length_take, !length_drop.
  assert (Hlen : length order = n).
  { unfold order. rewrite shuffle_order_perm. apply length_seq. }
  repeat split; try done; try lia.
  - apply shuffle_order_perm.
  - pose proof (shuffle_order_NoDup seed n) as Hnd. fold order in Hnd.
    rewrite <- (take_drop k) in Hnd.
    apply NoDup_app in Hnd as (_ & Hdisj & _). exact Hdisj.
Qed.

(** C6, as amended.  For a [test_size] in (0,1) the shuffled table is cut
    at [int(total_rows * (1 - test_size))], where difference and product
    are those of double precision: the index is the integer part of the
    rounded product (never negative, and cut down to the number of rows).
    The rows before the index are the training partition and the rows from
    it on the test partition; in each, every row is its feature row
    followed by its label, in the same order.  With 100 rows and
    [test_size = 0.3] that is 70 training rows and 30 test rows; with 90
    rows it is 62 and 28. *)
Theorem train_test_split_cut (w : world) df (x : float) seed :
  fraction (PyFloat x) →
  Z.of_nat (length (table w df)) < 2 ^ 53 →
  0 ≤ seed ≤ 0xffffffff →
  columns df ≠ [] →
  Forall (λ r, length r = length (columns df)) (table w df) →
  let s := shuffled seed (as_matrix w df) in
  let n := length (table w df) in
  let product := SFmul prec emax (float_of_Z (Z.of_nat n))
                   (SFsub prec emax (float_of_Z 1) x) in
  let k := Z.to_nat (Z.min (Qfloor (SF2Q product)) (Z.of_nat n)) in
  ∃ train_features train_labels test_features test_labels,
    split_result (train_test_split df (PyFloat x) seed w)
    = Ok ((matrix train_features, vector train_labels),
          (matrix test_features, vector test_labels))
    ∧ 0 ≤ Qfloor (SF2Q product)
    ∧ length train_features = k ∧ length train_labels = k
    ∧ length test_features = (n - k)%nat ∧ length test_labels = (n - k)%nat
    ∧ with_labels train_features train_labels = take k s
    ∧ with_labels test_features test_labels = drop k s
    ∧ (n = 100%nat → x = decimal 3 10 →
       length train_features = 70%nat ∧ length test_features = 30%nat)
    ∧ (n = 90%nat → x = decimal 3 10 →
       length train_features = 62%nat ∧ length test_features = 28%nat).
Proof.
  intros Hts Hn Hseed Hcols Hrect s n product k.
  destruct (train_size_fraction n x Hn Hts) as (z & Hz & Hz0 & Hzp).
  fold n product in Hzp.
  assert (Hk : clamp_index z n = k).
  { unfold clamp_index, k. rewrite <- Hzp.
    destruct (z <? 0) eqn:E; [apply Z.ltb_lt in E; lia|done]. }
  do 4 eexists.
  split; [by apply train_test_split_returns|].
  fold n s. rewrite Hk.
  assert (Hs : length s = n).
  { unfold s. by rewrite shuffled_length, as_matrix_length. }
  assert (Hkn : (k ≤ n)%nat) by (unfold k; lia).
  assert (Hne : Forall (λ r : row, r ≠ []) s).
  { unfold s. rewrite shuffled_perm. by apply as_matrix_nonempty. }
  rewrite !length_fmap, length_take, length_drop, Hs.
  rewrite !rows_recombine by (by apply Forall_take || by apply Forall_drop).
  split; [lia|]. do 4 (split; [lia|]). do 2 (split; [done|]).
  split; intros Hn' ->.
  - assert (k = 70%nat) as ->; [|lia].
    unfold k, product. fold n. rewrite Hn'. vm_compute. reflexivity.
  - assert (k = 62%nat) as ->; [|lia].
    unfold k, product. fold n. rewrite Hn'. vm_compute. reflexivity.
Qed.

(** C7. When every label of the table is 0 or 1, so is every element of
    the train and of the test label sequence: of whatever a call returns,
    for any [test_size] and seed, and a call with a [test_size] of
    ordinary size, an accepted seed and a frame with a column does
    return. *)
Theorem train_test_split_labels_binary (w : world) df test_size seed :
  Forall (λ r, binary (label_of r)) (table w df) →
  (∀ result,
     split_result (train_test_split df test_size seed w) = Ok result →
     ∃ train_features train_labels test_features test_labels,
       result = ((matrix train_features, vector train_labels),
                 (matrix test_features, vector test_labels))
       ∧ Forall binary train_labels
       ∧ Forall binary test_labels)
  ∧ (moderate test_size →
     Z.of_nat (length (table w df)) < 2 ^ 53 →
     0 ≤ seed ≤ 0xffffffff →
     columns df ≠ [] →
     ∃ train_features train_labels test_features test_labels,
       split_result (train_test_split df test_size seed w)
       = Ok ((matrix train_features, vector train_labels),
             (matrix test_features, vector test_labels))
       ∧ Forall binary train_labels
       ∧ Forall binary test_labels).
Proof.
  intros Hbin.
  assert (Hs : Forall (λ r, binary (label_of r)) (shuffled seed (as_matrix w df))).
  { rewrite shuffled_perm. by apply as_matrix_binary. }
  split.
  - intros result Hrun.
    apply train_test_split_ok_inv in Hrun as (z & _ & _ & _ & ->).
    do 4 eexists. split; [reflexivity|].
    split; apply Forall_fmap; [by apply Forall_take|by apply Forall_drop].
  - intros Hts Hn Hseed Hcols.
    destruct (train_size_moderate _ test_size Hn Hts) as [z Hz].
    do 4 eexists.
    split; [by apply (train_test_split_returns w df test_size seed z)|].
    split; apply Forall_fmap; [by apply Forall_take|by apply Forall_drop].
Qed.

(** C10. [test_size = 0] (the int or the float) is not refused: the call
    returns, the test partition is empty and the training partition is the
    whole shuffled table, that is every row of the table. *)
Theorem train_test_split_test_size_zero (w : world) df test_size seed :
  is_zero test_size →
  Z.of_nat (length (table w df)) < 2 ^ 53 →
  0 ≤ seed ≤ 0xffffffff →
  columns df ≠ [] →
  let s := shuffled seed (as_matrix w df) in
  split_result (train_test_split df test_size seed w)
  = Ok ((matrix (features_row <$> s), vector (label_of <$> s)),
        (matrix [], vector []))
  ∧ s ≡ₚ as_matrix w df
  ∧ length s = length (table w df).
Proof.
  intros Hz Hn Hseed Hcols s.
  assert (Hs : length s = length (table w df)).
  { unfold s. by rewrite shuffled_length, as_matrix_length. }
  split; [|split; [apply shuffled_perm|done]].
  rewrite (train_test_split_returns w df test_size seed _
             (train_size_zero _ _ Hn Hz) Hseed Hcols).
  fold s. unfold clamp_index.
  destruct (Z.of_nat (length (table w df)) <? 0) eqn:E; [apply Z.ltb_lt in E; lia|].
  rewrite Z.min_id, Nat2Z.id, <- Hs. unfold cut_rows.
  by rewrite firstn_all, drop_all.
Qed.

End Split.

(* ===================================================================== *)
(** ** [train_test_split] on the sample tables *)
(* ===================================================================== *)

(** The split of the five sample rows with the defaults [test_size = 0.3],
    [seed = 1]: three training rows, two test rows. *)
Example sample_split :
  split_result (train_test_split mixed_frame default_test_size 1 sample_world)
  = Ok ((matrix (Qrow <$> [[30]; [20]; [50]]), vector (inject_Z <$> [0; 1; 1])),
        (matrix (Qrow <$> [[10]; [40]]), vector (inject_Z <$> [0; 0]))).
Proof. vm_compute. reflexivity. Qed.

(** The float-only frame gives the same split, and is itself shuffled. *)
Example sample_split_float_frame :
  split_result (train_test_split float_frame default_test_size 1 sample_world)
  = Ok ((matrix (Qrow <$> [[30]; [20]; [50]]), vector (inject_Z <$> [0; 1; 1])),
        (matrix (Qrow <$> [[10]; [40]]), vector (inject_Z <$> [0; 0]))).
Proof. vm_compute. reflexivity. Qed.

(** One hundred rows with [test_size = 0.3]: 70 and 30. *)
Example hundred_split :
  ∃ train_features train_labels test_features test_labels,
    split_result (train_test_split mixed_frame default_test_size 1 hundred_world)
    = Ok ((matrix train_features, vector train_labels),
          (matrix test_features, vector test_labels))
    ∧ length train_features = 70%nat ∧ length train_labels = 70%nat
    ∧ length test_features = 30%nat ∧ length test_labels = 30%nat.
Proof. do 4 eexists. split; [vm_compute; reflexivity|]. done. Qed.

(** A seed NumPy refuses, and a frame without columns. *)
Example negative_seed :
  split_result (train_test_split mixed_frame default_test_size (-1) sample_world)
  = Raise ValueError.
Proof. vm_compute. reflexivity. Qed.

Example no_columns :
  split_result
    (train_test_split {| columns := []; data := 7%nat |} default_test_size 1
       sample_world)
  = Raise IndexError.
Proof. vm_compute. reflexivity. Qed.

(** Out-of-range fractions go through the same slicing: a negative
    [train_size] counts from the end. *)
Example test_size_above_one :
  split_result (train_test_split mixed_frame (PyFloat (decimal 15 10)) 1 sample_world)
  = Ok ((matrix (Qrow <$> [[30]; [20]; [50]]), vector (inject_Z <$> [0; 1; 1])),
        (matrix (Qrow <$> [[10]; [40]]), vector (inject_Z <$> [0; 0]))).
Proof. vm_compute. reflexivity. Qed.

(** A [test_size] beyond the doubles' range stops the call with
    OverflowError, after the shuffle. *)
Example test_size_huge :
  split_result
    (train_test_split float_frame (PyFloat (float_of_Z (10 ^ 308))) 1 sample_world)
  = Raise OverflowError
  ∧ table (train_test_split float_frame (PyFloat (float_of_Z (10 ^ 308))) 1
             sample_world).2 float_frame
    = Qrow <$> [[30; 0]; [20; 1]; [50; 1]; [10; 0]; [40; 0]].
Proof. split; vm_compute; reflexivity. Qed.

(** An int64 cell that is not a double comes back changed. *)
Example wide_split :
  split_result (train_test_split mixed_frame (PyInt 0) 1 wide_world)
  = Ok ((matrix [Qrow [1]], vector [inject_Z (2 ^ 53)]), (matrix [], vector [])).
Proof. vm_compute. reflexivity. Qed.

(** C1, the claim as stated fails: on a frame of float columns only, the
    same call repeated on the same table returns another assignment, the
    first call having left the table shuffled. *)
Lemma train_test_split_second_call_differs :
  split_result (train_test_split float_frame default_test_size 1 sample_world)
  = Ok ((matrix (Qrow <$> [[30]; [20]; [50]]), vector (inject_Z <$> [0; 1; 1])),
        (matrix (Qrow <$> [[10]; [40]]), vector (inject_Z <$> [0; 0])))
  ∧ split_result
      (train_test_split float_frame default_test_size 1
         (train_test_split float_frame default_test_size 1 sample_world).2)
    = Ok ((matrix (Qrow <$> [[50]; [20]; [40]]), vector (inject_Z <$> [1; 1; 0])),
          (matrix (Qrow <$> [[30]; [10]]), vector (inject_Z <$> [0; 0])))
  ∧ split_result
      (train_test_split float_frame default_test_size 1
         (train_test_split float_frame default_test_size 1 sample_world).2)
    ≠ split_result (train_test_split float_frame default_test_size 1 sample_world).
Proof.
  assert (H1 : split_result
                 (train_test_split float_frame default_test_size 1 sample_world)
               = Ok ((matrix (Qrow <$> [[30]; [20]; [50]]),
                      vector (inject_Z <$> [0; 1; 1])),
                     (matrix (Qrow <$> [[10]; [40]]), vector (inject_Z <$> [0; 0]))))
    by (vm_compute; reflexivity).
  assert (H2 : split_result
                 (train_test_split float_frame default_test_size 1
                    (train_test_split float_frame default_test_size 1 sample_world).2)
               = Ok ((matrix (Qrow <$> [[50]; [20]; [40]]),
                      vector (inject_Z <$> [1; 1; 0])),
                     (matrix (Qrow <$> [[30]; [10]]), vector (inject_Z <$> [0; 0]))))
    by (vm_compute; reflexivity).
  split; [exact H1|]. split; [exact H2|].
  rewrite H1, H2. intros H. vm_compute in H. discriminate H.
Qed.

Lemma train_test_split_deterministic_witness :
  split_result (train_test_split mixed_frame default_test_size 1 sample_world)
  = split_result (train_test_split mixed_frame default_test_size 1 busy_world)
  ∧ split_result
      (train_test_split mixed_frame default_test_size 1
         (train_test_split mixed_frame default_test_size 1 sample_world).2)
    = split_result (train_test_split mixed_frame default_test_size 1 sample_world).
Proof.
  destruct (train_test_split_deterministic sample_world sample_world busy_world
              mixed_frame default_test_size 1) as [H1 H2].
  split; [apply H1; vm_compute; reflexivity|apply H2; reflexivity].
Defined.

(** C2, the claim as stated fails: a frame of float columns only is left
    holding its rows in the shuffled order. *)
Lemma train_test_split_mutates_float_frame :
  table (train_test_split float_frame default_test_size 1 sample_world).2 float_frame
  = Qrow <$> [[30; 0]; [20; 1]; [50; 1]; [10; 0]; [40; 0]]
  ∧ table (train_test_split float_frame default_test_size 1 sample_world).2 float_frame
    ≠ table sample_world float_frame.
Proof.
  split; [vm_compute; reflexivity|].
  intros H. vm_compute in H. discriminate H.
Qed.

Lemma default_test_size_fraction : fraction default_test_size.
Proof. repeat split; vm_compute; reflexivity. Defined.

Lemma default_test_size_moderate : moderate default_test_size.
Proof. split; vm_compute; reflexivity. Defined.

Lemma sample_table_small : Z.of_nat (length (table sample_world mixed_frame)) < 2 ^ 53.
Proof. vm_compute. reflexivity. Defined.

Lemma train_test_split_partition_witness :
  ∃ train_features train_labels test_features test_labels,
    split_result (train_test_split mixed_frame default_test_size 1 sample_world)
    = Ok ((matrix train_features, vector train_labels),
          (matrix test_features, vector test_labels))
    ∧ (length train_features + length test_features = 5)%nat
    ∧ (∀ i, i ∈ take 3 (shuffle_order 1 5) → i ∉ drop 3 (shuffle_order 1 5)).
Proof.
  destruct (train_test_split_partition sample_world mixed_frame default_test_size 1)
    as (z & tf & tl & sf & sl & Hz & Hrun & Hlen & _ & _ & _ & _ & _ & _ & Hdisj).
  - exact default_test_size_fraction.
  - exact sample_table_small.
  - lia.
  - discriminate.
  - exists tf, tl, sf, sl. split; [exact Hrun|]. split; [exact Hlen|].
    assert (Hz3 : z = 3).
    { assert (E : Ok z = train_size 5 default_test_size) by (symmetry; exact Hz).
      vm_compute in E. by injection E. }
    rewrite Hz3 in Hdisj. exact Hdisj.
Defined.

(** C6, the claim as stated fails: ninety rows with [test_size = 0.3] are
    cut at 62, while [floor(90 * (1 - 0.3))] is 63, for the fraction 3/10
    and for the double nearest to it alike. *)
Lemma train_test_split_cut_90_rows :
  (∃ train_features train_labels test_features test_labels,
     split_result (train_test_split mixed_frame default_test_size 1 ninety_world)
     = Ok ((matrix train_features, vector train_labels),
           (matrix test_features, vector test_labels))
     ∧ length train_features = 62%nat ∧ length test_features = 28%nat)
  ∧ Qfloor (inject_Z 90 * (1 - (3 # 10))) = 63
  ∧ Qfloor (inject_Z 90 * (1 - SF2Q (decimal 3 10))) = 63.
Proof.
  split; [|split; vm_compute; reflexivity].
  do 4 eexists. split; [vm_compute; reflexivity|]. split; reflexivity.
Qed.

Lemma hundred_table_rect :
  Forall (λ r : row, length r = length (columns mixed_frame))
    (table hundred_world mixed_frame).
Proof.
  change (table hundred_world mixed_frame) with (numbered_rows 100).
  unfold numbered_rows. apply Forall_fmap, Forall_true. intros i. reflexivity.
Defined.

Lemma train_test_split_cut_witness :
  ∃ train_features train_labels test_features test_labels,
    split_result (train_test_split mixed_frame default_test_size 1 hundred_world)
    = Ok ((matrix train_features, vector train_labels),
          (matrix test_features, vector test_labels))
    ∧ length train_features = 70%nat ∧ length test_features = 30%nat
    ∧ with_labels train_features train_labels
      = take 70 (shuffled 1 (as_matrix hundred_world mixed_frame)).
Proof.
  destruct (train_test_split_cut hundred_world mixed_frame (decimal 3 10) 1)
    as (tf & tl & sf & sl & Hrun & _ & Hk & _ & _ & _ & Htrain & _ & H100 & _).
  - exact default_test_size_fraction.
  - vm_compute. reflexivity.
  - lia.
  - discriminate.
  - exact hundred_table_rect.
  - exists tf, tl, sf, sl. split; [exact Hrun|].
    destruct H100 as [H70 H30]; [vm_compute; reflexivity|reflexivity|].
    split; [exact H70|]. split; [exact H30|].
    rewrite Htrain, <- Hk, H70. reflexivity.
Defined.

Lemma sample_labels_binary :
  Forall (λ r, binary (label_of r)) (table sample_world mixed_frame).
Proof.
  change (table sample_world mixed_frame) with sample_rows.
  unfold sample_rows, binary.
  repeat constructor; (by left) || (by right).
Defined.

Lemma train_test_split_labels_binary_witness :
  ∃ train_features train_labels test_features test_labels,
    split_result (train_test_split mixed_frame default_test_size 1 sample_world)
    = Ok ((matrix train_features, vector train_labels),
          (matrix test_features, vector test_labels))
    ∧ Forall binary train_labels
    ∧ Forall binary test_labels.
Proof.
  destruct (train_test_split_labels_binary sample_world mixed_frame
              default_test_size 1 sample_labels_binary) as [_ Hreturns].
  apply Hreturns.
  - exact default_test_size_moderate.
  - exact sample_table_small.
  - lia.
  - discriminate.
Defined.

Lemma train_test_split_test_size_zero_witness :
  split_result (train_test_split mixed_frame (PyFloat (float_of_Z 0)) 1 sample_world)
  = Ok ((matrix (features_row <$> shuffled 1 (as_matrix sample_world mixed_frame)),
         vector (label_of <$> shuffled 1 (as_matrix sample_world mixed_frame))),
        (matrix [], vector []))
  ∧ shuffled 1 (as_matrix sample_world mixed_frame)
    ≡ₚ as_matrix sample_world mixed_frame
  ∧ length (shuffled 1 (as_matrix sample_world mixed_frame))
    = length (table sample_world mixed_frame).
Proof.
  apply (train_test_split_test_size_zero sample_world mixed_frame
           (PyFloat (float_of_Z 0)) 1).
  - reflexivity.
  - exact sample_table_small.
  - lia.
  - discriminate.
Defined.

(* ===================================================================== *)
(** ** [fraudulent_percentage] *)
(* ===================================================================== *)

Section FraudRatio.
Context `{RS : RandomState}.

Lemma count_true_cons b mask :
  count_true (b :: mask) = (if b then 1 else 0) + count_true mask.
Proof.
  unfold count_true. rewrite filter_cons.
  destruct b; case_decide; try done; simpl; lia.
Qed.

Lemma count_true_class c (rows : list row) :
  count_true ((λ v, Qeq_bool v 1) <$> ((λ r : row, default 0%Q (r !! c)) <$> rows))
  = Z.of_nat (count_fraud c rows).
Proof.
  induction rows as [|r rows IH]; [done|].
  rewrite !fmap_cons, count_true_cons, IH. simpl.
  destruct (Qeq_bool _ _); lia.
Qed.

Lemma count_fraud_le c rows : (count_fraud c rows ≤ length rows)%nat.
Proof.
  induction rows as [|r rows IH]; simpl; [lia|].
  destruct (Qeq_bool _ _); lia.
Qed.

Lemma round_half_even_Z (x : Q) (k : Z) : (x == inject_Z k)%Q → round_half_even x = k.
Proof.
  intros Hx. unfold round_half_even.
  assert (Hf : Qfloor x = k).
  { rewrite (Qfloor_comp x (inject_Z k) Hx). apply Qfloor_Z. }
  rewrite Hf.
  assert ((x - inject_Z k ?= 1 # 2) = Lt)%Q as ->; [|done].
  apply -> Qlt_alt. lra.
Qed.

(** What the call does: no exception on a non-empty table with a Class
    column, ZeroDivisionError on an empty one, KeyError without the
    column; the interpreter state is untouched. *)
Lemma fraudulent_percentage_run (w : world) df :
  fraudulent_percentage df w
  = match column_index "Class" (columns df) with
    | None => (Raise KeyError, w)
    | Some c =>
        if decide (table w df = []) then (Raise ZeroDivisionError, w)
        else (Ok (inject_Z (Z.of_nat (count_fraud c (table w df)))
                  / inject_Z (Z.of_nat (length (table w df))))%Q, w)
    end.
Proof.
  unfold fraudulent_percentage, mbind, py_bind, getitem_column, shape0, table.
  destruct (column_index "Class" (columns df)) as [c|]; [|done].
  rewrite count_true_class. unfold py_truediv.
  destruct (buffer (heap w) (data df)) as [|r rows] eqn:Hb.
  - by rewrite decide_True.
  - rewrite decide_False by done.
    destruct (Z.of_nat (length (r :: rows)) =? 0) eqn:E; [|done].
    apply Z.eqb_eq in E. simpl in E. lia.
Qed.


End FraudRatio.

Example fraudulent_percentage_sample :
  (fraudulent_percentage mixed_frame sample_world).1 = Ok (2 # 5).
Proof. vm_compute. reflexivity. Qed.

Example fraudulent_percentage_empty :
  (fraudulent_percentage {| columns := columns mixed_frame; data := 0%nat |}
     sample_world).1 = Raise ZeroDivisionError.
Proof. vm_compute. reflexivity. Qed.


(* ===================================================================== *)
(** ** [evaluate] *)
(* ===================================================================== *)

Lemma np_sum_cons b a : np_sum (b :: a) = (if b then 1 else 0) + np_sum a.
Proof.
  unfold np_sum. rewrite filter_cons.
  destruct b; case_decide; try done; simpl; lia.
Qed.

Lemma np_sum_nonneg a : 0 ≤ np_sum a.
Proof. unfold np_sum. lia. Qed.

Lemma one_minus_length a : length (one_minus a) = length a.
Proof. apply length_fmap. Qed.

Lemma np_logical_and_same_length a b :
  length a = length b →
  np_logical_and a b = Ok (zip_with (λ x y, truthy x && truthy y) a b).
Proof. intros H. unfold np_logical_and. by rewrite H, Nat.eqb_refl. Qed.

(** With as many predictions as labels nothing raises, with or without
    [verbose], and the dictionary is built from the four elementwise
    conjunctions. *)
Lemma evaluate_run predict test_features test_labels verbose :
  let test_preds := test_preds_of predict test_features in
  length test_preds = length test_labels →
  let both a b := np_sum (zip_with (λ x y, truthy x && truthy y) a b) in
  let tp := both test_labels test_preds in
  let fp := both (one_minus test_labels) test_preds in
  let tn := both (one_minus test_labels) (one_minus test_preds) in
  let fn := both test_labels (one_minus test_preds) in
  evaluate predict test_features test_labels verbose
  = Ok {| TP := tp; FP := fp; FN := fn; TN := tn;
          Precision := np_true_divide tp (tp + fp);
          Recall := np_true_divide tp (tp + fn);
          Accuracy := np_true_divide (tp + tn) (tp + fp + tn + fn) |}.
Proof.
  intros test_preds Hlen both tp fp tn fn. unfold evaluate. fold test_preds.
  rewrite !np_logical_and_same_length by (by rewrite ?one_minus_length).
  unfold pd_crosstab. rewrite Hlen, Nat.eqb_refl.
  destruct verbose; reflexivity.
Qed.

Lemma Qeq_bool_true (a b : Q) : (a == b)%Q → Qeq_bool a b = true.
Proof. apply Qeq_bool_iff. Qed.

Lemma Qeq_bool_false (a b : Q) : ¬ (a == b)%Q → Qeq_bool a b = false.
Proof.
  intros Hne. destruct (Qeq_bool a b) eqn:E; [|done].
  apply Qeq_bool_iff in E. contradiction.
Qed.

(** On a binary value, [1 - x] is the negation and truth is equality
    with 1. *)
Lemma binary_truthy (x : Q) :
  binary x →
  truthy x = Qeq_bool x 1
  ∧ truthy (1 - x) = Qeq_bool x 0
  ∧ Qeq_bool x 0 = negb (Qeq_bool x 1).
Proof.
  intros Hx. unfold truthy. destruct Hx as [Hx|Hx].
  - rewrite (Qeq_bool_true x 0) by done.
    rewrite (Qeq_bool_false x 1) by lra.
    rewrite (Qeq_bool_false (1 - x) 0) by lra. done.
  - rewrite (Qeq_bool_false x 0) by lra.
    rewrite (Qeq_bool_true x 1) by done.
    rewrite (Qeq_bool_true (1 - x) 0) by lra. done.
Qed.

(** The four conjunctions count the four kinds of (actual, predicted)
    pairs, and every position is of exactly one kind. *)
Lemma confusion_counts (labels preds : list Q) :
  length preds = length labels →
  Forall binary labels → Forall binary preds →
  let both a b := np_sum (zip_with (λ x y, truthy x && truthy y) a b) in
  both labels preds = count_pairs 1 1 labels preds
  ∧ both (one_minus labels) preds = count_pairs 0 1 labels preds
  ∧ both (one_minus labels) (one_minus preds) = count_pairs 0 0 labels preds
  ∧ both labels (one_minus preds) = count_pairs 1 0 labels preds
  ∧ count_pairs 1 1 labels preds + count_pairs 0 1 labels preds
    + count_pairs 0 0 labels preds + count_pairs 1 0 labels preds
    = Z.of_nat (length labels).
Proof.
  intros Hlen Hl. revert preds Hlen.
  induction Hl as [|a labels Ha Hl IH]; intros [|p preds] Hlen Hp both;
    try done.
  apply Forall_cons in Hp as [Hp Hps].
  destruct (IH preds) as (IH1 & IH2 & IH3 & IH4 & IH5);
    [by simplify_eq/=|done|].
  destruct (binary_truthy a Ha) as (Ha1 & Ha2 & Ha3).
  destruct (binary_truthy p Hp) as (Hp1 & Hp2 & Hp3).
  subst both. cbv beta in *.
  change (one_minus (a :: labels)) with ((1 - a)%Q :: one_minus labels).
  change (one_minus (p :: preds)) with ((1 - p)%Q :: one_minus preds).
  cbn [zip_with count_pairs length].
  rewrite !np_sum_cons, IH1, IH2, IH3, IH4, Ha1, Ha2, Hp1, Hp2, Ha3, Hp3.
  repeat split; try done.
  destruct (Qeq_bool a 1), (Qeq_bool p 1); simpl; lia.
Qed.

Lemma count_pairs_nonneg a p labels preds : 0 ≤ count_pairs a p labels preds.
Proof.
  revert preds. induction labels as [|x labels IH]; intros [|y preds]; simpl; try lia.
  specialize (IH preds). destruct (_ && _); lia.
Qed.

(** A quotient of two counts with a non-zero divisor is that rational. *)
Lemma np_true_divide_quotient (a b : Z) :
  b ≠ 0 →
  ∃ q, np_true_divide a b = finite q ∧ (q == inject_Z a / inject_Z b)%Q.
Proof.
  intros Hb. unfold np_true_divide.
  destruct (b =? 0) eqn:E; [apply Z.eqb_eq in E; done|].
  eexists. split; [reflexivity|done].
Qed.

(** C3, as amended. With as many predictions as labels [evaluate] does not
    raise; a metric whose denominator is zero is returned as NaN, in the
    dictionary like any other value. *)
Theorem evaluate_zero_denominator predict test_features test_labels verbose :
  length (test_preds_of predict test_features) = length test_labels →
  ∃ m, evaluate predict test_features test_labels verbose = Ok m
     ∧ (TP m + FP m = 0 → Precision m = nan)
     ∧ (TP m + FN m = 0 → Recall m = nan)
     ∧ (TP m + FP m + TN m + FN m = 0 → Accuracy m = nan).
Proof.
  intros Hlen. rewrite evaluate_run by done. eexists. split; [reflexivity|].
  simpl. unfold np_true_divide.
  set (preds := test_preds_of predict test_features).
  pose proof (np_sum_nonneg (zip_with (λ x y, truthy x && truthy y) test_labels preds)).
  pose proof (np_sum_nonneg (zip_with (λ x y, truthy x && truthy y) (one_minus test_labels) preds)).
  pose proof (np_sum_nonneg (zip_with (λ x y, truthy x && truthy y)
                               (one_minus test_labels) (one_minus preds))).
  pose proof (np_sum_nonneg (zip_with (λ x y, truthy x && truthy y)
                               test_labels (one_minus preds))).
  repeat split; intros Hz; rewrite Hz; simpl;
    match goal with
    | |- (if ?a =? 0 then _ else _) = _ => replace a with 0 by lia
    end; reflexivity.
Qed.

(** C8. For predictions and labels of the same length, all binary, the
    four confusion counts add up to the length. *)
Theorem evaluate_counts_sum predict test_features test_labels verbose :
  length (test_preds_of predict test_features) = length test_labels →
  Forall binary test_labels →
  Forall binary (test_preds_of predict test_features) →
  ∃ m, evaluate predict test_features test_labels verbose = Ok m
     ∧ TP m + FP m + TN m + FN m = Z.of_nat (length test_labels).
Proof.
  intros Hlen Hl Hp. rewrite evaluate_run by done. eexists. split; [reflexivity|].
  destruct (confusion_counts _ _ Hlen Hl Hp) as (H1 & H2 & H3 & H4 & H5).
  simpl. rewrite H1, H2, H3, H4. exact H5.
Qed.

(** C9. The counts are the numbers of positions where (actual, predicted)
    is (1,1), (0,1), (0,0), (1,0).  Recall is the quotient TP/(TP+FN),
    precision the quotient TP/(TP+FP) and accuracy the quotient
    (TP+TN)/total, each whenever its divisor is not zero.  Predicted
    [1,0,1,0] against actual [1,1,0,0] gives one of each count, and recall,
    precision and accuracy 0.5. *)
Theorem evaluate_metrics predict test_features test_labels verbose :
  let test_preds := test_preds_of predict test_features in
  length test_preds = length test_labels →
  Forall binary test_labels →
  Forall binary test_preds →
  ∃ m, evaluate predict test_features test_labels verbose = Ok m
     ∧ TP m = count_pairs 1 1 test_labels test_preds
     ∧ FP m = count_pairs 0 1 test_labels test_preds
     ∧ TN m = count_pairs 0 0 test_labels test_preds
     ∧ FN m = count_pairs 1 0 test_labels test_preds
     ∧ (TP m + FN m ≠ 0 →
        ∃ q, Recall m = finite q
             ∧ (q == inject_Z (TP m) / inject_Z (TP m + FN m))%Q)
     ∧ (TP m + FP m ≠ 0 →
        ∃ q, Precision m = finite q
             ∧ (q == inject_Z (TP m) / inject_Z (TP m + FP m))%Q)
     ∧ (test_labels ≠ [] →
        ∃ q, Accuracy m = finite q
             ∧ (q == inject_Z (TP m + TN m)
                     / inject_Z (Z.of_nat (length test_labels)))%Q)
     ∧ (test_preds = [1; 0; 1; 0]%Q → test_labels = [1; 1; 0; 0]%Q →
        TP m = 1 ∧ FP m = 1 ∧ FN m = 1 ∧ TN m = 1
        ∧ ∃ recall precision accuracy,
            Recall m = finite recall ∧ Precision m = finite precision
            ∧ Accuracy m = finite accuracy
            ∧ (recall == 1 # 2)%Q ∧ (precision == 1 # 2)%Q
            ∧ (accuracy == 1 # 2)%Q).
Proof.
  intros test_preds Hlen Hl Hp. rewrite evaluate_run by done.
  eexists. split; [reflexivity|].
  destruct (confusion_counts _ _ Hlen Hl Hp) as (H1 & H2 & H3 & H4 & H5).
  fold test_preds in H1, H2, H3, H4, H5 |- *.
  simpl. rewrite H1, H2, H3, H4, H5.
  do 4 (split; [done|]).
  split; [apply np_true_divide_quotient|].
  split; [apply np_true_divide_quotient|].
  split.
  - intros Hne. apply np_true_divide_quotient.
    destruct test_labels; [done|simpl; lia].
  - intros -> ->. vm_compute.
    do 4 (split; [reflexivity|]). do 3 eexists.
    do 3 (split; [reflexivity|]). repeat split; reflexivity.
Qed.

(** *** [evaluate] on sample predictions *)

Example evaluate_sample :
  evaluate echo_predictor (Qrow <$> [[1]; [0]; [1]; [0]]) [1; 1; 0; 0]%Q true
  = Ok {| TP := 1; FP := 1; FN := 1; TN := 1;
          Precision := finite (1 # 2); Recall := finite (1 # 2);
          Accuracy := finite (2 # 4) |}.
Proof. vm_compute. reflexivity. Qed.

(** More labels than predictions: the first conjunction raises. *)
Example evaluate_length_mismatch :
  evaluate echo_predictor (Qrow <$> [[1]; [0]; [1]]) [1; 1; 0; 0]%Q true
  = Raise ValueError.
Proof. vm_compute. reflexivity. Qed.

(** C3, the claim as stated fails: with no positive prediction at all the
    precision's denominator is zero and the dictionary carries NaN, with no
    exception and no other marker. *)
Lemma evaluate_precision_nan :
  ∃ m, evaluate never_predictor (Qrow <$> [[5]; [6]]) [1; 0]%Q true = Ok m
     ∧ TP m + FP m = 0
     ∧ Precision m = nan.
Proof. eexists. split; [vm_compute; reflexivity|]. split; reflexivity. Qed.

Lemma evaluate_zero_denominator_witness :
  ∃ m, evaluate never_predictor (Qrow <$> [[5]; [6]]) [1; 0]%Q true = Ok m
     ∧ Precision m = nan.
Proof.
  destruct (evaluate_zero_denominator never_predictor (Qrow <$> [[5]; [6]])
              [1; 0]%Q true)
    as (m & Hrun & Hprec & _).
  - reflexivity.
  - exists m. split; [exact Hrun|]. apply Hprec.
    assert (Hm : Ok m = evaluate never_predictor (Qrow <$> [[5]; [6]]) [1; 0]%Q true)
      by (symmetry; exact Hrun).
    vm_compute in Hm. injection Hm as ->. reflexivity.
Defined.

Lemma sample_predictions_binary :
  Forall binary [1; 1; 0; 0]%Q
  ∧ Forall binary (test_preds_of echo_predictor (Qrow <$> [[1]; [0]; [1]; [0]])).
Proof.
  assert (Hp : test_preds_of echo_predictor (Qrow <$> [[1]; [0]; [1]; [0]])
               = [1; 0; 1; 0]%Q) by (vm_compute; reflexivity).
  rewrite Hp. unfold binary.
  split; repeat constructor; (by left) || (by right).
Defined.

Lemma evaluate_counts_sum_witness :
  ∃ m, evaluate echo_predictor (Qrow <$> [[1]; [0]; [1]; [0]]) [1; 1; 0; 0]%Q true = Ok m
     ∧ TP m + FP m + TN m + FN m = 4.
Proof.
  apply (evaluate_counts_sum echo_predictor (Qrow <$> [[1]; [0]; [1]; [0]])
           [1; 1; 0; 0]%Q true).
  - reflexivity.
  - exact (proj1 sample_predictions_binary).
  - exact (proj2 sample_predictions_binary).
Defined.

Lemma evaluate_metrics_witness :
  ∃ m, evaluate echo_predictor (Qrow <$> [[1]; [0]; [1]; [0]]) [1; 1; 0; 0]%Q true = Ok m
     ∧ TP m = 1 ∧ FP m = 1 ∧ FN m = 1 ∧ TN m = 1
     ∧ ∃ recall precision accuracy,
         Recall m = finite recall ∧ Precision m = finite precision
         ∧ Accuracy m = finite accuracy
         ∧ (recall == 1 # 2)%Q ∧ (precision == 1 # 2)%Q ∧ (accuracy == 1 # 2)%Q.
Proof.
  destruct (evaluate_metrics echo_predictor (Qrow <$> [[1]; [0]; [1]; [0]])
              [1; 1; 0; 0]%Q true)
    as (m & Hrun & _ & _ & _ & _ & _ & _ & _ & Hex).
  - reflexivity.
  - exact (proj1 sample_predictions_binary).
  - exact (proj2 sample_predictions_binary).
  - exists m. split; [exact Hrun|]. apply Hex; [vm_compute|]; reflexivity.
Defined.

(* ===================================================================== *)
(** ** More about [train_test_split]: failures, side effects, sharing *)
(* ===================================================================== *)

Section SplitEffects.
Context `{RS : RandomState}.

Lemma train_size_float_raises (n : nat) (x : float) :
  Z.of_nat n < 2 ^ 53 →
  let product := SFmul prec emax (float_of_Z (Z.of_nat n))
                   (SFsub prec emax (float_of_Z 1) x) in
  (train_size n (PyFloat x) = Raise OverflowError ↔ ∃ s, product = S754_infinity s)
  ∧ (train_size n (PyFloat x) = Raise ValueError ↔ product = S754_nan).
Proof.
  intros Hn product. rewrite train_size_float by done. fold product.
  destruct product as [s|s| |s m e]; simpl; split; split;
    try done; try (by intros [s' Hs]); eauto.
Qed.

(** X1. The call raises in exactly these cases, met in this order.
    ValueError: the seed is outside [0, 2**32 - 1].  OverflowError or
    ValueError: [int(len(matrix_df) * (1 - test_size))] fails, which it
    does exactly when the product is infinite or NaN in double precision,
    and never for a [test_size] that is an int or a double below 2**53 in
    magnitude.  IndexError: the frame has no column.  Nothing else is
    raised. *)
Theorem train_test_split_raises_iff (w : world) df test_size seed :
  let n := length (table w df) in
  let result := split_result (train_test_split df test_size seed w) in
  let accepted := 0 ≤ seed ≤ 0xffffffff in
  (result = Raise ValueError
   ↔ ¬ accepted ∨ (accepted ∧ train_size n test_size = Raise ValueError))
  ∧ (result = Raise OverflowError
     ↔ accepted ∧ train_size n test_size = Raise OverflowError)
  ∧ (result = Raise IndexError
     ↔ accepted ∧ (∃ z, train_size n test_size = Ok z) ∧ columns df = [])
  ∧ ((∃ c, result = Ok c)
     ↔ accepted ∧ (∃ z, train_size n test_size = Ok z) ∧ columns df ≠ [])
  ∧ (∀ e, result = Raise e → e = ValueError ∨ e = OverflowError ∨ e = IndexError)
  ∧ (Z.of_nat n < 2 ^ 53 →
     (moderate test_size → ∃ z, train_size n test_size = Ok z)
     ∧ ∀ x, test_size = PyFloat x →
         let product := SFmul prec emax (float_of_Z (Z.of_nat n))
                          (SFsub prec emax (float_of_Z 1) x) in
         (train_size n test_size = Raise OverflowError
          ↔ ∃ s, product = S754_infinity s)
         ∧ (train_size n test_size = Raise ValueError ↔ product = S754_nan)).
Proof.
  intros n result accepted. subst result.
  rewrite train_test_split_result, as_matrix_length. fold n.
  assert (Hlast : Z.of_nat n < 2 ^ 53 →
     (moderate test_size → ∃ z, train_size n test_size = Ok z)
     ∧ ∀ x, test_size = PyFloat x →
         let product := SFmul prec emax (float_of_Z (Z.of_nat n))
                          (SFsub prec emax (float_of_Z 1) x) in
         (train_size n test_size = Raise OverflowError
          ↔ ∃ s, product = S754_infinity s)
         ∧ (train_size n test_size = Raise ValueError ↔ product = S754_nan)).
  { intros Hn. split; [by apply train_size_moderate|].
    intros x ->. by apply train_size_float_raises. }
  destruct (decide accepted) as [Hseed|Hseed].
  - rewrite bool_decide_true by done.
    destruct (train_size n test_size) as [z|e] eqn:Hz.
    + destruct (decide (columns df = [])) as [Hcols|Hcols].
      * rewrite bool_decide_true by done.
        split; [|split; [|split; [|split; [|split]]]]; try done.
        -- split; [done|]. intros [?|[_ ?]]; done.
        -- split; [done|]. by intros [_ ?].
        -- split; [intros _; eauto|done].
        -- split; [by intros [c ?]|]. by intros (_ & _ & ?).
        -- intros e [= <-]. auto.
      * rewrite bool_decide_false by done.
        split; [|split; [|split; [|split; [|split]]]]; try done.
        -- split; [done|]. intros [?|[_ ?]]; done.
        -- split; [done|]. by intros [_ ?].
        -- split; [done|]. by intros (_ & _ & ?).
        -- split; [intros _; eauto|eauto].
    + pose proof (train_size_raises n test_size e Hz) as He.
      split; [|split; [|split; [|split; [|split]]]]; try done.
      * split.
        -- intros [= ->]. by right.
        -- intros [?|[_ [= ->]]]; done.
      * split.
        -- intros [= ->]. done.
        -- by intros [_ [= ->]].
      * split.
        -- intros [= ->]. destruct He; done.
        -- by intros (_ & [z ?] & _).
      * split; [by intros [c ?]|]. by intros (_ & [z ?] & _).
      * intros e' [= <-]. destruct He; auto.
  - rewrite bool_decide_false by done.
    split; [|split; [|split; [|split; [|split]]]]; try done.
    + split; [by left|done].
    + split; [done|]. by intros [? _].
    + split; [done|]. by intros [? _].
    + split; [by intros [c ?]|]. by intros [? _].
    + intros e [= <-]. auto.
Qed.

(** X2. A refused seed is refused before anything is seeded or shuffled:
    the generator is in the state it was in, and every buffer that was in
    the heap holds what it held. *)
Theorem train_test_split_bad_seed_untouched (w : world) df test_size seed :
  ¬ (0 ≤ seed ≤ 0xffffffff) →
  let w' := (train_test_split df test_size seed w).2 in
  rng w' = rng w
  ∧ ∀ l, is_Some (heap w !! l) → heap w' !! l = heap w !! l.
Proof.
  intros Hseed w'. subst w'.
  rewrite train_test_split_final, bool_decide_false by done. simpl.
  split; [done|]. intros l Hl.
  destruct (is_single_block (columns df)); [done|].
  rewrite lookup_insert_ne; [done|]. by apply fresh_loc_ne.
Qed.

(** X3. Whatever the outcome, a call leaves every array already in the
    heap, other than the table's own block, exactly as it was. *)
Theorem train_test_split_frame (w : world) df test_size seed l :
  is_Some (heap w !! l) →
  l ≠ data df →
  heap (train_test_split df test_size seed w).2 !! l = heap w !! l.
Proof.
  intros Hl Hne.
  rewrite train_test_split_final.
  assert (Hfresh : fresh (dom (heap w)) ≠ l) by by apply fresh_loc_ne.
  destruct (bool_decide _), (is_single_block (columns df)); simpl;
    rewrite ?lookup_insert_ne by done; done.
Qed.

Lemma shuffle_state_rows (st : rk_state) (rows : list row) :
  (shuffle st rows).2 = (shuffle st (seq 0 (length rows))).2.
Proof.
  rewrite (list_by_index [] rows) at 1. by rewrite shuffle_fmap.
Qed.

(** X4. A call with an accepted seed overwrites the global generator: the
    state it leaves depends on the seed and on the number of rows only,
    not on the state before the call nor on what the rows contain. *)
Theorem train_test_split_reseeds (w : world) df test_size seed :
  0 ≤ seed ≤ 0xffffffff →
  rng (train_test_split df test_size seed w).2
  = (shuffle (rk_seed seed) (seq 0 (length (table w df)))).2.
Proof.
  intros Hseed.
  rewrite train_test_split_final, bool_decide_true by done. simpl.
  by rewrite shuffle_state_rows, as_matrix_length.
Qed.

(** X5. The four arrays a call returns are views of one buffer.  For a
    frame that is a single block it is the table's own buffer, so the
    arrays alias the caller's table; otherwise it is a buffer that did not
    exist before the call.  (A call with a [test_size] of ordinary size,
    an accepted seed and a frame with a column does return.) *)
Theorem train_test_split_views_share (w : world) df test_size seed :
  (∀ tf tl sf sl w',
     train_test_split df test_size seed w = (Ok ((tf, tl), (sf, sl)), w') →
     base tl = base tf ∧ base sf = base tf ∧ base sl = base tf
     ∧ (if is_single_block (columns df) then base tf = data df
        else heap w !! base tf = None))
  ∧ (moderate test_size →
     Z.of_nat (length (table w df)) < 2 ^ 53 →
     0 ≤ seed ≤ 0xffffffff →
     columns df ≠ [] →
     ∃ tf tl sf sl w',
       train_test_split df test_size seed w = (Ok ((tf, tl), (sf, sl)), w')).
Proof.
  assert (Hfresh : heap w !! fresh (dom (heap w)) = None).
  { apply not_elem_of_dom, is_fresh. }
  split.
  - intros tf tl sf sl w'.
    unfold train_test_split, mbind, py_bind, values, np_random_seed.
    destruct (bool_decide (0 ≤ seed ≤ 0xffffffff));
      [|destruct (is_single_block (columns df)); simpl; discriminate].
    unfold np_random_shuffle, py_lift, getitem, len; simpl.
    destruct (is_single_block (columns df)) eqn:Hsb; simpl;
      destruct (shuffle _ _) as [rows st]; simpl;
      destruct (train_size _ _) as [z|e]; simpl; try discriminate;
      destruct (length (columns df) =? 0)%nat; simpl; try discriminate;
      intros [= <- <- <- <- <-]; simpl; repeat split; done.
  - intros Hts Hn Hseed Hcols.
    destruct (train_size_moderate _ test_size Hn Hts) as [z Hz]. unfold table in Hz.
    assert (Hw : (length (columns df) =? 0)%nat = false).
    { apply Nat.eqb_neq. destruct (columns df); simpl; [done|lia]. }
    unfold train_test_split, mbind, py_bind, values, np_random_seed.
    rewrite bool_decide_true by done.
    unfold np_random_shuffle, py_lift, getitem, len; simpl.
    destruct (is_single_block (columns df)) eqn:Hsb; simpl;
      destruct (shuffle _ _) as [rows st]; simpl;
      rewrite Nat.sub_0_r, Hz, Hw; do 5 eexists; reflexivity.
Qed.

(** X6. No failure of [int(len(matrix_df) * (1 - test_size))] comes before
    the shuffle: when it raises (OverflowError or ValueError), the global
    generator has been reseeded and advanced as by a successful call, and
    a table that is a single block is left shuffled although no split was
    returned. *)
Theorem train_test_split_fails_after_shuffle (w : world) df test_size seed e :
  0 ≤ seed ≤ 0xffffffff →
  train_size (length (table w df)) test_size = Raise e →
  let w' := (train_test_split df test_size seed w).2 in
  split_result (train_test_split df test_size seed w) = Raise e
  ∧ (e = OverflowError ∨ e = ValueError)
  ∧ table w' df = (if is_single_block (columns df)
                   then shuffled seed (table w df) else table w df)
  ∧ rng w' = (shuffle (rk_seed seed) (seq 0 (length (table w df)))).2.
Proof.
  intros Hseed He w'. subst w'.
  split; [|split; [by eapply train_size_raises|split]].
  - by rewrite train_test_split_result, bool_decide_true, as_matrix_length, He.
  - by rewrite train_test_split_table, bool_decide_true, andb_true_r.
  - rewrite train_test_split_final, bool_decide_true by done. simpl.
    by rewrite shuffle_state_rows, as_matrix_length.
Qed.

(** *** [test_size = 1] *)

Lemma is_one_float x : SFeqb x (float_of_Z 1) = true → x = float_of_Z 1.
Proof.
  rewrite float_1. unfold SFeqb, SFcompare.
  destruct x as [s|s| |s m e]; try (by destruct s); try done.
  destruct s; [done|].
  destruct (Z.compare_spec e (-52)) as [->|?|?]; [|done|done].
  rewrite Pos.compare_cont_spec.
  destruct (Pos.compare_spec m 4503599627370496) as [->|?|?]; done.
Qed.

Lemma train_size_one (n : nat) t :
  Z.of_nat n < 2 ^ 53 → is_one t → train_size n t = Ok 0.
Proof.
  intros Hn Ht. destruct t as [z|x].
  - simpl in Ht. subst z. rewrite train_size_int. f_equal. lia.
  - apply is_one_float in Ht. subst x. rewrite train_size_float by done.
    assert (Hs : SFsub prec emax (float_of_Z 1) (float_of_Z 1) = S754_zero false)
      by (vm_compute; reflexivity).
    rewrite Hs.
    destruct (decide (Z.of_nat n = 0)) as [->|Hne]; [done|].
    destruct (float_of_Z_pos (Z.of_nat n) ltac:(lia)) as (m & e & -> & _). done.
Qed.

(** X7. [test_size = 1] (the int or the float) is not refused either: the
    index is 0, the training partition is empty and the test partition is
    the whole shuffled table. *)
Theorem train_test_split_test_size_one (w : world) df test_size seed :
  is_one test_size →
  Z.of_nat (length (table w df)) < 2 ^ 53 →
  0 ≤ seed ≤ 0xffffffff →
  columns df ≠ [] →
  let s := shuffled seed (as_matrix w df) in
  split_result (train_test_split df test_size seed w)
  = Ok ((matrix [], vector []),
        (matrix (features_row <$> s), vector (label_of <$> s)))
  ∧ s ≡ₚ as_matrix w df
  ∧ length s = length (table w df).
Proof.
  intros H1 Hn Hseed Hcols s.
  split; [|split; [apply shuffled_perm|]].
  - rewrite (train_test_split_returns w df test_size seed _
               (train_size_one _ _ Hn H1) Hseed Hcols).
    fold s.
    assert (clamp_index 0 (length (table w df)) = 0%nat) as ->
      by (unfold clamp_index; simpl; lia).
    reflexivity.
  - unfold s. by rewrite shuffled_length, as_matrix_length.
Qed.

(** *** Nothing is lost between table and partitions *)

Lemma astype_float64_exact cs (r : row) :
  exact_ints cs r → astype_float64 cs r = r.
Proof.
  intros Hr. unfold astype_float64. apply list_eq. intros i.
  rewrite list_lookup_imap.
  pose proof (Hr i) as Hi. unfold row in *.
  destruct (r !! i) as [x|]; simpl; [|reflexivity]. f_equal.
  specialize (Hi x).
  destruct (cs !! i) as [[name []]|] eqn:Hc; try reflexivity.
  destruct (Hi name eq_refl eq_refl) as (z & -> & Hz).
  rewrite Qfloor_Z. by apply float64_of_int_exact.
Qed.

Lemma as_matrix_exact w df :
  Forall (exact_ints (columns df)) (table w df) → as_matrix w df = table w df.
Proof.
  intros H. unfold as_matrix. destruct (is_single_block (columns df)); [done|].
  induction H as [|r rows Hr _ IH]; [done|].
  rewrite fmap_cons, IH. f_equal. by apply astype_float64_exact.
Qed.

Lemma count_label_app v a b :
  count_label v (a ++ b) = (count_label v a + count_label v b)%nat.
Proof. induction a as [|x a IH]; simpl; [done|]. rewrite IH. lia. Qed.

Lemma count_label_perm v a b : a ≡ₚ b → count_label v a = count_label v b.
Proof.
  induction 1 as [|x a b _ IH|x y a|a b c _ IH1 _ IH2]; simpl; try lia.
Qed.

Lemma count_label_Qeq v a b : Forall2 Qeq a b → count_label v a = count_label v b.
Proof.
  induction 1 as [|x y a b Hxy _ IH]; simpl; [done|].
  rewrite IH. f_equal.
  destruct (Qeq_bool y v) eqn:E.
  - apply Qeq_bool_iff in E. rewrite Qeq_bool_true; [done|]. by rewrite Hxy.
  - apply Qeq_bool_neq in E. rewrite Qeq_bool_false; [done|]. by rewrite Hxy.
Qed.

(** X8. The split takes the label off every row without losing anything:
    for a table whose rows have the frame's width, putting each returned
    label back behind its feature row, training partition first, gives the
    shuffled array [transaction_df.values], which holds the rows of that
    array up to order.  That array holds the rows of the table itself
    when every int64 cell is an integer below 2**53 in magnitude (or the
    frame is a single block); a larger int64 cell comes back rounded to a
    double. *)
Theorem train_test_split_recombine (w : world) df test_size seed :
  Forall (λ r, length r = length (columns df)) (table w df) →
  moderate test_size →
  Z.of_nat (length (table w df)) < 2 ^ 53 →
  0 ≤ seed ≤ 0xffffffff →
  columns df ≠ [] →
  ∃ train_features train_labels test_features test_labels,
    split_result (train_test_split df test_size seed w)
    = Ok ((matrix train_features, vector train_labels),
          (matrix test_features, vector test_labels))
    ∧ with_labels train_features train_labels
      ++ with_labels test_features test_labels
      = shuffled seed (as_matrix w df)
    ∧ shuffled seed (as_matrix w df) ≡ₚ as_matrix w df
    ∧ (Forall (exact_ints (columns df)) (table w df) →
       as_matrix w df = table w df).
Proof.
  intros Hrect Hts Hn Hseed Hcols.
  destruct (train_size_moderate _ test_size Hn Hts) as [z Hz].
  do 4 eexists.
  split; [by apply (train_test_split_returns w df test_size seed z)|].
  split; [|split; [apply shuffled_perm|apply as_matrix_exact]].
  assert (Hs : Forall (λ r : row, r ≠ []) (shuffled seed (as_matrix w df))).
  { rewrite shuffled_perm. by apply as_matrix_nonempty. }
  rewrite !rows_recombine by (by apply Forall_take || by apply Forall_drop).
  apply take_drop.
Qed.

(** X9. The split keeps the class counts of a table with 0/1 labels: for
    every value, the number of training labels with that value plus the
    number of test labels with that value is the number of rows of the
    table whose last cell has that value (so no fraud row is dropped or
    counted twice). *)
Theorem train_test_split_label_counts (w : world) df test_size seed v :
  Forall (λ r, binary (label_of r)) (table w df) →
  moderate test_size →
  Z.of_nat (length (table w df)) < 2 ^ 53 →
  0 ≤ seed ≤ 0xffffffff →
  columns df ≠ [] →
  ∃ train_features train_labels test_features test_labels,
    split_result (train_test_split df test_size seed w)
    = Ok ((matrix train_features, vector train_labels),
          (matrix test_features, vector test_labels))
    ∧ (count_label v train_labels + count_label v test_labels
       = count_label v (label_of <$> table w df))%nat.
Proof.
  intros Hbin Hts Hn Hseed Hcols.
  destruct (train_size_moderate _ test_size Hn Hts) as [z Hz].
  do 4 eexists.
  split; [by apply (train_test_split_returns w df test_size seed z)|].
  rewrite <- count_label_app, <- fmap_app, take_drop.
  rewrite (count_label_perm v _ (label_of <$> as_matrix w df))
    by (by rewrite shuffled_perm).
  by apply count_label_Qeq, as_matrix_labels.
Qed.

End SplitEffects.

(* ===================================================================== *)
(** ** More about [fraudulent_percentage] *)
(* ===================================================================== *)

Section FraudRatioMore.
Context `{RS : RandomState}.

Lemma count_fraud_perm c (a b : list row) :
  a ≡ₚ b → count_fraud c a = count_fraud c b.
Proof.
  induction 1 as [|x a b _ IH|x y a|a b c' _ IH1 _ IH2]; simpl; try lia.
Qed.

Lemma count_fraud_labels c (rows : list row) :
  Forall (λ r, length r = S c) rows →
  count_fraud c rows = count_label 1 (label_of <$> rows).
Proof.
  induction 1 as [|r rows Hr _ IH]; [done|].
  rewrite fmap_cons. simpl. rewrite IH. f_equal.
  unfold label_of. rewrite last_lookup, Hr. done.
Qed.

Lemma inject_nat_eq (a b : nat) :
  (inject_Z (Z.of_nat a) == inject_Z (Z.of_nat b))%Q → a = b.
Proof. intros H. apply (proj1 (inject_Z_injective _ _)) in H. lia. Qed.

Lemma inject_nat_nonzero (n : nat) :
  (0 < n)%nat → ¬ (inject_Z (Z.of_nat n) == 0)%Q.
Proof. intros Hn H. apply (inject_nat_eq n 0) in H. lia. Qed.

Lemma Qfloor_unique (x : Q) (k : Z) :
  (inject_Z k <= x < inject_Z (k + 1))%Q → Qfloor x = k.
Proof.
  intros [Hlo Hhi].
  pose proof (Qfloor_le x) as H1. pose proof (Qlt_floor x) as H2.
  assert (Ha : (inject_Z (Qfloor x) < inject_Z (k + 1))%Q) by lra.
  assert (Hb : (inject_Z k < inject_Z (Qfloor x + 1))%Q) by lra.
  rewrite <- Zlt_Qlt in Ha, Hb. lia.
Qed.

Lemma round_half_even_near (x : Q) (k : Z) :
  (Qabs (x - inject_Z k) < 1 # 2)%Q → round_half_even x = k.
Proof.
  intros Hx. apply Qabs_Qlt_condition in Hx as [Hlo Hhi].
  assert (Hm : (inject_Z (k - 1) == inject_Z k - 1)%Q).
  { change (k - 1) with (k + -1). rewrite inject_Z_plus. reflexivity. }
  assert (Hp : (inject_Z (k + 1) == inject_Z k + 1)%Q)
    by (rewrite inject_Z_plus; reflexivity).
  unfold round_half_even.
  destruct (Qlt_le_dec x (inject_Z k)) as [Hlt|Hge].
  - assert (Hf : Qfloor x = k - 1).
    { apply Qfloor_unique. replace (k - 1 + 1) with k by lia. lra. }
    rewrite Hf.
    assert ((x - inject_Z (k - 1) ?= 1 # 2) = Gt)%Q as ->; [|lia].
    apply -> Qgt_alt. lra.
  - assert (Hf : Qfloor x = k) by (apply Qfloor_unique; lra).
    rewrite Hf.
    assert ((x - inject_Z k ?= 1 # 2) = Lt)%Q as ->; [|done].
    apply -> Qlt_alt. lra.
Qed.



(** X11. The fraud ratio does not depend on the order of the rows, so it
    is the same after a call of [train_test_split] as before it, also on
    the frames whose table the call leaves shuffled. *)
Theorem fraudulent_percentage_after_split (w : world) df test_size seed :
  (fraudulent_percentage df (train_test_split df test_size seed w).2).1
  = (fraudulent_percentage df w).1.
Proof.
  rewrite !fraudulent_percentage_run.
  pose proof (train_test_split_table w df test_size seed) as Htab.
  set (w' := (train_test_split df test_size seed w).2) in *.
  assert (Hperm : table w' df ≡ₚ table w df).
  { rewrite Htab. destruct (_ && _); [apply shuffled_perm|done]. }
  destruct (column_index "Class" (columns df)) as [c|]; [|done].
  rewrite (count_fraud_perm c _ _ Hperm), (Permutation_length Hperm).
  destruct (decide (table w' df = [])) as [He|He],
           (decide (table w df = [])) as [He'|He']; try done.
  - rewrite He in Hperm. by apply Permutation_nil in Hperm.
  - rewrite He' in Hperm. symmetry in Hperm.
    by apply Permutation_nil in Hperm.
Qed.


(** X13. [fraudulent_percentage] reads the column named Class and
    [train_test_split] the last cell of each row.  When Class is the one
    column of that name and the last one (every row has as many cells as
    the position of Class plus one) and the labels are 0 or 1, the two
    agree: the ratio times the number of rows rounds to the number of 1
    labels that the split returns, training and test together, and so does
    every value within a relative error of 2**-53 of the ratio (the
    accuracy of a double-precision quotient) on a table of fewer than
    2**52 rows. *)
Theorem fraudulent_percentage_matches_split (w : world) df c test_size seed :
  count_named "Class" (columns df) = 1%nat →
  column_index "Class" (columns df) = Some c →
  Forall (λ r, length r = S c) (table w df) →
  Forall (λ r, binary (label_of r)) (table w df) →
  table w df ≠ [] →
  moderate test_size →
  Z.of_nat (length (table w df)) < 2 ^ 53 →
  0 ≤ seed ≤ 0xffffffff →
  ∃ r train_features train_labels test_features test_labels,
    fraudulent_percentage df w = (Ok r, w)
    ∧ split_result (train_test_split df test_size seed w)
      = Ok ((matrix train_features, vector train_labels),
            (matrix test_features, vector test_labels))
    ∧ round_half_even (r * inject_Z (Z.of_nat (length (table w df))))
      = Z.of_nat (count_label 1 train_labels + count_label 1 test_labels)
    ∧ ∀ r' : Q,
        (Qabs (r' - r) <= r * (1 # 2 ^ 53))%Q →
        Z.of_nat (length (table w df)) < 2 ^ 52 →
        round_half_even (r' * inject_Z (Z.of_nat (length (table w df))))
        = Z.of_nat (count_label 1 train_labels + count_label 1 test_labels).
Proof.
  intros _ Hc Hrows Hbin Hne Hts Hn Hseed.
  assert (Hcols : columns df ≠ []).
  { intros E. by rewrite E in Hc. }
  destruct (train_size_moderate _ test_size Hn Hts) as [z Hz].
  rewrite fraudulent_percentage_run, Hc, decide_False by done.
  do 5 eexists. split; [reflexivity|].
  split; [by apply (train_test_split_returns w df test_size seed z)|].
  rewrite <- count_label_app, <- fmap_app, take_drop.
  rewrite (count_label_perm 1 _ (label_of <$> as_matrix w df))
    by (by rewrite shuffled_perm).
  rewrite (count_label_Qeq 1 _ _ (as_matrix_labels w df Hbin)).
  rewrite <- (count_fraud_labels c) by done.
  pose proof (count_fraud_le c (table w df)) as Hle.
  set (f := count_fraud c (table w df)) in *.
  set (n := length (table w df)) in *.
  assert (Hpos : (0 < n)%nat).
  { unfold n. destruct (table w df); [done|simpl; lia]. }
  assert (Hnq : ¬ (inject_Z (Z.of_nat n) == 0)%Q) by by apply inject_nat_nonzero.
  assert (Hr : (inject_Z (Z.of_nat f) / inject_Z (Z.of_nat n) * inject_Z (Z.of_nat n)
                == inject_Z (Z.of_nat f))%Q) by (field; done).
  split; [by apply round_half_even_Z|].
  intros r' Hr' Hn52. apply round_half_even_near.
  assert (Hnn : (0 < inject_Z (Z.of_nat n))%Q).
  { rewrite <- (Zlt_Qlt 0). lia. }
  assert (Hfn : (inject_Z (Z.of_nat f) <= inject_Z (Z.of_nat n))%Q).
  { rewrite <- Zle_Qle. lia. }
  assert (Hn53 : (inject_Z (Z.of_nat n) * (1 # 2 ^ 53) < 1 # 2)%Q).
  { assert (H52 : (inject_Z (Z.of_nat n) < inject_Z (2 ^ 52))%Q)
      by (rewrite <- Zlt_Qlt; lia).
    change (inject_Z (2 ^ 52)) with (4503599627370496 # 1)%Q in H52.
    change (1 # 2 ^ 53)%Q with (1 # 9007199254740992)%Q. lra. }
  assert (E1 : (r' * inject_Z (Z.of_nat n) - inject_Z (Z.of_nat f)
                == (r' - inject_Z (Z.of_nat f) / inject_Z (Z.of_nat n))
                   * inject_Z (Z.of_nat n))%Q) by (field; done).
  rewrite E1, Qabs_Qmult, (Qabs_pos (inject_Z (Z.of_nat n))) by lra.
  apply Qle_lt_trans with
    (inject_Z (Z.of_nat f) / inject_Z (Z.of_nat n) * (1 # 2 ^ 53)
     * inject_Z (Z.of_nat n))%Q.
  - apply Qmult_le_compat_r; [exact Hr'|lra].
  - assert (E2 : (inject_Z (Z.of_nat f) / inject_Z (Z.of_nat n) * (1 # 2 ^ 53)
                  * inject_Z (Z.of_nat n)
                  == inject_Z (Z.of_nat f) * (1 # 2 ^ 53))%Q) by (field; done).
    rewrite E2. apply Qle_lt_trans with (inject_Z (Z.of_nat n) * (1 # 2 ^ 53))%Q; [|exact Hn53].
    apply Qmult_le_compat_r; [exact Hfn|done].
Qed.

End FraudRatioMore.

(* ===================================================================== *)
(** ** More about [evaluate] *)
(* ===================================================================== *)

(** *** The batches sent to the endpoint *)

Lemma split_sizes_length {A} (sizes : list nat) (ary : list A) :
  length (split_sizes sizes ary) = length sizes.
Proof.
  revert ary. induction sizes as [|k sizes IH]; intros ary; simpl; [done|].
  by rewrite IH.
Qed.

Lemma split_sizes_concat {A} (sizes : list nat) (ary : list A) :
  concat (split_sizes sizes ary) = take (sum_list sizes) ary.
Proof.
  revert ary. induction sizes as [|k sizes IH]; intros ary; simpl; [done|].
  by rewrite IH, take_take_drop.
Qed.

Lemma split_sizes_bounds {A} (lo hi : nat) (sizes : list nat) (ary : list A) :
  (sum_list sizes ≤ length ary)%nat →
  Forall (λ k, lo ≤ k ≤ hi)%nat sizes →
  Forall (λ b, lo ≤ length b ≤ hi)%nat (split_sizes sizes ary).
Proof.
  intros Hsum Hs. revert ary Hsum.
  induction Hs as [|k sizes Hk _ IH]; intros ary Hsum; simpl in *; [done|].
  constructor.
  - rewrite length_take. lia.
  - apply IH. rewrite length_drop. lia.
Qed.

Lemma section_sizes_sum (n sections : nat) :
  (0 < sections)%nat → sum_list (section_sizes n sections) = n.
Proof.
  intros Hs. unfold section_sizes.
  rewrite sum_list_with_app, !sum_list_replicate.
  pose proof (Nat.div_mod_eq n sections).
  pose proof (Nat.mod_upper_bound n sections). nia.
Qed.

Lemma section_sizes_length (n sections : nat) :
  (0 < sections)%nat → length (section_sizes n sections) = sections.
Proof.
  intros Hs. unfold section_sizes. rewrite length_app, !length_replicate.
  pose proof (Nat.mod_upper_bound n sections). lia.
Qed.

Lemma np_array_split_concat {A} (ary : list A) (sections : nat) :
  (0 < sections)%nat → concat (np_array_split ary sections) = ary.
Proof.
  intros Hs. unfold np_array_split.
  rewrite split_sizes_concat, section_sizes_sum by done. by apply take_ge.
Qed.

Lemma test_preds_of_length predict (test_features : list row) :
  (∀ batch, length (predict batch) = length batch) →
  length (test_preds_of predict test_features) = length test_features.
Proof.
  intros Hp. unfold test_preds_of.
  rewrite <- (np_array_split_concat test_features 100) at 2 by lia.
  induction (np_array_split test_features 100) as [|b bs IH]; [done|].
  rewrite !fmap_cons. simpl. rewrite !length_app, length_fmap, Hp, IH. done.
Qed.

Lemma test_preds_of_Forall (P : Q → Prop) predict (test_features : list row) :
  (∀ batch, Forall P (predicted_label <$> predict batch)) →
  Forall P (test_preds_of predict test_features).
Proof.
  intros Hp. unfold test_preds_of.
  induction (np_array_split test_features 100) as [|b bs IH]; [done|].
  rewrite !fmap_cons. simpl. apply Forall_app. split; [apply Hp|apply IH].
Qed.

(** X14. [evaluate] consults the endpoint on exactly one hundred batches:
    the test features are cut into 100 batches whose sizes differ by at
    most one (so with fewer than 100 test points some calls are made with
    an empty batch), which put one after the other are the test features;
    the predictions it scores are the answers to these batches in order,
    and its result is the same for any two endpoints that answer these
    batches alike. *)
Theorem evaluate_batches predict (test_features : list row) :
  let n := length test_features in
  ∃ batches : list (list row),
    length batches = 100%nat
    ∧ concat batches = test_features
    ∧ Forall (λ b, n / 100 ≤ length b ≤ n / 100 + 1)%nat batches
    ∧ ((n < 100)%nat → [] ∈ batches)
    ∧ test_preds_of predict test_features
      = concat ((λ batch, predicted_label <$> predict batch) <$> batches)
    ∧ ∀ predict',
        (∀ batch, batch ∈ batches → predict' batch = predict batch) →
        ∀ test_labels verbose,
          evaluate predict' test_features test_labels verbose
          = evaluate predict test_features test_labels verbose.
Proof.
  intros n. exists (np_array_split test_features 100).
  unfold np_array_split at 1 2 3 4. fold n.
  assert (Hmod : (n mod 100 < 100)%nat) by (apply Nat.mod_upper_bound; lia).
  split; [|split; [|split; [|split; [|split]]]].
  - rewrite split_sizes_length. apply section_sizes_length. lia.
  - apply (np_array_split_concat test_features 100). lia.
  - apply split_sizes_bounds.
    + rewrite section_sizes_sum by lia. done.
    + unfold section_sizes. apply Forall_app.
      split; apply Forall_replicate; lia.
  - intros Hn.
    assert (Hdiv : (n / 100 = 0)%nat) by (apply Nat.div_small; lia).
    assert (Hm : (n mod 100 = n)%nat) by (apply Nat.mod_small; lia).
    assert (Hl : last (split_sizes (section_sizes n 100) test_features) = Some []).
    { unfold section_sizes. rewrite Hdiv, Hm.
      replace (100 - n)%nat with (S (99 - n)) by lia.
      rewrite replicate_S_end, app_assoc.
      generalize (replicate n (0 + 1)%nat ++ replicate (99 - n) 0%nat).
      intros sizes. generalize test_features.
      induction sizes as [|k sizes IH]; intros ary; simpl; [done|].
      rewrite <- (IH (drop k ary)).
      destruct (split_sizes (sizes ++ [0%nat]) (drop k ary)) eqn:E; [|done].
      apply (f_equal length) in E.
      rewrite split_sizes_length, length_app in E. simpl in E. lia. }
    rewrite last_lookup in Hl. by apply list_elem_of_lookup_2 in Hl.
  - unfold test_preds_of. by rewrite <- list_fmap_compose.
  - intros predict' Hsame test_labels verbose.
    assert (Hp : test_preds_of predict' test_features
                 = test_preds_of predict test_features).
    { unfold test_preds_of. f_equal. f_equal.
      apply list_fmap_ext. intros i batch Hb. apply Hsame.
      by eapply list_elem_of_lookup_2. }
    unfold evaluate. by rewrite Hp.
Qed.

(** X15. Batching is invisible for an endpoint that answers row by row:
    the predictions [evaluate] scores are the endpoint's answers to the
    test points, one per point and in their order. *)
Theorem evaluate_rowwise_predictions (answer : row → prediction)
    (test_features : list row) :
  test_preds_of (λ batch, answer <$> batch) test_features
  = (λ r, predicted_label (answer r)) <$> test_features.
Proof.
  unfold test_preds_of.
  rewrite <- (np_array_split_concat test_features 100) at 2 by lia.
  induction (np_array_split test_features 100) as [|b bs IH]; [done|].
  rewrite !fmap_cons. simpl. rewrite IH, fmap_app.
  f_equal. by rewrite <- list_fmap_compose.
Qed.

(** *** Outcomes of [evaluate] *)

Lemma np_logical_and_outcome (a b : list Q) :
  (np_logical_and a b = Raise ValueError
   ↔ length a ≠ length b ∧ length a ≠ 1%nat ∧ length b ≠ 1%nat)
  ∧ (length a = length b ∨ length a = 1%nat ∨ length b = 1%nat
     → ∃ r, np_logical_and a b = Ok r).
Proof.
  unfold np_logical_and.
  destruct (length a =? length b)%nat eqn:E.
  - apply Nat.eqb_eq in E. split; [split; [done|lia]|eauto].
  - apply Nat.eqb_neq in E.
    destruct a as [|x [|x' a]], b as [|y [|y' b]]; simpl in *;
      (split; [split; [try done; intros _; lia|try done; lia]|]);
      intros; eauto; lia.
Qed.

(** X16. [evaluate] raises only ValueError.  Without [verbose] it does so
    exactly when there are neither as many predictions as labels nor a
    single label nor a single prediction (a single one is broadcast by
    NumPy instead of refused).  With [verbose], the default, it does so
    whenever the numbers of labels and predictions differ: a broadcast
    pair gets through the four conjunctions and is refused by
    [pd.crosstab]. *)
Theorem evaluate_raises_iff predict (test_features : list row)
    (test_labels : list Q) verbose :
  let test_preds := test_preds_of predict test_features in
  let refused := length test_labels ≠ length test_preds
                 ∧ (verbose = true
                    ∨ (length test_labels ≠ 1%nat ∧ length test_preds ≠ 1%nat)) in
  (evaluate predict test_features test_labels verbose = Raise ValueError ↔ refused)
  ∧ ((∃ m, evaluate predict test_features test_labels verbose = Ok m) ↔ ¬ refused)
  ∧ (∀ e, evaluate predict test_features test_labels verbose = Raise e
          → e = ValueError).
Proof.
  intros test_preds refused. unfold evaluate. fold test_preds.
  destruct (np_logical_and_outcome test_labels test_preds) as [Hr1 Ho1].
  destruct (decide (length test_labels = length test_preds
                    ∨ length test_labels = 1%nat
                    ∨ length test_preds = 1%nat)) as [Hok|Hbad].
  - destruct (Ho1 Hok) as [r1 ->].
    destruct (np_logical_and_outcome (one_minus test_labels) test_preds) as [_ Ho2].
    destruct (np_logical_and_outcome (one_minus test_labels) (one_minus test_preds))
      as [_ Ho3].
    destruct (np_logical_and_outcome test_labels (one_minus test_preds)) as [_ Ho4].
    rewrite (one_minus_length test_labels) in Ho2, Ho3.
    rewrite (one_minus_length test_preds) in Ho3, Ho4.
    destruct (Ho2 Hok) as [r2 ->], (Ho3 Hok) as [r3 ->], (Ho4 Hok) as [r4 ->].
    cbn [fmap pyresult_fmap mbind pyresult_bind]. unfold pd_crosstab.
    destruct verbose.
    + destruct (length test_labels =? length test_preds)%nat eqn:E.
      * apply Nat.eqb_eq in E.
        assert (Hnot : ¬ refused) by (unfold refused; lia).
        cbn. split; [|split]; [split; done|split; [done|eauto]|done].
      * apply Nat.eqb_neq in E.
        assert (Href : refused) by (unfold refused; auto).
        cbn. split; [|split]; [split; done|split; [by intros [m ?]|done]|].
        by intros e [= <-].
    + assert (Hnot : ¬ refused).
      { unfold refused. intros [? [?|[? ?]]]; [done|lia]. }
      cbn. split; [|split]; [split; done|split; [done|eauto]|done].
  - assert (Href : refused) by (unfold refused; lia).
    assert (Hraise : np_logical_and test_labels test_preds = Raise ValueError)
      by (apply Hr1; lia).
    rewrite Hraise. cbn.
    split; [|split]; [split; done|split; [by intros [m ?]|done]|].
    by intros e [= <-].
Qed.

Lemma evaluate_ok_inv predict (test_features : list row) (test_labels : list Q)
    verbose m :
  evaluate predict test_features test_labels verbose = Ok m →
  0 ≤ TP m ∧ 0 ≤ FP m ∧ 0 ≤ TN m ∧ 0 ≤ FN m
  ∧ Recall m = np_true_divide (TP m) (TP m + FN m)
  ∧ Precision m = np_true_divide (TP m) (TP m + FP m)
  ∧ Accuracy m = np_true_divide (TP m + TN m) (TP m + FP m + TN m + FN m).
Proof.
  unfold evaluate. cbv zeta.
  set (preds := test_preds_of predict test_features).
  destruct (np_logical_and test_labels preds) as [r1|e]; [|done].
  destruct (np_logical_and (one_minus test_labels) preds) as [r2|e]; [|done].
  destruct (np_logical_and (one_minus test_labels) (one_minus preds)) as [r3|e];
    [|done].
  destruct (np_logical_and test_labels (one_minus preds)) as [r4|e]; [|done].
  cbn [fmap pyresult_fmap mbind pyresult_bind].
  destruct (if verbose then pd_crosstab test_labels preds else Ok ()) as [[]|e];
    [|done].
  cbn. intros [= <-]. simpl.
  pose proof (np_sum_nonneg r1). pose proof (np_sum_nonneg r2).
  pose proof (np_sum_nonneg r3). pose proof (np_sum_nonneg r4).
  repeat split; done.
Qed.

Lemma np_true_divide_ratio (a b : Z) :
  0 ≤ a ≤ b → ratio_or_nan (np_true_divide a b).
Proof.
  intros [Ha Hb]. unfold np_true_divide.
  destruct (b =? 0) eqn:E.
  - apply Z.eqb_eq in E. assert (a = 0) as -> by lia. done.
  - apply Z.eqb_neq in E. simpl.
    assert (Hbq : (0 < inject_Z b)%Q) by (rewrite <- (Zlt_Qlt 0); lia).
    assert (Haq : (0 <= inject_Z a)%Q) by (rewrite <- (Zle_Qle 0); lia).
    assert (Hab : (inject_Z a <= inject_Z b)%Q) by (rewrite <- Zle_Qle; lia).
    split.
    + apply Qle_shift_div_l; [done|lra].
    + apply Qle_shift_div_r; [done|lra].
Qed.

(** X17. Whenever [evaluate] returns, each of recall, precision and
    accuracy is NaN or a number between 0 and 1: never infinite, never
    negative, never above 1, whatever the labels and predictions are. *)
Theorem evaluate_metric_range predict (test_features : list row)
    (test_labels : list Q) verbose m :
  evaluate predict test_features test_labels verbose = Ok m →
  ratio_or_nan (Recall m) ∧ ratio_or_nan (Precision m) ∧ ratio_or_nan (Accuracy m).
Proof.
  intros Hm. apply evaluate_ok_inv in Hm as (H1 & H2 & H3 & H4 & -> & -> & ->).
  repeat split; apply np_true_divide_ratio; lia.
Qed.

(** *** Counts on values that need not be 0 or 1 *)

Lemma Qeq_bool_one_minus (x : Q) : Qeq_bool (1 - x) 0 = Qeq_bool x 1.
Proof.
  destruct (Qeq_bool x 1) eqn:E.
  - apply Qeq_bool_iff in E. apply Qeq_bool_true. lra.
  - apply Qeq_bool_neq in E. apply Qeq_bool_false. lra.
Qed.

Lemma Qeq_bool_not_both (x : Q) : Qeq_bool x 0 && Qeq_bool x 1 = false.
Proof.
  destruct (Qeq_bool x 0) eqn:E0; [|done].
  apply Qeq_bool_iff in E0. simpl. apply Qeq_bool_false. lra.
Qed.

Lemma binary_bool (x : Q) : binary x ↔ Qeq_bool x 0 || Qeq_bool x 1 = true.
Proof.
  unfold binary. rewrite orb_true_iff, !Qeq_bool_iff. done.
Qed.

(** In how many of the four conjunctions a position takes part: 1 when
    both values are binary, 2 when one is, 4 when none is. *)
Lemma position_weight (a p : Q) :
  let w := Z.b2z (truthy a && truthy p) + Z.b2z (truthy (1 - a) && truthy p)
           + Z.b2z (truthy (1 - a) && truthy (1 - p))
           + Z.b2z (truthy a && truthy (1 - p)) in
  1 ≤ w ≤ 4 ∧ (w = 1 ↔ binary a ∧ binary p).
Proof.
  intros w. subst w. rewrite !binary_bool. unfold truthy.
  rewrite !Qeq_bool_one_minus.
  pose proof (Qeq_bool_not_both a). pose proof (Qeq_bool_not_both p).
  destruct (Qeq_bool a 0), (Qeq_bool a 1), (Qeq_bool p 0), (Qeq_bool p 1);
    simpl in *; try done; (split; [lia|]); split; try done; try lia;
    by intros [? ?].
Qed.

Lemma np_sum_b2z b a : np_sum (b :: a) = Z.b2z b + np_sum a.
Proof. rewrite np_sum_cons. by destruct b. Qed.

Lemma confusion_total (labels preds : list Q) :
  length preds = length labels →
  let both a b := np_sum (zip_with (λ x y, truthy x && truthy y) a b) in
  let total := both labels preds + both (one_minus labels) preds
               + both (one_minus labels) (one_minus preds)
               + both labels (one_minus preds) in
  Z.of_nat (length labels) ≤ total ≤ 4 * Z.of_nat (length labels)
  ∧ (total = Z.of_nat (length labels)
     ↔ Forall binary labels ∧ Forall binary preds).
Proof.
  revert preds. induction labels as [|a labels IH]; intros [|p preds] Hlen;
    try done.
  intros both total. subst total both. cbv beta.
  change (one_minus (a :: labels)) with ((1 - a)%Q :: one_minus labels).
  change (one_minus (p :: preds)) with ((1 - p)%Q :: one_minus preds).
  cbn [zip_with]. rewrite !np_sum_b2z.
  destruct (IH preds) as [Hb Hiff]; [by simplify_eq/=|].
  cbv beta zeta in Hb, Hiff.
  destruct (position_weight a p) as [Hw Hwiff]. cbv zeta in Hw, Hwiff.
  rewrite !Forall_cons. cbn [length]. split; [lia|].
  split.
  - intros Ht.
    assert (Hw1 : Z.b2z (truthy a && truthy p) + Z.b2z (truthy (1 - a) && truthy p)
                  + Z.b2z (truthy (1 - a) && truthy (1 - p))
                  + Z.b2z (truthy a && truthy (1 - p)) = 1) by lia.
    apply Hwiff in Hw1 as [? ?].
    destruct Hiff as [Hiff _]. destruct Hiff as [? ?]; [lia|]. done.
  - intros [[Ha Hl] [Hp Hps]].
    assert (Hw1 := proj2 Hwiff (conj Ha Hp)).
    assert (Ht := proj2 Hiff (conj Hl Hps)). lia.
Qed.

(** X18. For as many predictions as labels, TP+FP+TN+FN is the number of
    test points exactly when every label and every prediction is 0 or 1.
    Any other value is truthy together with its complement [1 - x], so its
    position is counted more than once: the total lies between the length
    and four times the length. *)
Theorem evaluate_counts_sum_iff_binary predict (test_features : list row)
    (test_labels : list Q) verbose :
  let test_preds := test_preds_of predict test_features in
  length test_preds = length test_labels →
  ∃ m, evaluate predict test_features test_labels verbose = Ok m
     ∧ Z.of_nat (length test_labels) ≤ TP m + FP m + TN m + FN m
       ≤ 4 * Z.of_nat (length test_labels)
     ∧ (TP m + FP m + TN m + FN m = Z.of_nat (length test_labels)
        ↔ Forall binary test_labels ∧ Forall binary test_preds).
Proof.
  intros test_preds Hlen. rewrite evaluate_run by done.
  eexists. split; [reflexivity|]. simpl.
  apply (confusion_total test_labels test_preds Hlen).
Qed.

(** *** Errors and disagreements *)

Lemma count_differ_pairs (labels preds : list Q) :
  length preds = length labels →
  Forall binary labels → Forall binary preds →
  count_pairs 0 1 labels preds + count_pairs 1 0 labels preds
  = count_differ labels preds
  ∧ 0 ≤ count_differ labels preds ≤ Z.of_nat (length labels).
Proof.
  intros Hlen Hl. revert preds Hlen.
  induction Hl as [|a labels Ha Hl IH]; intros [|p preds] Hlen Hp; try done.
  apply Forall_cons in Hp as [Hp Hps].
  destruct (IH preds) as [IH1 IH2]; [by simplify_eq/=|done|].
  cbn [count_pairs count_differ length]. rewrite <- IH1.
  assert (Hcase : (if Qeq_bool a 0 && Qeq_bool p 1 then 1 else 0)
                  + (if Qeq_bool a 1 && Qeq_bool p 0 then 1 else 0)
                  = (if Qeq_bool a p then 0 else 1)).
  { destruct Ha as [Ha|Ha], Hp as [Hp|Hp].
    - rewrite (Qeq_bool_true a 0), (Qeq_bool_false p 1), (Qeq_bool_false a 1),
        (Qeq_bool_true a p) by lra. done.
    - rewrite (Qeq_bool_true a 0), (Qeq_bool_true p 1), (Qeq_bool_false a 1),
        (Qeq_bool_false a p) by lra. done.
    - rewrite (Qeq_bool_false a 0), (Qeq_bool_true a 1), (Qeq_bool_true p 0),
        (Qeq_bool_false a p) by lra. done.
    - rewrite (Qeq_bool_false a 0), (Qeq_bool_true a 1), (Qeq_bool_false p 0),
        (Qeq_bool_true a p) by lra. done. }
  split; [lia|]. destruct (Qeq_bool a p); lia.
Qed.

(** X19. On binary sequences of the same length the errors [evaluate]
    counts are the disagreements: FP + FN is the number of test points
    whose prediction differs from the label, TP + TN the number of the
    others, and when there is no disagreement on a non-empty test set the
    accuracy is 1. *)
Theorem evaluate_errors_are_disagreements predict (test_features : list row)
    (test_labels : list Q) verbose :
  let test_preds := test_preds_of predict test_features in
  length test_preds = length test_labels →
  Forall binary test_labels →
  Forall binary test_preds →
  ∃ m, evaluate predict test_features test_labels verbose = Ok m
     ∧ FP m + FN m = count_differ test_labels test_preds
     ∧ TP m + TN m
       = Z.of_nat (length test_labels) - count_differ test_labels test_preds
     ∧ (count_differ test_labels test_preds = 0 → test_labels ≠ [] →
        same_float (Accuracy m) (finite 1)).
Proof.
  intros test_preds Hlen Hl Hp. rewrite evaluate_run by done.
  eexists. split; [reflexivity|].
  destruct (confusion_counts _ _ Hlen Hl Hp) as (H1 & H2 & H3 & H4 & H5).
  destruct (count_differ_pairs _ _ Hlen Hl Hp) as [Hd Hdb].
  fold test_preds in H1, H2, H3, H4, H5, Hd, Hdb |- *.
  simpl. rewrite H1, H2, H3, H4.
  split; [lia|]. split; [lia|].
  intros Hz Hne.
  assert (Hn : 0 < Z.of_nat (length test_labels)).
  { destruct test_labels; [done|simpl; lia]. }
  replace (count_pairs 1 1 test_labels test_preds
           + count_pairs 0 0 test_labels test_preds)
    with (Z.of_nat (length test_labels)) by lia.
  rewrite H5. unfold np_true_divide.
  destruct (Z.of_nat (length test_labels) =? 0) eqn:E;
    [apply Z.eqb_eq in E; lia|].
  simpl. field. intros H0.
  apply (proj1 (inject_Z_injective _ 0)) in H0. lia.
Qed.

(* ===================================================================== *)
(** ** The manual test cell, and the functions chained *)
(* ===================================================================== *)

Lemma label_check_holds (labels : list Q) :
  bool_eq_int (np_all labels) 0 || bool_eq_int (np_all labels) 1 = true.
Proof. by destruct (np_all labels). Qed.

(** X20. The two label checks of the manual test cannot fail:
    [np.all(labels) == 0 or np.all(labels) == 1] compares one boolean with
    0 and with 1, so it holds for every array, also for labels that are
    not 0 or 1.  The cell stops only on an empty training partition
    (IndexError) or on the size check. *)
Theorem manual_test_label_checks_never_fail (train_features : list row)
    (train_labels : list Q) (test_features : list row) (test_labels : list Q) :
  manual_test train_features train_labels test_features test_labels = tests_passed
  ∨ manual_test train_features train_labels test_features test_labels
    = cell_raised CellIndexError
  ∨ manual_test train_features train_labels test_features test_labels
    = cell_raised (AssertionError
        "Unexpected number of train/test points for a train_frac=0.7").
Proof.
  unfold manual_test.
  destruct train_features as [|f fs]; [by right; left|].
  destruct train_labels as [|l ls]; [by right; left|].
  rewrite !label_check_holds.
  destruct (more_than_2333 _ _); simpl; [by left|by right; right].
Qed.

Section Chained.
Context `{RS : RandomState}.

Lemma manual_test_cut (s : list row) (k : nat) :
  (k ≤ length s)%nat →
  manual_test (features_row <$> take k s) (label_of <$> take k s)
              (features_row <$> drop k s) (label_of <$> drop k s)
  = if decide (k = 0%nat) then cell_raised CellIndexError
    else if more_than_2333 k (length s - k) then tests_passed
    else cell_raised (AssertionError
           "Unexpected number of train/test points for a train_frac=0.7").
Proof.
  intros Hk. unfold manual_test.
  assert (Hlt : length (take k s) = k) by (rewrite length_take; lia).
  destruct (take k s) as [|r rs] eqn:Et.
  - simpl in Hlt. rewrite decide_True by lia. done.
  - rewrite !fmap_cons, decide_False by (simpl in Hlt; lia).
    rewrite !label_check_holds. cbn [length].
    rewrite !length_fmap, length_drop. simpl in Hlt. rewrite Hlt.
    destruct (more_than_2333 k (length s - k)); reflexivity.
Qed.

(** The index for [test_size = 0.3] on tables of 0, 1, 90 and 100 rows. *)
Lemma default_train_size (n : nat) (z : Z) :
  train_size n default_test_size = Ok z →
  ((n < 2)%nat → clamp_index z n = 0%nat)
  ∧ (n = 100%nat → clamp_index z n = 70%nat)
  ∧ (n = 90%nat → clamp_index z n = 62%nat).
Proof.
  intros Hz. repeat split; intros Hn.
  - assert (n = 0 ∨ n = 1)%nat as [->| ->] by lia;
      vm_compute in Hz; injection Hz as <-; reflexivity.
  - subst n. vm_compute in Hz. injection Hz as <-. reflexivity.
  - subst n. vm_compute in Hz. injection Hz as <-. reflexivity.
Qed.

Lemma size_check_100_90 :
  more_than_2333 70 (100 - 70) = true ∧ more_than_2333 62 (90 - 62) = false.
Proof. split; vm_compute; reflexivity. Qed.

(** X21. The notebook's split followed by its manual test
    ([train_test_split(transaction_df, test_size=0.3)], seed 1).  With [k]
    the index at which the split cuts the table's [n] rows, the cell
    raises IndexError when [k = 0] (the training partition is empty; so for
    fewer than two rows), passes when [k > 2.333 * (n - k)] as Python
    computes it, and fails its size check otherwise, whatever the rows and
    labels are.  A table of 100 rows passes; a table of 90 rows, cut at 62,
    fails the size check, since 62 is not above [2.333 * 28]. *)
Theorem manual_test_after_split (w : world) df :
  columns df ≠ [] →
  Z.of_nat (length (table w df)) < 2 ^ 53 →
  let n := length (table w df) in
  let size_check_failed :=
    cell_raised (AssertionError
      "Unexpected number of train/test points for a train_frac=0.7") in
  ∃ z train_features train_labels test_features test_labels,
    train_size n default_test_size = Ok z
    ∧ split_result (train_test_split df default_test_size 1 w)
      = Ok ((matrix train_features, vector train_labels),
            (matrix test_features, vector test_labels))
    ∧ let k := clamp_index z n in
      let outcome :=
        manual_test train_features train_labels test_features test_labels in
      length train_features = k
      ∧ length test_features = (n - k)%nat
      ∧ outcome = (if decide (k = 0%nat) then cell_raised CellIndexError
                   else if more_than_2333 k (n - k) then tests_passed
                   else size_check_failed)
      ∧ ((n < 2)%nat → outcome = cell_raised CellIndexError)
      ∧ (n = 100%nat → k = 70%nat ∧ outcome = tests_passed)
      ∧ (n = 90%nat → k = 62%nat ∧ outcome = size_check_failed).
Proof.
  intros Hcols Hn n size_check_failed.
  destruct (train_size_moderate n default_test_size Hn default_test_size_moderate)
    as [z Hz].
  exists z. do 4 eexists. split; [exact Hz|].
  split; [apply (train_test_split_returns w df default_test_size 1 z); [done|lia|done]|].
  fold n. set (k := clamp_index z n). set (s := shuffled 1 (as_matrix w df)).
  assert (Hs : length s = n).
  { unfold s. by rewrite shuffled_length, as_matrix_length. }
  assert (Hk : (k ≤ length s)%nat) by (rewrite Hs; apply clamp_index_le).
  cbv zeta. rewrite (manual_test_cut s k Hk), Hs.
  rewrite !length_fmap, length_take, length_drop, Hs.
  destruct (default_train_size n z Hz) as (H2 & H100 & H90).
  destruct size_check_100_90 as [Hpass Hfail].
  fold k in H2, H100, H90.
  split; [lia|]. split; [done|]. split; [done|].
  split; [|split].
  - intros Hlt. by rewrite (H2 Hlt).
  - intros E. rewrite (H100 E), E, Hpass. done.
  - intros E. rewrite (H90 E), E, Hfail. done.
Qed.

Lemma split_test_predictions predict (s : list row) k :
  (∀ batch, length (predict batch) = length batch) →
  length (test_preds_of predict (features_row <$> drop k s))
  = length (label_of <$> drop k s).
Proof. intros Hp. by rewrite test_preds_of_length, !length_fmap. Qed.

(** X22. The notebook's chain from table to metrics: when the table's
    labels are 0 or 1 and the endpoint answers every batch with one 0/1
    prediction per row, [evaluate] on the test partition that
    [train_test_split] returned does not raise, and its four counts add up
    to the size of the test partition, the number of rows minus the index
    at which the split cut them.  (A call with a [test_size] of ordinary
    size, an accepted seed and a frame with a column does return.) *)
Theorem evaluate_after_split (w : world) df test_size seed predict verbose :
  Forall (λ r, binary (label_of r)) (table w df) →
  (∀ batch, length (predict batch) = length batch) →
  (∀ batch, Forall binary (predicted_label <$> predict batch)) →
  let n := length (table w df) in
  (∀ train_features train_labels test_features test_labels,
     split_result (train_test_split df test_size seed w)
     = Ok ((matrix train_features, vector train_labels),
           (matrix test_features, vector test_labels)) →
     ∃ z m,
       train_size n test_size = Ok z
       ∧ evaluate predict test_features test_labels verbose = Ok m
       ∧ length test_features = (n - clamp_index z n)%nat
       ∧ TP m + FP m + TN m + FN m = Z.of_nat (n - clamp_index z n))
  ∧ (moderate test_size →
     Z.of_nat n < 2 ^ 53 →
     0 ≤ seed ≤ 0xffffffff →
     columns df ≠ [] →
     ∃ train_features train_labels test_features test_labels,
       split_result (train_test_split df test_size seed w)
       = Ok ((matrix train_features, vector train_labels),
             (matrix test_features, vector test_labels))).
Proof.
  intros Hbin Hlen Hpb n. split.
  - intros tf tl sf sl Hrun.
    apply train_test_split_ok_inv in Hrun as (z & Hz & _ & _ & Hcut).
    fold n in Hz, Hcut.
    set (s := shuffled seed (as_matrix w df)) in *.
    set (k := clamp_index z n) in *.
    injection Hcut as -> -> -> ->.
    assert (Hpl := split_test_predictions predict s k Hlen).
    assert (Hl : Forall binary (label_of <$> drop k s)).
    { apply Forall_fmap, Forall_drop. unfold s. rewrite shuffled_perm.
      by apply as_matrix_binary. }
    assert (Hp : Forall binary (test_preds_of predict (features_row <$> drop k s)))
      by by apply test_preds_of_Forall.
    assert (Hs : length s = n).
    { unfold s. by rewrite shuffled_length, as_matrix_length. }
    exists z. eexists. split; [exact Hz|].
    rewrite evaluate_run by done.
    split; [reflexivity|].
    rewrite length_fmap, length_drop, Hs. split; [done|].
    destruct (confusion_counts _ _ Hpl Hl Hp) as (H1 & H2 & H3 & H4 & H5).
    simpl. rewrite H1, H2, H3, H4, H5.
    by rewrite length_fmap, length_drop, Hs.
  - intros Hts Hn Hseed Hcols.
    destruct (train_size_moderate n test_size Hn Hts) as [z Hz].
    do 4 eexists. by apply (train_test_split_returns w df test_size seed z).
Qed.

End Chained.

(* ===================================================================== *)
(** ** The additional properties on the sample data *)
(* ===================================================================== *)

(** Three rows fail the size check of the manual test, ten rows pass. *)
Example manual_test_three_rows :
  match split_result (train_test_split mixed_frame default_test_size 1 three_world) with
  | Ok ((matrix tf, vector tl), (matrix sf, vector sl)) =>
      manual_test tf tl sf sl
      = cell_raised (AssertionError
          "Unexpected number of train/test points for a train_frac=0.7")
  | _ => False
  end.
Proof. vm_compute. reflexivity. Qed.

Example manual_test_ten_rows :
  match split_result (train_test_split mixed_frame default_test_size 1 ten_world) with
  | Ok ((matrix tf, vector tl), (matrix sf, vector sl)) =>
      manual_test tf tl sf sl = tests_passed
  | _ => False
  end.
Proof. vm_compute. reflexivity. Qed.

(** Labels that are not 0 or 1 pass the label checks. *)
Example manual_test_odd_labels :
  manual_test (Qrow <$> [[1]; [2]; [3]]) [5; -3; 2]%Q (Qrow <$> [[4]]) [7]%Q
  = tests_passed.
Proof. vm_compute. reflexivity. Qed.

(** No Class column: KeyError, on the empty table too. *)
Example fraudulent_percentage_no_class :
  (fraudulent_percentage unlabeled_frame sample_world).1 = Raise KeyError
  ∧ (fraudulent_percentage {| columns := columns unlabeled_frame; data := 0%nat |}
       sample_world).1 = Raise KeyError.
Proof. split; vm_compute; reflexivity. Qed.

(** One fraud row in 49: the double nearest to 1/49 is within a relative
    error of 2**-53 of it, and although 49 times that double is not 49
    times 1/49, it rounds to the one fraud row. *)
Example fraud_ratio_double_49 :
  Qle_bool (Qabs (SF2Q (decimal 1 49) - (1 # 49))) ((1 # 49) * (1 # 2 ^ 53)) = true
  ∧ ¬ (SF2Q (decimal 1 49) * inject_Z 49 == 1)%Q
  ∧ round_half_even (SF2Q (decimal 1 49) * inject_Z 49) = 1.
Proof.
  split; [vm_compute; reflexivity|]. split; [|vm_compute; reflexivity].
  intros H. apply Qeq_bool_iff in H. vm_compute in H. discriminate H.
Qed.

(** A negative [test_size] of ordinary size: all five sample rows are
    training rows. *)
Example split_negative_sample :
  split_result (train_test_split mixed_frame (PyFloat (decimal (-1) 2)) 1 sample_world)
  = Ok (cut_rows 5 (shuffled 1 sample_rows)).
Proof. vm_compute. reflexivity. Qed.

(** One label against two predictions is broadcast by the conjunctions;
    with [verbose] the table of counts then refuses the pair. *)
Example evaluate_broadcast :
  (∃ m, evaluate echo_predictor (Qrow <$> [[1]; [0]]) [1]%Q false = Ok m
      ∧ TP m + FP m + TN m + FN m = 2)
  ∧ evaluate echo_predictor (Qrow <$> [[1]; [0]]) [1]%Q true = Raise ValueError.
Proof.
  split; [|vm_compute; reflexivity].
  eexists. split; [vm_compute; reflexivity|]. reflexivity.
Qed.

(** A label 2 is counted as a true and as a false positive. *)
Example evaluate_label_two :
  ∃ m, evaluate echo_predictor (Qrow <$> [[1]]) [2]%Q true = Ok m
     ∧ TP m = 1 ∧ FP m = 1 ∧ TN m = 0 ∧ FN m = 0.
Proof. eexists. split; [vm_compute; reflexivity|]. done. Qed.

(** 250 test points reach the endpoint in 50 batches of 3 followed by 50
    batches of 2. *)
Example evaluate_batch_sizes :
  test_preds_of batch_size_predictor (replicate 250 (Qrow [0]))
  = replicate 150 3%Q ++ replicate 100 2%Q.
Proof. vm_compute. reflexivity. Qed.

Lemma train_test_split_bad_seed_untouched_witness :
  rng (train_test_split mixed_frame default_test_size (-1) sample_world).2
  = rng sample_world
  ∧ ∀ l, is_Some (heap sample_world !! l) →
         heap (train_test_split mixed_frame default_test_size (-1) sample_world).2 !! l
         = heap sample_world !! l.
Proof.
  apply (train_test_split_bad_seed_untouched sample_world mixed_frame
           default_test_size (-1)).
  lia.
Defined.

Lemma busy_world_other_buffer : is_Some (heap busy_world !! 3%nat).
Proof. eexists. reflexivity. Defined.

Lemma train_test_split_frame_witness :
  heap (train_test_split float_frame default_test_size 1 busy_world).2 !! 3%nat
  = heap busy_world !! 3%nat.
Proof.
  apply (train_test_split_frame busy_world float_frame default_test_size 1 3%nat).
  - exact busy_world_other_buffer.
  - discriminate.
Defined.

Lemma train_test_split_reseeds_witness :
  rng (train_test_split mixed_frame default_test_size 1 sample_world).2
  = (shuffle (rk_seed 1) (seq 0 (length (table sample_world mixed_frame)))).2.
Proof.
  apply (train_test_split_reseeds sample_world mixed_frame default_test_size 1). lia.
Defined.

Lemma train_test_split_views_share_witness :
  ∃ tf tl sf sl w',
    train_test_split float_frame default_test_size 1 sample_world
    = (Ok ((tf, tl), (sf, sl)), w')
    ∧ base tl = base tf ∧ base sf = base tf ∧ base sl = base tf
    ∧ base tf = data float_frame.
Proof.
  destruct (train_test_split_views_share sample_world float_frame default_test_size 1)
    as [Hshare Hreturns].
  destruct Hreturns as (tf & tl & sf & sl & w' & Hrun).
  - exact default_test_size_moderate.
  - exact sample_table_small.
  - lia.
  - discriminate.
  - exists tf, tl, sf, sl, w'. split; [exact Hrun|].
    exact (Hshare tf tl sf sl w' Hrun).
Defined.

Lemma sample_train_size_overflow :
  train_size (length (table sample_world float_frame))
    (PyFloat (float_of_Z (10 ^ 308)))
  = Raise OverflowError.
Proof. vm_compute. reflexivity. Defined.

Lemma train_test_split_fails_after_shuffle_witness :
  split_result (train_test_split float_frame (PyFloat (float_of_Z (10 ^ 308))) 1
                  sample_world)
  = Raise OverflowError
  ∧ table (train_test_split float_frame (PyFloat (float_of_Z (10 ^ 308))) 1
             sample_world).2 float_frame
    = shuffled 1 (table sample_world float_frame).
Proof.
  destruct (train_test_split_fails_after_shuffle sample_world float_frame
              (PyFloat (float_of_Z (10 ^ 308))) 1 OverflowError)
    as (Hrun & _ & Htab & _).
  - lia.
  - exact sample_train_size_overflow.
  - split; [exact Hrun|exact Htab].
Defined.

Lemma train_test_split_test_size_one_witness :
  split_result (train_test_split mixed_frame (PyFloat (float_of_Z 1)) 1 sample_world)
  = Ok ((matrix [], vector []),
        (matrix (features_row <$> shuffled 1 (as_matrix sample_world mixed_frame)),
         vector (label_of <$> shuffled 1 (as_matrix sample_world mixed_frame))))
  ∧ shuffled 1 (as_matrix sample_world mixed_frame)
    ≡ₚ as_matrix sample_world mixed_frame
  ∧ length (shuffled 1 (as_matrix sample_world mixed_frame))
    = length (table sample_world mixed_frame).
Proof.
  apply (train_test_split_test_size_one sample_world mixed_frame
           (PyFloat (float_of_Z 1)) 1).
  - reflexivity.
  - exact sample_table_small.
  - lia.
  - discriminate.
Defined.

Lemma sample_rows_width :
  Forall (λ r : row, length r = 2%nat) (table sample_world mixed_frame).
Proof.
  change (table sample_world mixed_frame) with sample_rows.
  unfold sample_rows. repeat constructor.
Defined.

Lemma train_test_split_recombine_witness :
  ∃ train_features train_labels test_features test_labels,
    split_result (train_test_split mixed_frame default_test_size 1 sample_world)
    = Ok ((matrix train_features, vector train_labels),
          (matrix test_features, vector test_labels))
    ∧ with_labels train_features train_labels
      ++ with_labels test_features test_labels
      = shuffled 1 (as_matrix sample_world mixed_frame)
    ∧ shuffled 1 (as_matrix sample_world mixed_frame)
      ≡ₚ as_matrix sample_world mixed_frame.
Proof.
  destruct (train_test_split_recombine sample_world mixed_frame default_test_size 1)
    as (tf & tl & sf & sl & Hrun & Hcat & Hperm & _).
  - exact sample_rows_width.
  - exact default_test_size_moderate.
  - exact sample_table_small.
  - lia.
  - discriminate.
  - exists tf, tl, sf, sl. repeat split; assumption.
Defined.

Lemma train_test_split_label_counts_witness :
  ∃ train_features train_labels test_features test_labels,
    split_result (train_test_split mixed_frame default_test_size 1 sample_world)
    = Ok ((matrix train_features, vector train_labels),
          (matrix test_features, vector test_labels))
    ∧ (count_label 1 train_labels + count_label 1 test_labels
       = count_label 1 (label_of <$> table sample_world mixed_frame))%nat.
Proof.
  apply (train_test_split_label_counts sample_world mixed_frame default_test_size
           1 1%Q).
  - exact sample_labels_binary.
  - exact default_test_size_moderate.
  - exact sample_table_small.
  - lia.
  - discriminate.
Defined.

Lemma sample_table_nonempty : table sample_world mixed_frame ≠ [].
Proof. discriminate. Defined.

Lemma sample_one_class_column : count_named "Class" (columns mixed_frame) = 1%nat.
Proof. reflexivity. Defined.


Lemma fraudulent_percentage_matches_split_witness :
  ∃ r train_features train_labels test_features test_labels,
    fraudulent_percentage mixed_frame sample_world = (Ok r, sample_world)
    ∧ split_result (train_test_split mixed_frame default_test_size 1 sample_world)
      = Ok ((matrix train_features, vector train_labels),
            (matrix test_features, vector test_labels))
    ∧ round_half_even
        (r * inject_Z (Z.of_nat (length (table sample_world mixed_frame))))
      = Z.of_nat (count_label 1 train_labels + count_label 1 test_labels).
Proof.
  destruct (fraudulent_percentage_matches_split sample_world mixed_frame 1%nat
              default_test_size 1)
    as (r & tf & tl & sf & sl & Hrun & Hsplit & Hround & _).
  - exact sample_one_class_column.
  - reflexivity.
  - exact sample_rows_width.
  - exact sample_labels_binary.
  - exact sample_table_nonempty.
  - exact default_test_size_moderate.
  - exact sample_table_small.
  - lia.
  - exists r, tf, tl, sf, sl. repeat split; assumption.
Defined.

Lemma evaluate_metric_range_witness :
  ∃ m, evaluate echo_predictor (Qrow <$> [[1]; [0]; [1]; [0]]) [1; 1; 0; 0]%Q true
       = Ok m
     ∧ ratio_or_nan (Recall m) ∧ ratio_or_nan (Precision m)
     ∧ ratio_or_nan (Accuracy m).
Proof.
  eexists. split; [vm_compute; reflexivity|].
  apply (evaluate_metric_range echo_predictor (Qrow <$> [[1]; [0]; [1]; [0]])
           [1; 1; 0; 0]%Q true).
  vm_compute. reflexivity.
Defined.

Lemma evaluate_counts_sum_iff_binary_witness :
  ∃ m, evaluate echo_predictor (Qrow <$> [[1]]) [2]%Q true = Ok m
     ∧ 1 ≤ TP m + FP m + TN m + FN m ≤ 4.
Proof.
  destruct (evaluate_counts_sum_iff_binary echo_predictor (Qrow <$> [[1]]) [2]%Q true)
    as (m & Hrun & Hb & _).
  - reflexivity.
  - exists m. split; [exact Hrun|exact Hb].
Defined.

Lemma evaluate_errors_are_disagreements_witness :
  ∃ m, evaluate echo_predictor (Qrow <$> [[1]; [0]; [1]; [0]]) [1; 1; 0; 0]%Q true
       = Ok m
     ∧ FP m + FN m = 2.
Proof.
  destruct (evaluate_errors_are_disagreements echo_predictor
              (Qrow <$> [[1]; [0]; [1]; [0]]) [1; 1; 0; 0]%Q true)
    as (m & Hrun & Hd & _).
  - reflexivity.
  - exact (proj1 sample_predictions_binary).
  - exact (proj2 sample_predictions_binary).
  - exists m. split; [exact Hrun|]. rewrite Hd. vm_compute. reflexivity.
Defined.

Lemma ninety_table_small : Z.of_nat (length (table ninety_world mixed_frame)) < 2 ^ 53.
Proof. vm_compute. reflexivity. Defined.

Lemma manual_test_after_split_witness :
  ∃ train_features train_labels test_features test_labels,
    split_result (train_test_split mixed_frame default_test_size 1 ninety_world)
    = Ok ((matrix train_features, vector train_labels),
          (matrix test_features, vector test_labels))
    ∧ length train_features = 62%nat
    ∧ manual_test train_features train_labels test_features test_labels
      = cell_raised (AssertionError
          "Unexpected number of train/test points for a train_frac=0.7").
Proof.
  destruct (manual_test_after_split ninety_world mixed_frame)
    as (z & tf & tl & sf & sl & _ & Hrun & Hlen & _ & _ & _ & _ & H90).
  - discriminate.
  - exact ninety_table_small.
  - exists tf, tl, sf, sl. split; [exact Hrun|].
    destruct H90 as [Hk Hout]; [vm_compute; reflexivity|].
    split; [by rewrite Hlen|exact Hout].
Defined.

Lemma threshold_predictor_per_row :
  (∀ batch, length (threshold_predictor batch) = length batch)
  ∧ (∀ batch, Forall binary (predicted_label <$> threshold_predictor batch)).
Proof.
  split; intros batch; unfold threshold_predictor.
  - apply length_fmap.
  - rewrite <- list_fmap_compose. apply Forall_fmap, Forall_forall.
    intros r _. simpl. unfold binary.
    destruct (Qle_bool _ _); [by left|by right].
Defined.

Lemma evaluate_after_split_witness :
  ∃ train_features train_labels test_features test_labels m,
    split_result (train_test_split mixed_frame default_test_size 1 sample_world)
    = Ok ((matrix train_features, vector train_labels),
          (matrix test_features, vector test_labels))
    ∧ evaluate threshold_predictor test_features test_labels true = Ok m
    ∧ length test_features = 2%nat
    ∧ TP m + FP m + TN m + FN m = 2.
Proof.
  destruct (evaluate_after_split sample_world mixed_frame default_test_size 1
              threshold_predictor true sample_labels_binary
              (proj1 threshold_predictor_per_row)
              (proj2 threshold_predictor_per_row))
    as [Hscore Hreturns].
  destruct Hreturns as (tf & tl & sf & sl & Hrun).
  - exact default_test_size_moderate.
  - exact sample_table_small.
  - lia.
  - discriminate.
  - destruct (Hscore tf tl sf sl Hrun) as (z & m & Hz & Hev & Hlen & Hsum).
    assert (Hz3 : z = 3).
    { assert (E : Ok z = train_size 5 default_test_size) by (symmetry; exact Hz).
      vm_compute in E. by injection E. }
    subst z. exists tf, tl, sf, sl, m.
    split; [exact Hrun|]. split; [exact Hev|].
    split; [exact Hlen|exact Hsum].
Defined.
